(** * OhCAD geometry facade: a model of [occt_c_wrapper.cpp]

    The wrapper exposes the OpenCascade (OCCT) modelling kernel through
    flat C functions working on opaque pointers.  This development embeds
    the wrapper's functions one by one.  The kernel itself is an external
    collaborator: it appears as the interface [Kernel], and every theorem
    about the wrapper is stated for an arbitrary kernel.  A small reference
    kernel, [RefKernel], is used to run the wrapper on concrete inputs. *)

From Stdlib Require Import ZArith List Bool Floats Lia.
From stdpp Require Import base option list gmap.

Local Open Scope Z_scope.

(** ** Machine numbers *)

(** C++ [double] is IEEE binary64, which is what primitive floats are. *)
Abbreviation double := float.

(** C++ [float] is IEEE binary32.  Its values are kept in specification
    form; [static_cast_float] is the round-to-nearest-even conversion done
    by [static_cast<float>(double)]. *)
Definition float32 : Set := spec_float.

Definition static_cast_float (d : double) : float32 :=
  match Prim2SF d with
  | S754_finite s m e => binary_round 24 128 s m e
  | other => other
  end.

(** A binary32 value read back as a double (exact). *)
Definition float32_to_double (f : float32) : double := SF2Prim f.

Definition float32_is_zero (f : float32) : bool :=
  match f with S754_zero _ => true | _ => false end.

(** The exact value of a finite binary float, as an integer number of
    units of 2^-1074, the smallest positive double. *)
Definition exact_value (x : spec_float) : option Z :=
  match x with
  | S754_zero _ => Some 0
  | S754_finite s m e =>
      if -1074 <=? e then Some (cond_Zopp s (Zpos m * 2 ^ (e + 1074))) else None
  | _ => None
  end.

(** [unit_within den x y z]: the vector (x, y, z) has a length within
    [1/den] of 1, in exact arithmetic: (1 - 1/den)^2 <= x^2 + y^2 + z^2
    <= (1 + 1/den)^2. *)
Definition unit_within (den : Z) (x y z : spec_float) : bool :=
  match exact_value x, exact_value y, exact_value z with
  | Some X, Some Y, Some Z =>
      let one := 2 ^ 1074 in
      ((den - 1) ^ 2 * one ^ 2 <=? den ^ 2 * (X ^ 2 + Y ^ 2 + Z ^ 2))
      && (den ^ 2 * (X ^ 2 + Y ^ 2 + Z ^ 2) <=? (den + 1) ^ 2 * one ^ 2)
  | _, _, _ => false
  end.

(** The literal [1e-7] of the source: the nearest binary64 value. *)
Definition tol_1e7 : double := 0x1.ad7f29abcaf48p-24%float.

(** C++ [int] is 32 bits, two's complement; [to_int] is the wrap-around
    that conversions and arithmetic on [int] perform. *)
Definition INT_MAX : Z := 2147483647.
Definition to_int (z : Z) : Z := (z + 2147483648) mod 4294967296 - 2147483648.
Definition int_add (a b : Z) : Z := to_int (a + b).
Definition int_sub (a b : Z) : Z := to_int (a - b).
Definition int_mul (a b : Z) : Z := to_int (a * b).
(** [%] on [int] truncates towards zero. *)
Definition int_rem (a b : Z) : Z := to_int (Z.rem a b).

(** ** Kernel data that the wrapper reads directly *)

(** [TopAbs_ShapeEnum] as the kernel declares it (TopAbs_ShapeEnum.hxx of
    OCCT 7.9.2, the version the wrapper is built against; the wrapper
    reaches it through TopoDS_Shape.hxx): from the most complex kind to the
    simplest.  C++ numbers the enumerators from 0 in declaration order, and
    [static_cast<int>] yields that number. *)
Inductive TopAbs_ShapeEnum : Set :=
| TopAbs_COMPOUND
| TopAbs_COMPSOLID
| TopAbs_SOLID
| TopAbs_SHELL
| TopAbs_FACE
| TopAbs_WIRE
| TopAbs_EDGE
| TopAbs_VERTEX
| TopAbs_SHAPE.

Definition static_cast_int (t : TopAbs_ShapeEnum) : Z :=
  match t with
  | TopAbs_COMPOUND => 0
  | TopAbs_COMPSOLID => 1
  | TopAbs_SOLID => 2
  | TopAbs_SHELL => 3
  | TopAbs_FACE => 4
  | TopAbs_WIRE => 5
  | TopAbs_EDGE => 6
  | TopAbs_VERTEX => 7
  | TopAbs_SHAPE => 8
  end.

(** The numbering promised by the header comment of [OCCT_Shape_Type]:
    0=VERTEX, 1=EDGE, 2=WIRE, 3=FACE, 4=SHELL, 5=SOLID, 6=COMPOUND. *)
Definition documented_kind (t : TopAbs_ShapeEnum) : option Z :=
  match t with
  | TopAbs_VERTEX => Some 0
  | TopAbs_EDGE => Some 1
  | TopAbs_WIRE => Some 2
  | TopAbs_FACE => Some 3
  | TopAbs_SHELL => Some 4
  | TopAbs_SOLID => Some 5
  | TopAbs_COMPOUND => Some 6
  | TopAbs_COMPSOLID | TopAbs_SHAPE => None
  end.

(** Value types of the [gp] package: three coordinates each. *)
Record gp_Pnt : Set := mk_gp_Pnt { Pnt_X : double; Pnt_Y : double; Pnt_Z : double }.
Record gp_Vec : Set := mk_gp_Vec { Vec_X : double; Vec_Y : double; Vec_Z : double }.
Record gp_Dir : Set := mk_gp_Dir { Dir_X : double; Dir_Y : double; Dir_Z : double }.

(** [Poly_Triangulation]: nodes and index triples, both numbered from 1. *)
Record Poly_Triangulation : Set := mk_Poly_Triangulation {
  Nodes : list gp_Pnt;
  Triangles : list (Z * Z * Z)
}.

Definition NbNodes (t : Poly_Triangulation) : Z := Z.of_nat (length (Nodes t)).
Definition NbTriangles (t : Poly_Triangulation) : Z := Z.of_nat (length (Triangles t)).

(** C++ exceptions that can reach the wrapper. *)
Inductive exn : Set :=
| Standard_ConstructionError
| Standard_NullObject
| Standard_NumericError
| StdFail_NotDone
| Standard_Failure
| std_exception.

(** Outcome of one kernel call: a value, or a raised exception. *)
Inductive kres (A : Type) : Type :=
| KOk (a : A)
| KRaise (e : exn).
Arguments KOk {A} a.
Arguments KRaise {A} e.

(** ** The kernel interface

    Every kernel class the wrapper touches.  The kernel's algorithms take
    their shape arguments by const reference, which does not keep them from
    changing what the referenced object holds: the mesher stores
    triangulations in the shape it is given, and a Boolean algorithm may
    adjust its two arguments.  Both are typed accordingly: they yield,
    besides their outcome, their arguments as they are afterwards.  Builder
    classes
    ([BRepPrimAPI_Make*], [BRepAlgoAPI_*], [BRepBuilderAPI_MakeEdge]) share
    the protocol constructor / [Build] / [IsDone] / [Shape]; they are one
    abstract type [MakeShape].  [BRepBuilderAPI_MakeWire] has its own
    state, changed by [Add]. *)
Class Kernel : Type := {
  TopoDS_Shape : Type;
  IsNull : TopoDS_Shape -> bool;
  ShapeType : TopoDS_Shape -> TopAbs_ShapeEnum;
  (* gp *)
  gp_Trsf : Type;
  gp_Dir_ctor : double -> double -> double -> kres gp_Dir;
  Distance : gp_Pnt -> gp_Pnt -> double;
  Transformed : gp_Pnt -> gp_Trsf -> gp_Pnt;
  gp_Vec_of_points : gp_Pnt -> gp_Pnt -> gp_Vec;
  Crossed : gp_Vec -> gp_Vec -> gp_Vec;
  Added : gp_Vec -> gp_Vec -> gp_Vec;
  Magnitude : gp_Vec -> double;
  Normalized : gp_Vec -> kres gp_Vec;
  (* builders *)
  MakeShape : Type;
  Build : MakeShape -> kres MakeShape;
  IsDone : MakeShape -> bool;
  Shape : MakeShape -> kres TopoDS_Shape;
  BRepPrimAPI_MakeBox : double -> double -> double -> kres MakeShape;
  BRepPrimAPI_MakeCylinder : double -> double -> kres MakeShape;
  BRepPrimAPI_MakeSphere : double -> kres MakeShape;
  BRepPrimAPI_MakeCone : double -> double -> double -> kres MakeShape;
  BRepPrimAPI_MakeTorus : double -> double -> kres MakeShape;
  (* a Boolean algorithm works on the two objects it is given: the call
     yields the builder, or raises, and in either case the two shapes as
     they are afterwards *)
  BRepAlgoAPI_Fuse :
    TopoDS_Shape -> TopoDS_Shape -> kres MakeShape * (TopoDS_Shape * TopoDS_Shape);
  BRepAlgoAPI_Cut :
    TopoDS_Shape -> TopoDS_Shape -> kres MakeShape * (TopoDS_Shape * TopoDS_Shape);
  BRepAlgoAPI_Common :
    TopoDS_Shape -> TopoDS_Shape -> kres MakeShape * (TopoDS_Shape * TopoDS_Shape);
  BRepBuilderAPI_MakeEdge : gp_Pnt -> gp_Pnt -> kres MakeShape;
  (* wire builder *)
  MakeWire : Type;
  BRepBuilderAPI_MakeWire : MakeWire;
  Add : MakeWire -> TopoDS_Shape -> kres MakeWire;
  Wire_IsDone : MakeWire -> bool;
  Wire : MakeWire -> kres TopoDS_Shape;
  (* checking and meshing *)
  BRepCheck_Analyzer_IsValid : TopoDS_Shape -> kres bool;
  (* the mesher stores triangulations in the shape it is given: the call
     yields its [IsDone] flag and the shape as it is afterwards *)
  BRepMesh_IncrementalMesh :
    TopoDS_Shape -> double -> bool -> double -> kres (bool * TopoDS_Shape);
  (* the faces visited by [TopExp_Explorer (shape, TopAbs_FACE)], in order *)
  TopExp_Faces : TopoDS_Shape -> list TopoDS_Shape;
  (* [BRep_Tool::Triangulation (face, location)]: a possibly null handle,
     and the transformation of the location *)
  BRep_Tool_Triangulation : TopoDS_Shape -> option Poly_Triangulation * gp_Trsf
}.

(** ** Wrapper data *)

Record OCCT_TessellationParams : Set := mk_params {
  linear_deflection : double;
  angular_deflection : double;
  relative : bool
}.

(** [OCCT_Mesh]: the three arrays are kept with the structure that points
    to them. *)
Record OCCT_Mesh : Set := mk_mesh {
  vertices : list float32;
  num_vertices : Z;
  normals : list float32;
  triangles : list Z;
  num_triangles : Z
}.

(** Opaque handles are [void*]: an address, 0 for [nullptr]. *)
Abbreviation OCCT_Shape := N (only parsing).
Abbreviation OCCT_Wire := N (only parsing).
Abbreviation OCCT_Pnt := N (only parsing).
Abbreviation OCCT_Vec := N (only parsing).
Abbreviation OCCT_Dir := N (only parsing).
Definition nullptr : N := 0%N.

(** Outcome of running wrapper code: a value, a C++ exception in flight,
    or undefined behaviour (a read through a pointer that holds no object
    of the expected type, an index outside a vector). *)
Inductive result (A : Type) : Type :=
| Val (a : A)
| Throw (e : exn)
| Undefined.
Arguments Val {A} a.
Arguments Throw {A} e.
Arguments Undefined {A}.

(** Sequencing, for [result] here and for the state monad [M] below. *)
Class Bind (F : Type -> Type) : Type :=
  bind : forall A B : Type, F A -> (A -> F B) -> F B.
Arguments bind {F _ A B} m f.

Notation "x <- m ;; k" := (bind m (fun x => k))
  (at level 100, m at next level, right associativity, only parsing).

#[global] Instance result_bind : Bind result := fun A B r f =>
  match r with
  | Val a => f a
  | Throw e => Throw e
  | Undefined => Undefined
  end.

Definition of_kres {A} (r : kres A) : result A :=
  match r with
  | KOk a => Val a
  | KRaise e => Throw e
  end.

(** [std::vector::operator[]] with an [int] index converted to [size_t]. *)
Definition at_index {A} (l : list A) (i : Z) : result A :=
  if i <? 0 then Undefined
  else match l !! Z.to_nat i with
       | Some a => Val a
       | None => Undefined
       end.

(** A loop body run over a list, left to right, stopping at the first
    exception or undefined step. *)
Fixpoint foldM {A B} (f : A -> B -> result A) (l : list B) (a : A) : result A :=
  match l with
  | [] => Val a
  | b :: l' => a' <- f a b;; foldM f l' a'
  end.

Fixpoint mapM_result {A B} (f : A -> result B) (l : list A) : result (list B) :=
  match l with
  | [] => Val []
  | a :: l' => b <- f a;; bs <- mapM_result f l';; Val (b :: bs)
  end.

Section Facade.
Context {K : Kernel}.

(** What lives at an address. *)
Inductive object : Type :=
| Obj_Shape (s : TopoDS_Shape)
| Obj_Pnt (p : gp_Pnt)
| Obj_Vec (v : gp_Vec)
| Obj_Dir (d : gp_Dir)
| Obj_Mesh (m : OCCT_Mesh).

(** Kernel algorithms the wrapper delegates to, with their arguments. *)
Inductive kcall : Type :=
| Call_MakeBox (dx dy dz : double)
| Call_MakeCylinder (radius height : double)
| Call_MakeSphere (radius : double)
| Call_MakeCone (radius1 radius2 height : double)
| Call_MakeTorus (major_radius minor_radius : double)
| Call_Fuse (s1 s2 : TopoDS_Shape)
| Call_Cut (s1 s2 : TopoDS_Shape)
| Call_Common (s1 s2 : TopoDS_Shape)
| Call_MakeEdge (p1 p2 : gp_Pnt)
| Call_Add (edge : TopoDS_Shape)
| Call_Analyzer (s : TopoDS_Shape)
| Call_IncrementalMesh (s : TopoDS_Shape) (params : OCCT_TessellationParams).

(** The state a call runs in: the C++ heap, and the kernel algorithms
    invoked so far. *)
Record world : Type := mk_world {
  heap : gmap N object;
  calls : list kcall
}.

Definition M (A : Type) : Type := world -> result A * world.

Definition ret {A} (a : A) : M A := fun w => (Val a, w).

#[global] Instance M_bind : Bind M := fun A B m f w =>
  match m w with
  | (Val a, w') => f a w'
  | (Throw e, w') => (Throw e, w')
  | (Undefined, w') => (Undefined, w')
  end.

(** [try { m } catch (...) { h }] *)
Definition try_catch {A} (m : M A) (h : exn -> M A) : M A := fun w =>
  match m w with
  | (Throw e, w') => h e w'
  | other => other
  end.

Definition lift {A} (r : result A) : M A := fun w => (r, w).

(** Inline kernel code (accessors, [gp] arithmetic). *)
Definition inline {A} (r : kres A) : M A := lift (of_kres r).

(** A kernel algorithm: recorded, then its outcome. *)
Definition kernel {A} (c : kcall) (r : kres A) : M A := fun w =>
  (of_kres r, mk_world (heap w) (calls w ++ [c])).

(** A kernel algorithm given the two shape objects at [s1] and [s2] by
    reference: recorded; whether it raises or not, the two objects then
    hold what the algorithm left in them. *)
Definition kernel_by_reference {A} (c : kcall) (s1 s2 : N)
    (r : kres A * (TopoDS_Shape * TopoDS_Shape)) : M A := fun w =>
  (of_kres (fst r),
   mk_world (<[s2 := Obj_Shape (snd (snd r))]>
               (<[s1 := Obj_Shape (fst (snd r))]> (heap w)))
            (calls w ++ [c])).

(** [new T(...)]: an address that is neither null nor in use. *)
Definition new (o : object) : M N := fun w =>
  let a := fresh ({[0%N]} ∪ dom (heap w)) in
  (Val a, mk_world (<[a := o]> (heap w)) (calls w)).

Definition read_Shape (s : N) : M TopoDS_Shape := fun w =>
  match heap w !! s with
  | Some (Obj_Shape v) => (Val v, w)
  | _ => (Undefined, w)
  end.

Definition write_Shape (s : N) (v : TopoDS_Shape) : M unit := fun w =>
  (Val tt, mk_world (<[s := Obj_Shape v]> (heap w)) (calls w)).

(** [reinterpret_cast] between a handle and a pointer. *)
Definition toShape (handle : OCCT_Shape) : N := handle.
Definition fromShape (shape : N) : OCCT_Shape := shape.

(** *** Memory management *)

Definition OCCT_Shape_IsValid (shape : OCCT_Shape) : M bool :=
  if (shape =? 0)%N then ret false else
  let s := toShape shape in
  v <- read_Shape s;;
  if IsNull v then ret false else
  b <- kernel (Call_Analyzer v) (BRepCheck_Analyzer_IsValid v);;
  ret (if b then true else false).

Definition OCCT_Shape_Type (shape : OCCT_Shape) : M Z :=
  if (shape =? 0)%N then ret (-1) else
  let s := toShape shape in
  v <- read_Shape s;;
  if IsNull v then ret (-1) else
  ret (static_cast_int (ShapeType v)).

(** *** Geometry primitives *)

Definition OCCT_Pnt_Create (x y z : double) : M OCCT_Pnt :=
  new (Obj_Pnt (mk_gp_Pnt x y z)).

Definition OCCT_Vec_Create (x y z : double) : M OCCT_Vec :=
  new (Obj_Vec (mk_gp_Vec x y z)).

Definition OCCT_Dir_Create (x y z : double) : M OCCT_Dir :=
  d <- inline (gp_Dir_ctor x y z);;
  new (Obj_Dir d).

(** *** Wire creation *)

(** [points[i]] on a [const double*] that addresses the given array. *)
Definition read_double (points : list double) (i : Z) : M double :=
  lift (at_index points i).

(** [gp_Pnt p(points[i*2], points[i*2 + 1], 0.0)] *)
Definition point2D (points : list double) (i : Z) : M gp_Pnt :=
  x <- read_double points (int_mul i 2);;
  y <- read_double points (int_add (int_mul i 2) 1);;
  ret (mk_gp_Pnt x y 0%float).

(** [gp_Pnt p(points[i*3], points[i*3 + 1], points[i*3 + 2])] *)
Definition point3D (points : list double) (i : Z) : M gp_Pnt :=
  x <- read_double points (int_mul i 3);;
  y <- read_double points (int_add (int_mul i 3) 1);;
  z <- read_double points (int_add (int_mul i 3) 2);;
  ret (mk_gp_Pnt x y z).

(** The [for] loop shared, word for word, by [OCCT_Wire_FromPoints2D] and
    [OCCT_Wire_FromPoints3D]; [point] builds the point of an index.  The
    loop runs from [i]; [fuel] bounds the iterations left and
    [num_points - i] of it is enough. *)
Fixpoint wire_loop (point : Z -> M gp_Pnt) (num_points : Z) (closed : bool)
    (fuel : nat) (i : Z) (wireBuilder : MakeWire) : M MakeWire :=
  if negb (i <? num_points) then ret wireBuilder else
  match fuel with
  | O => lift Undefined
  | S fuel' =>
    let next := int_rem (int_add i 1) num_points in
    (* only connect to next if not at end (unless closed) *)
    if (i =? int_sub num_points 1) && negb closed then ret wireBuilder (* break *) else
    p1 <- point i;;
    p2 <- point next;;
    (* skip degenerate edges *)
    if (Distance p1 p2 <? tol_1e7)%float
    then wire_loop point num_points closed fuel' (int_add i 1) wireBuilder else
    edgeBuilder <- kernel (Call_MakeEdge p1 p2) (BRepBuilderAPI_MakeEdge p1 p2);;
    if negb (IsDone edgeBuilder)
    then wire_loop point num_points closed fuel' (int_add i 1) wireBuilder else
    edge <- inline (Shape edgeBuilder);;
    wireBuilder' <- kernel (Call_Add edge) (Add wireBuilder edge);;
    wire_loop point num_points closed fuel' (int_add i 1) wireBuilder'
  end.

(** What follows the loop in both functions. *)
Definition wire_finish (wireBuilder : MakeWire) : M OCCT_Wire :=
  if negb (Wire_IsDone wireBuilder) then ret nullptr else
  wire <- inline (Wire wireBuilder);;
  shape <- new (Obj_Shape wire);;
  ret (fromShape shape).

(** [points] is [None] for a null pointer. *)
Definition OCCT_Wire_FromPoints2D (points : option (list double)) (num_points : Z)
    (closed : bool) : M OCCT_Wire :=
  match points with
  | None => ret nullptr
  | Some points =>
    if num_points <? 2 then ret nullptr else
    try_catch
      (wireBuilder <- wire_loop (point2D points) num_points closed
                        (Z.to_nat num_points) 0 BRepBuilderAPI_MakeWire;;
       wire_finish wireBuilder)
      (fun _ => ret nullptr)
  end.

Definition OCCT_Wire_FromPoints3D (points : option (list double)) (num_points : Z)
    (closed : bool) : M OCCT_Wire :=
  match points with
  | None => ret nullptr
  | Some points =>
    if num_points <? 2 then ret nullptr else
    try_catch
      (wireBuilder <- wire_loop (point3D points) num_points closed
                        (Z.to_nat num_points) 0 BRepBuilderAPI_MakeWire;;
       wire_finish wireBuilder)
      (fun _ => ret nullptr)
  end.

(** *** Boolean operations *)

(** The body shared by the three operations once the kernel algorithm is
    chosen: they differ in the algorithm class only. *)
Definition boolean_body (call : TopoDS_Shape -> TopoDS_Shape -> kcall)
    (algo : TopoDS_Shape -> TopoDS_Shape
            -> kres MakeShape * (TopoDS_Shape * TopoDS_Shape))
    (shape1 shape2 : OCCT_Shape) : M OCCT_Shape :=
  if (shape1 =? 0)%N || (shape2 =? 0)%N then ret nullptr else
  try_catch
    (let s1 := toShape shape1 in
     let s2 := toShape shape2 in
     v1 <- read_Shape s1;;
     if IsNull v1 then ret nullptr else
     v2 <- read_Shape s2;;
     if IsNull v2 then ret nullptr else
     (* the constructor is given the two objects themselves *)
     op <- kernel_by_reference (call v1 v2) s1 s2 (algo v1 v2);;
     if negb (IsDone op) then ret nullptr else
     result <- inline (Shape op);;
     shape <- new (Obj_Shape result);;
     ret (fromShape shape))
    (fun _ => ret nullptr).

Definition OCCT_Boolean_Union (shape1 shape2 : OCCT_Shape) : M OCCT_Shape :=
  boolean_body Call_Fuse BRepAlgoAPI_Fuse shape1 shape2.

Definition OCCT_Boolean_Difference (base tool : OCCT_Shape) : M OCCT_Shape :=
  boolean_body Call_Cut BRepAlgoAPI_Cut base tool.

Definition OCCT_Boolean_Intersection (shape1 shape2 : OCCT_Shape) : M OCCT_Shape :=
  boolean_body Call_Common BRepAlgoAPI_Common shape1 shape2.

(** *** Primitive shapes

    The [printf] traces of [OCCT_Primitive_Box] go to the standard output
    and take no part in what the function returns; they are left out. *)

(** [maker.Build(); if (!maker.IsDone()) return nullptr;
     return fromShape(new TopoDS_Shape(maker.Shape()));] *)
Definition build_and_wrap (maker : MakeShape) : M OCCT_Shape :=
  maker' <- inline (Build maker);;
  if negb (IsDone maker') then ret nullptr else
  s <- inline (Shape maker');;
  result <- new (Obj_Shape s);;
  ret (fromShape result).

Definition OCCT_Primitive_Box (dx dy dz : double) : M OCCT_Shape :=
  if (dx <=? 0)%float || (dy <=? 0)%float || (dz <=? 0)%float then ret nullptr else
  try_catch
    (boxMaker <- kernel (Call_MakeBox dx dy dz) (BRepPrimAPI_MakeBox dx dy dz);;
     build_and_wrap boxMaker)
    (fun _ => ret nullptr).

Definition OCCT_Primitive_Cylinder (radius height : double) : M OCCT_Shape :=
  if (radius <=? 0)%float || (height <=? 0)%float then ret nullptr else
  try_catch
    (cylMaker <- kernel (Call_MakeCylinder radius height)
                   (BRepPrimAPI_MakeCylinder radius height);;
     build_and_wrap cylMaker)
    (fun _ => ret nullptr).

Definition OCCT_Primitive_Sphere (radius : double) : M OCCT_Shape :=
  if (radius <=? 0)%float then ret nullptr else
  try_catch
    (sphereMaker <- kernel (Call_MakeSphere radius) (BRepPrimAPI_MakeSphere radius);;
     build_and_wrap sphereMaker)
    (fun _ => ret nullptr).

Definition OCCT_Primitive_Cone (radius1 radius2 height : double) : M OCCT_Shape :=
  if (radius1 <? 0)%float || (radius2 <? 0)%float || (height <=? 0)%float
  then ret nullptr else
  if (radius1 =? 0)%float && (radius2 =? 0)%float
  then ret nullptr (* both radii can't be zero *) else
  try_catch
    (coneMaker <- kernel (Call_MakeCone radius1 radius2 height)
                    (BRepPrimAPI_MakeCone radius1 radius2 height);;
     build_and_wrap coneMaker)
    (fun _ => ret nullptr).

Definition OCCT_Primitive_Torus (major_radius minor_radius : double) : M OCCT_Shape :=
  if (major_radius <=? 0)%float || (minor_radius <=? 0)%float then ret nullptr else
  if (major_radius <=? minor_radius)%float
  then ret nullptr (* minor must be less than major *) else
  try_catch
    (torusMaker <- kernel (Call_MakeTorus major_radius minor_radius)
                     (BRepPrimAPI_MakeTorus major_radius minor_radius);;
     build_and_wrap torusMaker)
    (fun _ => ret nullptr).

(** *** Tessellation *)

(** The three [std::vector]s filled by the walk over the faces. *)
Record buffers : Set := mk_buffers {
  buf_vertices : list float32;
  buf_normals : list float32;
  buf_triangles : list Z
}.

Definition push_Pnt (p : gp_Pnt) : list float32 :=
  [static_cast_float (Pnt_X p); static_cast_float (Pnt_Y p); static_cast_float (Pnt_Z p)].

Definition push_Vec (n : gp_Vec) : list float32 :=
  [static_cast_float (Vec_X n); static_cast_float (Vec_Y n); static_cast_float (Vec_Z n)].

(** [nodeNormals[i] += v] *)
Definition add_at (nodeNormals : list gp_Vec) (i : Z) (v : gp_Vec) : result (list gp_Vec) :=
  n <- at_index nodeNormals i;;
  Val (<[Z.to_nat i := Added n v]> nodeNormals).

(** Body of the loop that computes a triangle's normal and accumulates
    it at its three vertices.  [t.Get(n1, n2, n3)] stores the indices in
    [int] variables. *)
Definition accumulate_triangle (nodes : list gp_Pnt) (nodeNormals : list gp_Vec)
    (t : Z * Z * Z) : result (list gp_Vec) :=
  let '(a, b, c) := t in
  let n1 := to_int a in
  let n2 := to_int b in
  let n3 := to_int c in
  p1 <- at_index nodes (int_sub n1 1);;
  p2 <- at_index nodes (int_sub n2 1);;
  p3 <- at_index nodes (int_sub n3 1);;
  let v1 := gp_Vec_of_points p1 p2 in
  let v2 := gp_Vec_of_points p1 p3 in
  let triNormal := Crossed v1 v2 in
  nn1 <- add_at nodeNormals (int_sub n1 1) triNormal;;
  nn2 <- add_at nn1 (int_sub n2 1) triNormal;;
  add_at nn2 (int_sub n3 1) triNormal.

(** [if (n.Magnitude() > 1e-7) n.Normalize();] *)
Definition normalize_node (n : gp_Vec) : result gp_Vec :=
  if (tol_1e7 <? Magnitude n)%float then of_kres (Normalized n) else Val n.

(** The three indices pushed for a triangle: 0-based, plus the offset. *)
Definition emit_triangle (vertex_offset : Z) (t : Z * Z * Z) : list Z :=
  let '(a, b, c) := t in
  let n1 := to_int a in
  let n2 := to_int b in
  let n3 := to_int c in
  [int_sub (int_add vertex_offset n1) 1;
   int_sub (int_add vertex_offset n2) 1;
   int_sub (int_add vertex_offset n3) 1].

(** Body of the loop over the faces. *)
Definition tessellate_face (acc : buffers) (face : TopoDS_Shape) : result buffers :=
  let '(tri, transform) := BRep_Tool_Triangulation face in
  match tri with
  | None => Val acc (* continue *)
  | Some tri =>
    let vertex_offset := to_int (Z.of_nat (length (buf_vertices acc)) / 3) in
    let nodes := map (fun p => Transformed p transform) (Nodes tri) in
    let nodeNormals0 := replicate (Z.to_nat (NbNodes tri)) (mk_gp_Vec 0 0 0) in
    nodeNormals <- foldM (accumulate_triangle nodes) (Triangles tri) nodeNormals0;;
    normalized <- mapM_result normalize_node nodeNormals;;
    Val (mk_buffers
           (buf_vertices acc ++ flat_map push_Pnt nodes)
           (buf_normals acc ++ flat_map push_Vec normalized)
           (buf_triangles acc ++ flat_map (emit_triangle vertex_offset) (Triangles tri)))
  end.

Definition empty_buffers : buffers := mk_buffers [] [] [].

Definition walk_faces (faces : list TopoDS_Shape) : result buffers :=
  foldM tessellate_face faces empty_buffers.

Definition is_empty {A} (l : list A) : bool :=
  match l with [] => true | _ => false end.

(** The structure allocated once the walk is over. *)
Definition make_mesh (b : buffers) : OCCT_Mesh :=
  mk_mesh (buf_vertices b)
          (to_int (Z.of_nat (length (buf_vertices b)) / 3))
          (buf_normals b)
          (buf_triangles b)
          (to_int (Z.of_nat (length (buf_triangles b)) / 3)).

Definition OCCT_Tessellate (shape : OCCT_Shape) (params : OCCT_TessellationParams)
    : M N :=
  if (shape =? 0)%N then ret nullptr else
  try_catch
    (let topoShape := toShape shape in
     v <- read_Shape topoShape;;
     if IsNull v then ret nullptr else
     mesher <- kernel (Call_IncrementalMesh v params)
                 (BRepMesh_IncrementalMesh v (linear_deflection params)
                    (relative params) (angular_deflection params));;
     _ <- write_Shape topoShape (snd mesher);;
     if negb (fst mesher) then ret nullptr else
     b <- lift (walk_faces (TopExp_Faces (snd mesher)));;
     if is_empty (buf_vertices b) || is_empty (buf_triangles b) then ret nullptr else
     new (Obj_Mesh (make_mesh b)))
    (fun _ => ret nullptr).

End Facade.

(** ** A reference kernel

    A small polyhedral kernel against which the wrapper can be run.  Shapes
    are trees: a kind, the corner points of a face or the end points of an
    edge, the triangulation a face carries, and the sub-shapes.  The [gp]
    arithmetic follows the inline definitions of the kernel headers. *)
Module Ref.

#[warnings="-register-all"]
Inductive shape : Type :=
| Null
| Node (kind : TopAbs_ShapeEnum) (pts : list gp_Pnt)
       (tri : option Poly_Triangulation) (subs : list shape).

Definition is_null (s : shape) : bool :=
  match s with Null => true | Node _ _ _ _ => false end.

Definition shape_type (s : shape) : TopAbs_ShapeEnum :=
  match s with Null => TopAbs_SHAPE | Node k _ _ _ => k end.

Definition is_face (k : TopAbs_ShapeEnum) : bool :=
  match k with TopAbs_FACE => true | _ => false end.

Fixpoint faces (s : shape) : list shape :=
  match s with
  | Null => []
  | Node k _ _ subs => if is_face k then [s] else flat_map faces subs
  end.

Definition triangulation (s : shape) : option Poly_Triangulation * unit :=
  match s with
  | Node _ _ tri _ => (tri, tt)
  | Null => (None, tt)
  end.

(** [gp::Resolution()], the smallest positive normal double. *)
Definition Resolution : double := 0x1p-1022%float.

Definition sq_norm (x y z : double) : double := (x * x + y * y + z * z)%float.

Definition dir_ctor (x y z : double) : kres gp_Dir :=
  let D := PrimFloat.sqrt (sq_norm x y z) in
  if (D <=? Resolution)%float then KRaise Standard_ConstructionError
  else KOk (mk_gp_Dir (x / D) (y / D) (z / D))%float.

Definition distance (p q : gp_Pnt) : double :=
  PrimFloat.sqrt (sq_norm (Pnt_X q - Pnt_X p) (Pnt_Y q - Pnt_Y p) (Pnt_Z q - Pnt_Z p))%float.

Definition vec_of_points (p q : gp_Pnt) : gp_Vec :=
  mk_gp_Vec (Pnt_X q - Pnt_X p) (Pnt_Y q - Pnt_Y p) (Pnt_Z q - Pnt_Z p)%float.

Definition crossed (a b : gp_Vec) : gp_Vec :=
  mk_gp_Vec (Vec_Y a * Vec_Z b - Vec_Z a * Vec_Y b)
            (Vec_Z a * Vec_X b - Vec_X a * Vec_Z b)
            (Vec_X a * Vec_Y b - Vec_Y a * Vec_X b)%float.

Definition added (a b : gp_Vec) : gp_Vec :=
  mk_gp_Vec (Vec_X a + Vec_X b) (Vec_Y a + Vec_Y b) (Vec_Z a + Vec_Z b)%float.

Definition magnitude (a : gp_Vec) : double :=
  PrimFloat.sqrt (sq_norm (Vec_X a) (Vec_Y a) (Vec_Z a)).

Definition normalized (a : gp_Vec) : kres gp_Vec :=
  let D := magnitude a in
  if (D <=? Resolution)%float then KRaise Standard_ConstructionError
  else KOk (mk_gp_Vec (Vec_X a / D) (Vec_Y a / D) (Vec_Z a / D))%float.

(** Builders: the shape they hold and whether they are done. *)
Record maker : Type := mk_maker { maker_done : bool; maker_shape : shape }.

Definition maker_Shape (m : maker) : kres shape :=
  if maker_done m then KOk (maker_shape m) else KRaise StdFail_NotDone.

Definition face_of (pts : list gp_Pnt) : shape := Node TopAbs_FACE pts None [].
Definition solid_of (fs : list shape) : shape := Node TopAbs_SOLID [] None fs.

Definition box_shape (dx dy dz : double) : shape :=
  let P x y z := mk_gp_Pnt x y z in
  let o := 0%float in
  solid_of
    [ face_of [P o o o; P o dy o; P dx dy o; P dx o o];
      face_of [P o o dz; P dx o dz; P dx dy dz; P o dy dz];
      face_of [P o o o; P dx o o; P dx o dz; P o o dz];
      face_of [P o dy o; P o dy dz; P dx dy dz; P dx dy o];
      face_of [P o o o; P o o dz; P o dy dz; P o dy o];
      face_of [P dx o o; P dx dy o; P dx dy dz; P dx o dz] ].

(** Curved primitives: a solid bounded by one face that holds no polygon. *)
Definition round_shape : shape := solid_of [face_of []].

Definition make_edge (p q : gp_Pnt) : maker :=
  mk_maker (negb (distance p q <=? Resolution)%float) (Node TopAbs_EDGE [p; q] None []).

(** The wire builder: edges and vertices so far, and the done flag.  An
    edge joins the wire when one of its ends lies within the vertex
    tolerance ([Precision::Confusion()], 1e-7) of a vertex of the wire;
    otherwise the builder is left not done. *)
Record wire_builder : Type := mk_wire_builder {
  wb_edges : list shape;
  wb_verts : list gp_Pnt;
  wb_done : bool
}.

Definition touches (verts : list gp_Pnt) (p : gp_Pnt) : bool :=
  existsb (fun v => (distance v p <? tol_1e7)%float) verts.

Definition wire_add (w : wire_builder) (e : shape) : kres wire_builder :=
  match e with
  | Node TopAbs_EDGE [p; q] _ _ =>
    if is_empty (wb_edges w) || touches (wb_verts w) p || touches (wb_verts w) q
    then KOk (mk_wire_builder (wb_edges w ++ [e]) (wb_verts w ++ [p; q]) true)
    else KOk (mk_wire_builder (wb_edges w) (wb_verts w) false)
  | _ => KRaise Standard_NullObject
  end.

Definition wire_Wire (w : wire_builder) : kres shape :=
  if wb_done w then KOk (Node TopAbs_WIRE (wb_verts w) None (wb_edges w))
  else KRaise StdFail_NotDone.

(** Meshing: a face without triangulation that holds a polygon of at
    least three corners receives the fan triangulation of that polygon. *)
Definition fan (pts : list gp_Pnt) : option Poly_Triangulation :=
  if (length pts <? 3)%nat then None
  else Some (mk_Poly_Triangulation pts
               (map (fun i => (1, Z.of_nat i + 2, Z.of_nat i + 3)) (seq 0 (length pts - 2)))).

Fixpoint mesh_shape (s : shape) : shape :=
  match s with
  | Null => Null
  | Node k pts tri subs =>
    Node k pts
      (match tri with
       | Some t => Some t
       | None => if is_face k then fan pts else None
       end)
      (map mesh_shape subs)
  end.

(** A linear deflection below the geometric tolerance is refused. *)
Definition incremental_mesh (s : shape) (lin : double) (rel : bool) (ang : double)
    : kres (bool * shape) :=
  if (lin <? tol_1e7)%float then KRaise Standard_NumericError
  else KOk (true, mesh_shape s).

(** The Boolean algorithms, as coarse as the rest: the union is the
    compound of the two, the difference the first, the intersection an
    empty compound.  They leave their arguments as they are. *)
Definition fuse (a b : shape) : kres maker * (shape * shape) :=
  (KOk (mk_maker true (Node TopAbs_COMPOUND [] None [a; b])), (a, b)).

Definition cut (a b : shape) : kres maker * (shape * shape) :=
  (KOk (mk_maker true a), (a, b)).

Definition common (a b : shape) : kres maker * (shape * shape) :=
  (KOk (mk_maker true (Node TopAbs_COMPOUND [] None [])), (a, b)).

End Ref.

#[global] Instance RefKernel : Kernel := {|
  TopoDS_Shape := Ref.shape;
  IsNull := Ref.is_null;
  ShapeType := Ref.shape_type;
  gp_Trsf := unit;
  gp_Dir_ctor := Ref.dir_ctor;
  Distance := Ref.distance;
  Transformed := fun p _ => p;
  gp_Vec_of_points := Ref.vec_of_points;
  Crossed := Ref.crossed;
  Added := Ref.added;
  Magnitude := Ref.magnitude;
  Normalized := Ref.normalized;
  MakeShape := Ref.maker;
  Build := fun m => KOk (Ref.mk_maker true (Ref.maker_shape m));
  IsDone := Ref.maker_done;
  Shape := Ref.maker_Shape;
  BRepPrimAPI_MakeBox := fun dx dy dz => KOk (Ref.mk_maker false (Ref.box_shape dx dy dz));
  BRepPrimAPI_MakeCylinder := fun _ _ => KOk (Ref.mk_maker false Ref.round_shape);
  BRepPrimAPI_MakeSphere := fun _ => KOk (Ref.mk_maker false Ref.round_shape);
  BRepPrimAPI_MakeCone := fun _ _ _ => KOk (Ref.mk_maker false Ref.round_shape);
  BRepPrimAPI_MakeTorus := fun _ _ => KOk (Ref.mk_maker false Ref.round_shape);
  BRepAlgoAPI_Fuse := Ref.fuse;
  BRepAlgoAPI_Cut := Ref.cut;
  BRepAlgoAPI_Common := Ref.common;
  BRepBuilderAPI_MakeEdge := fun p q => KOk (Ref.make_edge p q);
  MakeWire := Ref.wire_builder;
  BRepBuilderAPI_MakeWire := Ref.mk_wire_builder [] [] false;
  Add := Ref.wire_add;
  Wire_IsDone := Ref.wb_done;
  Wire := Ref.wire_Wire;
  BRepCheck_Analyzer_IsValid := fun _ => KOk true;
  BRepMesh_IncrementalMesh := Ref.incremental_mesh;
  TopExp_Faces := Ref.faces;
  BRep_Tool_Triangulation := Ref.triangulation
|}.

(** The state before any call: nothing allocated, no kernel call made. *)
Definition world0 : world (K := RefKernel) := mk_world ∅ [].

(** An open polyline with two points crowded behind the second one:
    (0,0), (1,0), (1+2^-24,0), (1+2^-23,0), (2,0). *)
Definition gap_polyline : list (double * double) :=
  [(0, 0); (1, 0); (0x1.000001p+0, 0); (0x1.000002p+0, 0); (2, 0)]%float.

(** A polyline with a repeated point: (0,0), (1,0), (1,0), (1,1). *)
Definition repeat_polyline : list (double * double) :=
  [(0, 0); (1, 0); (1, 0); (1, 1)]%float.

(** Tessellation parameters: a linear deflection of 1/16, an angular
    deflection of 1/2 radian, absolute. *)
Definition coarse_params : OCCT_TessellationParams := mk_params 0x1p-4 0x1p-1 false.

(** The same with a linear deflection of zero. *)
Definition zero_deflection : OCCT_TessellationParams := mk_params 0 0x1p-1 false.

(** The state after a unit cube was built: it sits at the address 1. *)
Definition world_cube : world (K := RefKernel) :=
  snd (OCCT_Primitive_Box 1 1 1 world0).

(** A unit cube built and tessellated: the outcome of the second call and
    the state it leaves.  The cube is at the address 1, its mesh at 2. *)
Definition cube_tessellated : result N * world (K := RefKernel) :=
  (box <- OCCT_Primitive_Box 1 1 1;; OCCT_Tessellate box coarse_params) world0.

(** A thin box, 2^-14 by 2^-14 by 1, built and tessellated. *)
Definition thin_box_tessellated : result N * world (K := RefKernel) :=
  (box <- OCCT_Primitive_Box 0x1p-14 0x1p-14 1;; OCCT_Tessellate box coarse_params) world0.

(** A huge box, 2^300 on each side, built and tessellated. *)
Definition huge_box_tessellated : result N * world (K := RefKernel) :=
  (box <- OCCT_Primitive_Box 0x1p300 0x1p300 0x1p300;;
   OCCT_Tessellate box coarse_params) world0.

(** The state after two boxes were built: they sit at the addresses 1
    and 2. *)
Definition world_two_boxes : world (K := RefKernel) :=
  snd ((_ <- OCCT_Primitive_Box 1 1 1;; OCCT_Primitive_Box 2 2 2) world0).

(** ** Vocabulary of the statements *)

Section Vocabulary.
Context {K : Kernel}.

(** [allocated w w' r o]: [w'] is [w] with the object [o] placed at the
    address [r], which is not null and was free in [w]. *)
Definition allocated (w w' : world) (r : N) (o : object) : Prop :=
  r <> nullptr /\ heap w !! r = None /\
  heap w' = <[r := o]> (heap w) /\ calls w' = calls w.


(** The kernel accepts a primitive: the builder builds, reports done and
    hands out the shape [s]. *)
Definition kernel_accepts (maker : MakeShape) (s : TopoDS_Shape) : Prop :=
  exists maker', Build maker = KOk maker' /\ IsDone maker' = true /\ Shape maker' = KOk s.

(** The kernel's own verdict that [s] is a valid solid. *)
Definition valid_solid (s : TopoDS_Shape) : Prop :=
  IsNull s = false /\ ShapeType s = TopAbs_SOLID /\
  BRepCheck_Analyzer_IsValid s = KOk true.

(** The rejection condition of the cone, in the words of the claim:
    a negative radius, a non-positive height, or both radii zero. *)
Definition cone_rejected (radius1 radius2 height : double) : bool :=
  (radius1 <? 0)%float || (radius2 <? 0)%float || (height <=? 0)%float
  || ((radius1 =? 0)%float && (radius2 =? 0)%float).

(** *** Polylines *)

(** The flat coordinate arrays handed to the wire functions. *)
Definition coords2D (pts : list (double * double)) : list double :=
  flat_map (fun p => [fst p; snd p]) pts.

Definition coords3D (pts : list gp_Pnt) : list double :=
  flat_map (fun p => [Pnt_X p; Pnt_Y p; Pnt_Z p]) pts.

(** A 2D point placed on the plane [z = 0]. *)
Definition on_XY (p : double * double) : gp_Pnt := mk_gp_Pnt (fst p) (snd p) 0%float.

(** The pair that closes a polyline: last point to first point. *)
Definition closing (pts : list gp_Pnt) (closed : bool) : list (gp_Pnt * gp_Pnt) :=
  if closed
  then match last pts, head pts with
       | Some l, Some f => [(l, f)]
       | _, _ => []
       end
  else [].

(** The pairs of consecutive points of a polyline, then the closing pair. *)
Definition segments (pts : list gp_Pnt) (closed : bool) : list (gp_Pnt * gp_Pnt) :=
  zip pts (tail pts) ++ closing pts closed.

(** A pair of points closer than 1e-7. *)
Definition degenerate (seg : gp_Pnt * gp_Pnt) : bool :=
  (Distance (fst seg) (snd seg) <? tol_1e7)%float.

Definition kept_segments (pts : list gp_Pnt) (closed : bool) : list (gp_Pnt * gp_Pnt) :=
  List.filter (fun seg => negb (degenerate seg)) (segments pts closed).

(** One edge requested from the kernel for each pair, in order; an edge
    that the kernel built is added to the wire builder. *)
Fixpoint add_segments (segs : list (gp_Pnt * gp_Pnt)) (wireBuilder : MakeWire)
    : M MakeWire :=
  match segs with
  | [] => ret wireBuilder
  | seg :: rest =>
    edgeBuilder <- kernel (Call_MakeEdge (fst seg) (snd seg))
                     (BRepBuilderAPI_MakeEdge (fst seg) (snd seg));;
    if negb (IsDone edgeBuilder) then add_segments rest wireBuilder else
    edge <- inline (Shape edgeBuilder);;
    wireBuilder' <- kernel (Call_Add edge) (Add wireBuilder edge);;
    add_segments rest wireBuilder'
  end.

(** The wire of a list of pairs: the edges are added to an empty builder;
    the result is a new wire handle when the builder reports done and null
    when it does not or when the kernel raised. *)
Definition wire_of_segments (segs : list (gp_Pnt * gp_Pnt)) : M OCCT_Wire :=
  try_catch
    (wireBuilder <- add_segments segs BRepBuilderAPI_MakeWire;;
     wire_finish wireBuilder)
    (fun _ => ret nullptr).

(** *** Meshes *)

(** The kernel's mesher run with the parameters of the call. *)
Definition run_mesher (v : TopoDS_Shape) (params : OCCT_TessellationParams)
    : kres (bool * TopoDS_Shape) :=
  BRepMesh_IncrementalMesh v (linear_deflection params) (relative params)
    (angular_deflection params).

(** Why [OCCT_Tessellate] returns null. *)
Inductive null_cause (w : world) (shape : OCCT_Shape) (params : OCCT_TessellationParams)
    : Prop :=
| null_handle :
    shape = nullptr -> null_cause w shape params
| empty_shape v :
    heap w !! shape = Some (Obj_Shape v) -> IsNull v = true ->
    null_cause w shape params
| mesher_raises v e :
    heap w !! shape = Some (Obj_Shape v) -> run_mesher v params = KRaise e ->
    null_cause w shape params
| mesher_not_done v v' :
    heap w !! shape = Some (Obj_Shape v) -> run_mesher v params = KOk (false, v') ->
    null_cause w shape params
| walk_raises v v' e :
    heap w !! shape = Some (Obj_Shape v) -> run_mesher v params = KOk (true, v') ->
    walk_faces (TopExp_Faces v') = Throw e ->
    null_cause w shape params
| nothing_walked v v' b :
    heap w !! shape = Some (Obj_Shape v) -> run_mesher v params = KOk (true, v') ->
    walk_faces (TopExp_Faces v') = Val b ->
    buf_vertices b = [] \/ buf_triangles b = [] ->
    null_cause w shape params.

(** The three causes that the claim lists: a null handle, an empty shape,
    or faces whose walk yields no vertex or no triangle. *)
Definition claimed_null_cause (w : world) (shape : OCCT_Shape) : Prop :=
  shape = nullptr \/
  exists v, heap w !! shape = Some (Obj_Shape v) /\
    (IsNull v = true \/
     exists b, walk_faces (TopExp_Faces v) = Val b /\
               (buf_vertices b = [] \/ buf_triangles b = [])).

(** The nodes of a triangulated face in the global frame, and its index
    triples. *)
Definition face_mesh (face : TopoDS_Shape) : option (list gp_Pnt * list (Z * Z * Z)) :=
  match BRep_Tool_Triangulation face with
  | (Some tri, transform) =>
      Some (map (fun p => Transformed p transform) (Nodes tri), Triangles tri)
  | (None, _) => None
  end.

(** The triangulated faces of a list of faces, in order. *)
Definition face_meshes (faces : list TopoDS_Shape)
    : list (list gp_Pnt * list (Z * Z * Z)) :=
  omap face_mesh faces.

(** The corners of a triangle as 0-based node indices. *)
Definition corners (t : Z * Z * Z) : list Z :=
  let '(a, b, c) := t in
  [int_sub (to_int a) 1; int_sub (to_int b) 1; int_sub (to_int c) 1].

(** The triangle indices of a sequence of faces: the 0-based corners of
    each face, shifted by the number of nodes of the faces before it. *)
Fixpoint offset_triangles (offset : Z) (fms : list (list gp_Pnt * list (Z * Z * Z)))
    : list Z :=
  match fms with
  | [] => []
  | (nodes, tris) :: rest =>
      map (fun c => offset + c) (flat_map corners tris)
      ++ offset_triangles (offset + Z.of_nat (length nodes)) rest
  end.

(** The same indices as the loop computes them, in [int] arithmetic, from
    the number [nfloats] of coordinates stored before the first face. *)
Fixpoint emitted_triangles (nfloats : nat) (fms : list (list gp_Pnt * list (Z * Z * Z)))
    : list Z :=
  match fms with
  | [] => []
  | (nodes, tris) :: rest =>
      flat_map (emit_triangle (to_int (Z.of_nat nfloats / 3))) tris
      ++ emitted_triangles (nfloats + 3 * length nodes) rest
  end.

(** Every corner of every triangle of a face names a node of that face. *)
Definition corners_in_range (fm : list gp_Pnt * list (Z * Z * Z)) : Prop :=
  Forall (fun c => 0 <= c < Z.of_nat (length (fst fm))) (flat_map corners (snd fm)).

(** The facet normal of a triangle: the cross product of the edge vectors
    from its first corner to the second and to the third. *)
Definition facet_normal (nodes : list gp_Pnt) (t : Z * Z * Z) : gp_Vec :=
  let node c := nth (Z.to_nat c) nodes (mk_gp_Pnt 0 0 0) in
  match corners t with
  | [c1; c2; c3] =>
      Crossed (gp_Vec_of_points (node c1) (node c2)) (gp_Vec_of_points (node c1) (node c3))
  | _ => mk_gp_Vec 0 0 0
  end.

(** The facet normals of the triangles adjacent to node [i], in the order
    of the triangles, once for each corner that is [i]. *)
Definition incident (nodes : list gp_Pnt) (tris : list (Z * Z * Z)) (i : nat)
    : list gp_Vec :=
  flat_map (fun t => map (fun _ => facet_normal nodes t)
                         (List.filter (fun c => c =? Z.of_nat i) (corners t)))
           tris.

(** Their sum, starting from the zero vector. *)
Definition vertex_sum (nodes : list gp_Pnt) (tris : list (Z * Z * Z)) (i : nat) : gp_Vec :=
  fold_left Added (incident nodes tris i) (mk_gp_Vec 0 0 0).

(** The normal stored for an accumulated sum: its normalization when its
    magnitude exceeds 1e-7, the sum itself otherwise. *)
Definition emitted_normal (sum n : gp_Vec) : Prop :=
  if (tol_1e7 <? Magnitude sum)%float then Normalized sum = KOk n else n = sum.

(** The normals of one face: one per node, each from the sum at that node. *)
Definition face_normals (fm : list gp_Pnt * list (Z * Z * Z)) (ns : list gp_Vec) : Prop :=
  Forall2 emitted_normal (map (vertex_sum (fst fm) (snd fm)) (seq 0 (length (fst fm)))) ns.

(** A vector of doubles of length 1 within 1e-6, in exact arithmetic. *)
Definition unit_double (n : gp_Vec) : bool :=
  unit_within 1000000 (Prim2SF (Vec_X n)) (Prim2SF (Vec_Y n)) (Prim2SF (Vec_Z n)).

(** Three stored floats of magnitude 1 within 1e-5, in exact arithmetic. *)
Definition unit_stored (xyz : list float32) : bool :=
  match xyz with
  | [x; y; z] => unit_within 100000 x y z
  | _ => false
  end.

(** Every triple of an array of stored normals has magnitude 1 within
    1e-5. *)
Fixpoint all_unit_stored (l : list float32) : bool :=
  match l with
  | [] => true
  | x :: y :: z :: rest => unit_within 100000 x y z && all_unit_stored rest
  | _ => false
  end.

(** The length of the normal [n] emitted for an accumulated sum: when the
    magnitude of the sum exceeds 1e-7 and the kernel's normalization of
    the sum has length 1 within 1e-6, the three floats stored for [n] have
    magnitude 1 within 1e-5. *)
Definition emitted_unit (sum n : gp_Vec) : Prop :=
  forall n', (tol_1e7 <? Magnitude sum)%float = true ->
             Normalized sum = KOk n' -> unit_double n' = true ->
             unit_stored (push_Vec n) = true.

(** The lengths of the normals of one face. *)
Definition face_unit_normals (fm : list gp_Pnt * list (Z * Z * Z)) (ns : list gp_Vec)
    : Prop :=
  Forall2 emitted_unit (map (vertex_sum (fst fm) (snd fm)) (seq 0 (length (fst fm)))) ns.

(** Magnitude of a stored normal, computed in double precision. *)
Definition magnitude32 (x y z : float32) : double :=
  let dx := float32_to_double x in
  let dy := float32_to_double y in
  let dz := float32_to_double z in
  PrimFloat.sqrt (dx * dx + dy * dy + dz * dz)%float.

End Vocabulary.

(** ** The rest of the wrapper

    The functions below use kernel classes beyond those of [Kernel]; they
    are gathered in [KernelExt].  [OCCT_Ax2_Create], [OCCT_Ax2_Delete] and
    [OCCT_Revolve_Wire] work on axis handles, for which the heap above has
    no kind of object; they are not embedded. *)
Class KernelExt (K : Kernel) : Type := {
  gp_Ax2 : Type;
  (* [gp_Ax2 (P, V)] *)
  gp_Ax2_ctor : gp_Pnt -> gp_Dir -> kres gp_Ax2;
  (* the checked casts [TopoDS::Wire] and [TopoDS::Face] *)
  TopoDS_Wire_cast : TopoDS_Shape -> kres TopoDS_Shape;
  TopoDS_Face_cast : TopoDS_Shape -> kres TopoDS_Shape;
  (* [BRepBuilderAPI_MakeFace (wire, OnlyPlane)] *)
  BRepBuilderAPI_MakeFace : TopoDS_Shape -> bool -> kres MakeShape;
  BRepPrimAPI_MakePrism : TopoDS_Shape -> gp_Vec -> kres MakeShape;
  (* the constructors of primitives placed in space *)
  BRepPrimAPI_MakeBox_corners : gp_Pnt -> gp_Pnt -> kres MakeShape;
  BRepPrimAPI_MakeCylinder_axis : gp_Ax2 -> double -> double -> kres MakeShape;
  BRepPrimAPI_MakeSphere_center : gp_Pnt -> double -> kres MakeShape
}.

Section Facade_Rest.
Context {K : Kernel} {KX : KernelExt K}.

(** A kernel algorithm outside [kcall]: its outcome, without a record. *)
Definition algorithm {A} (r : kres A) : M A := lift (of_kres r).

(** [delete p] for a pointer to an object of the kind that [is_kind]
    recognizes; anything else (a dangling pointer, an object of another
    kind) is undefined behaviour. *)
Definition delete_as (is_kind : object -> bool) (p : N) : M unit := fun w =>
  match heap w !! p with
  | Some o =>
      if is_kind o then (Val tt, mk_world (delete p (heap w)) (calls w))
      else (Undefined, w)
  | None => (Undefined, w)
  end.

Definition is_Shape (o : object) : bool := match o with Obj_Shape _ => true | _ => false end.
Definition is_Pnt (o : object) : bool := match o with Obj_Pnt _ => true | _ => false end.
Definition is_Vec (o : object) : bool := match o with Obj_Vec _ => true | _ => false end.
Definition is_Dir (o : object) : bool := match o with Obj_Dir _ => true | _ => false end.
Definition is_Mesh (o : object) : bool := match o with Obj_Mesh _ => true | _ => false end.

Definition read_Pnt (p : N) : M gp_Pnt := fun w =>
  match heap w !! p with
  | Some (Obj_Pnt v) => (Val v, w)
  | _ => (Undefined, w)
  end.

Definition read_Dir (p : N) : M gp_Dir := fun w =>
  match heap w !! p with
  | Some (Obj_Dir v) => (Val v, w)
  | _ => (Undefined, w)
  end.

(** *** Releasing *)

Definition OCCT_Shape_Delete (shape : OCCT_Shape) : M unit :=
  if (shape =? 0)%N then ret tt else delete_as is_Shape (toShape shape).

Definition OCCT_Pnt_Delete (pnt : OCCT_Pnt) : M unit :=
  if (pnt =? 0)%N then ret tt else delete_as is_Pnt pnt.

Definition OCCT_Vec_Delete (vec : OCCT_Vec) : M unit :=
  if (vec =? 0)%N then ret tt else delete_as is_Vec vec.

Definition OCCT_Dir_Delete (dir : OCCT_Dir) : M unit :=
  if (dir =? 0)%N then ret tt else delete_as is_Dir dir.

Definition OCCT_Wire_Delete (wire : OCCT_Wire) : M unit :=
  OCCT_Shape_Delete wire.

(** The three arrays go with the structure. *)
Definition OCCT_Mesh_Delete (mesh : N) : M unit :=
  if (mesh =? 0)%N then ret tt else delete_as is_Mesh mesh.

(** [shape.ShapeType()] on a local [TopoDS_Shape]: a call through the
    handle inside the shape, which an empty shape does not have. *)
Definition ShapeType_of (v : TopoDS_Shape) : M TopAbs_ShapeEnum :=
  if IsNull v then lift Undefined else ret (ShapeType v).

(** *** Extrusion

    The traces written to [std::cerr] are left out; the read of the
    result's type that feeds one of them is not. *)

Definition OCCT_Extrude_Wire (wire : OCCT_Wire) (vx vy vz : double) : M OCCT_Shape :=
  if (wire =? 0)%N then ret nullptr else
  try_catch
    (let wireShape := toShape wire in
     v <- read_Shape wireShape;;
     if IsNull v then ret nullptr else
     topoWire <- inline (TopoDS_Wire_cast v);;
     (* create face from wire, planar *)
     faceBuilder <- algorithm (BRepBuilderAPI_MakeFace topoWire true);;
     if negb (IsDone faceBuilder) then ret nullptr else
     face <- inline (Shape faceBuilder);;
     (* extrude face along vector *)
     let extrudeVec := mk_gp_Vec vx vy vz in
     prismBuilder <- algorithm (BRepPrimAPI_MakePrism face extrudeVec);;
     if negb (IsDone prismBuilder) then ret nullptr else
     result <- inline (Shape prismBuilder);;
     (* check result type, for the trace *)
     resultType <- ShapeType_of result;;
     shape <- new (Obj_Shape result);;
     ret (fromShape shape))
    (fun _ => ret nullptr).

Definition OCCT_Extrude_Face (face : N) (vx vy vz : double) : M OCCT_Shape :=
  if (face =? 0)%N then ret nullptr else
  try_catch
    (let faceShape := toShape face in
     v <- read_Shape faceShape;;
     if IsNull v then ret nullptr else
     topoFace <- inline (TopoDS_Face_cast v);;
     let extrudeVec := mk_gp_Vec vx vy vz in
     prismBuilder <- algorithm (BRepPrimAPI_MakePrism topoFace extrudeVec);;
     if negb (IsDone prismBuilder) then ret nullptr else
     result <- inline (Shape prismBuilder);;
     shape <- new (Obj_Shape result);;
     ret (fromShape shape))
    (fun _ => ret nullptr).

(** *** Primitives placed in space

    Unlike [OCCT_Primitive_Box], [OCCT_Primitive_Cylinder] and
    [OCCT_Primitive_Sphere], these three test [IsDone] right after the
    constructor, with no call of [Build]. *)

Definition OCCT_Primitive_Box_TwoCorners (x1 y1 z1 x2 y2 z2 : double) : M OCCT_Shape :=
  try_catch
    (let p1 := mk_gp_Pnt x1 y1 z1 in
     let p2 := mk_gp_Pnt x2 y2 z2 in
     boxMaker <- algorithm (BRepPrimAPI_MakeBox_corners p1 p2);;
     if negb (IsDone boxMaker) then ret nullptr else
     box <- inline (Shape boxMaker);;
     shape <- new (Obj_Shape box);;
     ret (fromShape shape))
    (fun _ => ret nullptr).

Definition OCCT_Primitive_Cylinder_Axis (base : OCCT_Pnt) (axis : OCCT_Dir)
    (radius height : double) : M OCCT_Shape :=
  if (base =? 0)%N || (axis =? 0)%N || (radius <=? 0)%float || (height <=? 0)%float
  then ret nullptr else
  try_catch
    (b <- read_Pnt base;;
     a <- read_Dir axis;;
     ax <- inline (gp_Ax2_ctor b a);;
     cylMaker <- algorithm (BRepPrimAPI_MakeCylinder_axis ax radius height);;
     if negb (IsDone cylMaker) then ret nullptr else
     cylinder <- inline (Shape cylMaker);;
     shape <- new (Obj_Shape cylinder);;
     ret (fromShape shape))
    (fun _ => ret nullptr).

Definition OCCT_Primitive_Sphere_Center (center : OCCT_Pnt) (radius : double)
    : M OCCT_Shape :=
  if (center =? 0)%N || (radius <=? 0)%float then ret nullptr else
  try_catch
    (c <- read_Pnt center;;
     sphereMaker <- algorithm (BRepPrimAPI_MakeSphere_center c radius);;
     if negb (IsDone sphereMaker) then ret nullptr else
     sphere <- inline (Shape sphereMaker);;
     shape <- new (Obj_Shape sphere);;
     ret (fromShape shape))
    (fun _ => ret nullptr).

(** *** Vocabulary *)

(** The two ways a factory of shapes may end: a null result and the heap
    as it was, or a non-null result at an address that was free, the heap
    being extended by one shape there. *)
Definition null_or_fresh (w w' : world) (r : N) : Prop :=
  (r = nullptr /\ heap w' = heap w) \/
  (r <> nullptr /\ heap w !! r = None /\
   exists s, heap w' = <[r := Obj_Shape s]> (heap w)).

(** What a factory of shapes is allowed to do: let no exception out, and,
    when it returns, end in one of the two ways above. *)
Definition factory_outcome (m : M OCCT_Shape) (w : world) : Prop :=
  match m w with
  | (Val r, w') => null_or_fresh w w' r
  | (Throw _, _) => False
  | (Undefined, _) => True
  end.

(** What is left of an object after a call that hands shapes of the heap
    to the kernel: a shape is still a shape, with whatever the kernel left
    in it or in the data it shares with others; anything else is as it
    was. *)
Definition survives (o o' : object) : Prop :=
  match o with
  | Obj_Shape _ => exists v, o' = Obj_Shape v
  | _ => o' = o
  end.

(** No object of [h] is released on the way to [h']. *)
Definition nothing_lost (h h' : gmap N object) : Prop :=
  forall a o, h !! a = Some o -> exists o', h' !! a = Some o' /\ survives o o'.

(** No address other than [r] comes into use on the way to [h']. *)
Definition nothing_new_but (r : N) (h h' : gmap N object) : Prop :=
  forall a, h !! a = None -> a <> r -> h' !! a = None.

(** What a factory that hands shapes of the heap to the kernel is sure to
    do: let no exception out and, when it returns, release nothing, leave
    every object that is not a shape as it was, and bring into use at
    most one address, the non-null result, which then holds a shape. *)
Definition careful_outcome (m : M OCCT_Shape) (w : world) : Prop :=
  match m w with
  | (Val r, w') =>
      nothing_lost (heap w) (heap w') /\
      nothing_new_but r (heap w) (heap w') /\
      (r = nullptr \/
       (heap w !! r = None /\ exists s, heap w' !! r = Some (Obj_Shape s)))
  | (Throw _, _) => False
  | (Undefined, _) => True
  end.

Definition is_MakeEdge (c : kcall) : bool :=
  match c with Call_MakeEdge _ _ => true | _ => false end.

(** The number of edge requests in a record of kernel requests. *)
Definition edge_requests (l : list kcall) : nat := length (List.filter is_MakeEdge l).

(** The kernel's builders of placed primitives are not done before
    [Build] is called. *)
Definition lazy_builders : Prop :=
  (forall p q maker, BRepPrimAPI_MakeBox_corners p q = KOk maker -> IsDone maker = false) /\
  (forall ax r h maker,
     BRepPrimAPI_MakeCylinder_axis ax r h = KOk maker -> IsDone maker = false) /\
  (forall c r maker, BRepPrimAPI_MakeSphere_center c r = KOk maker -> IsDone maker = false).

(** The planar face that the kernel builds on the wire held by a shape. *)
Definition planar_face_of (v f : TopoDS_Shape) : Prop :=
  exists topoWire faceBuilder,
    TopoDS_Wire_cast v = KOk topoWire /\
    BRepBuilderAPI_MakeFace topoWire true = KOk faceBuilder /\
    IsDone faceBuilder = true /\ Shape faceBuilder = KOk f.

(** The shape that the kernel's prism builder hands out for a face and a
    vector, when it is done and hands one out. *)
Definition prism_of (f : TopoDS_Shape) (v : gp_Vec) : option TopoDS_Shape :=
  match BRepPrimAPI_MakePrism f v with
  | KOk prismBuilder =>
      if IsDone prismBuilder
      then match Shape prismBuilder with KOk result => Some result | KRaise _ => None end
      else None
  | KRaise _ => None
  end.

(** A double that is positive, or not a number. *)
Definition positive_or_nan (x : double) : Prop :=
  (0 <? x)%float = true \/ is_nan x = true.

End Facade_Rest.

(** ** More of the reference kernel *)
Module RefExt.

Definition wire_cast (s : Ref.shape) : kres Ref.shape :=
  match s with
  | Ref.Node TopAbs_WIRE _ _ _ => KOk s
  | _ => KRaise Standard_Failure
  end.

Definition face_cast (s : Ref.shape) : kres Ref.shape :=
  match s with
  | Ref.Node TopAbs_FACE _ _ _ => KOk s
  | _ => KRaise Standard_Failure
  end.

Definition first_point (e : Ref.shape) : list gp_Pnt :=
  match e with
  | Ref.Node TopAbs_EDGE (p :: _) _ _ => [p]
  | _ => []
  end.

(** A face from a wire: the polygon of the first points of its edges; at
    least three edges are needed. *)
Definition make_face (w : Ref.shape) (planar : bool) : Ref.maker :=
  match w with
  | Ref.Node TopAbs_WIRE _ _ edges =>
      Ref.mk_maker (3 <=? length edges)%nat (Ref.face_of (flat_map first_point edges))
  | _ => Ref.mk_maker false Ref.Null
  end.

Definition moved (v : gp_Vec) (p : gp_Pnt) : gp_Pnt :=
  mk_gp_Pnt (Pnt_X p + Vec_X v) (Pnt_Y p + Vec_Y v) (Pnt_Z p + Vec_Z v)%float.

Definition face_points (f : Ref.shape) : list gp_Pnt :=
  match f with
  | Ref.Node _ pts _ _ => pts
  | Ref.Null => []
  end.

(** A prism: the face, the moved face, and one side per edge of the face. *)
Definition make_prism (f : Ref.shape) (v : gp_Vec) : Ref.maker :=
  let pts := face_points f in
  let next := tail pts ++ firstn 1 pts in
  Ref.mk_maker true
    (Ref.solid_of
       (Ref.face_of pts :: Ref.face_of (map (moved v) pts)
        :: map (fun pq => Ref.face_of [fst pq; snd pq; moved v (snd pq); moved v (fst pq)])
               (zip pts next))).

(** The box between two corners. *)
Definition box_between (p q : gp_Pnt) : Ref.shape :=
  let d := mk_gp_Vec (Pnt_X q - Pnt_X p) (Pnt_Y q - Pnt_Y p) (Pnt_Z q - Pnt_Z p)%float in
  let to_p c := moved (mk_gp_Vec (Pnt_X p) (Pnt_Y p) (Pnt_Z p)) c in
  match Ref.box_shape (Vec_X d) (Vec_Y d) (Vec_Z d) with
  | Ref.Node k pts tri fs =>
      Ref.Node k pts tri (map (fun f => Ref.face_of (map to_p (face_points f))) fs)
  | Ref.Null => Ref.Null
  end.

(** A checker that raises on a compound without sub-shapes. *)
Definition strict_check (s : Ref.shape) : kres bool :=
  match s with
  | Ref.Node TopAbs_COMPOUND _ _ [] => KRaise Standard_NullObject
  | _ => KOk true
  end.

End RefExt.

(** As in [RefKernel], the builders of primitives are not done before
    [Build] is called. *)
#[global] Instance RefKernelExt : KernelExt RefKernel := {|
  gp_Ax2 := gp_Pnt * gp_Dir;
  gp_Ax2_ctor := fun p d => KOk (p, d);
  TopoDS_Wire_cast := RefExt.wire_cast;
  TopoDS_Face_cast := RefExt.face_cast;
  BRepBuilderAPI_MakeFace := fun w planar => KOk (RefExt.make_face w planar);
  BRepPrimAPI_MakePrism := fun f v => KOk (RefExt.make_prism f v);
  BRepPrimAPI_MakeBox_corners := fun p q => KOk (Ref.mk_maker false (RefExt.box_between p q));
  BRepPrimAPI_MakeCylinder_axis := fun _ _ _ => KOk (Ref.mk_maker false Ref.round_shape);
  BRepPrimAPI_MakeSphere_center := fun _ _ => KOk (Ref.mk_maker false Ref.round_shape)
|}.

(** The reference kernel with the checker that raises. *)
Definition StrictKernel : Kernel := {|
  TopoDS_Shape := Ref.shape;
  IsNull := Ref.is_null;
  ShapeType := Ref.shape_type;
  gp_Trsf := unit;
  gp_Dir_ctor := Ref.dir_ctor;
  Distance := Ref.distance;
  Transformed := fun p _ => p;
  gp_Vec_of_points := Ref.vec_of_points;
  Crossed := Ref.crossed;
  Added := Ref.added;
  Magnitude := Ref.magnitude;
  Normalized := Ref.normalized;
  MakeShape := Ref.maker;
  Build := fun m => KOk (Ref.mk_maker true (Ref.maker_shape m));
  IsDone := Ref.maker_done;
  Shape := Ref.maker_Shape;
  BRepPrimAPI_MakeBox := fun dx dy dz => KOk (Ref.mk_maker false (Ref.box_shape dx dy dz));
  BRepPrimAPI_MakeCylinder := fun _ _ => KOk (Ref.mk_maker false Ref.round_shape);
  BRepPrimAPI_MakeSphere := fun _ => KOk (Ref.mk_maker false Ref.round_shape);
  BRepPrimAPI_MakeCone := fun _ _ _ => KOk (Ref.mk_maker false Ref.round_shape);
  BRepPrimAPI_MakeTorus := fun _ _ => KOk (Ref.mk_maker false Ref.round_shape);
  BRepAlgoAPI_Fuse := Ref.fuse;
  BRepAlgoAPI_Cut := Ref.cut;
  BRepAlgoAPI_Common := Ref.common;
  BRepBuilderAPI_MakeEdge := fun p q => KOk (Ref.make_edge p q);
  MakeWire := Ref.wire_builder;
  BRepBuilderAPI_MakeWire := Ref.mk_wire_builder [] [] false;
  Add := Ref.wire_add;
  Wire_IsDone := Ref.wb_done;
  Wire := Ref.wire_Wire;
  BRepCheck_Analyzer_IsValid := RefExt.strict_check;
  BRepMesh_IncrementalMesh := Ref.incremental_mesh;
  TopExp_Faces := Ref.faces;
  BRep_Tool_Triangulation := Ref.triangulation
|}.

(** On the strict kernel: two boxes built, then their intersection, which
    this kernel makes an empty compound; it sits at the address 3. *)
Definition world_strict : world (K := StrictKernel) :=
  snd ((a <- OCCT_Primitive_Box 1 1 1;;
        b <- OCCT_Primitive_Box 2 2 2;;
        OCCT_Boolean_Intersection a b) (mk_world ∅ [])).

(** ** A kernel with tolerances

    The reference kernel again, its shapes now carrying the tolerance of
    their sub-shapes, counted in units of 1e-7.  Its Boolean algorithms
    work in the mode that is the kernel's default, in which the arguments
    are not protected: the tolerance of their sub-shapes may be raised.
    Here both arguments are left with the sum of the two tolerances. *)
Module Tol.

Definition shape : Type := Ref.shape * Z.

(** [Precision::Confusion()], the tolerance of a newly built shape. *)
Definition confusion : Z := 1.

Definition maker_Shape (m : Ref.maker) : kres shape :=
  match Ref.maker_Shape m with
  | KOk s => KOk (s, confusion)
  | KRaise e => KRaise e
  end.

Definition loosened (a b : shape) : shape * shape :=
  ((fst a, snd a + snd b), (fst b, snd a + snd b)).

Definition fuse (a b : shape) : kres Ref.maker * (shape * shape) :=
  (fst (Ref.fuse (fst a) (fst b)), loosened a b).

Definition cut (a b : shape) : kres Ref.maker * (shape * shape) :=
  (fst (Ref.cut (fst a) (fst b)), loosened a b).

Definition common (a b : shape) : kres Ref.maker * (shape * shape) :=
  (fst (Ref.common (fst a) (fst b)), loosened a b).

Definition wire_Wire (w : Ref.wire_builder) : kres shape :=
  match Ref.wire_Wire w with
  | KOk s => KOk (s, confusion)
  | KRaise e => KRaise e
  end.

Definition incremental_mesh (s : shape) (lin : double) (rel : bool) (ang : double)
    : kres (bool * shape) :=
  match Ref.incremental_mesh (fst s) lin rel ang with
  | KOk (done, s') => KOk (done, (s', snd s))
  | KRaise e => KRaise e
  end.

End Tol.



(** A unit square, closed. *)
Definition square_polyline : list (double * double) :=
  [(0, 0); (1, 0); (1, 1); (0, 1)]%float.

(** The state after the unit square was made a wire: it sits at the
    address 1. *)
Definition world_square_wire : world (K := RefKernel) :=
  snd (OCCT_Wire_FromPoints2D (Some (coords2D square_polyline)) 4 true world0).

(** The state [world_square_wire] with, at the address 2, the planar face
    that the kernel builds on the square. *)
Definition world_square_face : world (K := RefKernel) :=
  mk_world
    (<[2%N := Obj_Shape (Ref.face_of (map on_XY square_polyline))]>
       (heap world_square_wire))
    (calls world_square_wire).

(** The state after a point and a direction were created: the origin
    sits at the address 1, the direction of Z at the address 2. *)
Definition world_axis : world (K := RefKernel) :=
  snd ((_ <- OCCT_Pnt_Create 0 0 0;; OCCT_Dir_Create 0 0 1) world0).

(** * Properties *)

(** ** Order on doubles *)

Lemma SFcompare_swap (a b : spec_float) :
  SFcompare b a = option_map CompOpp (SFcompare a b).
Proof.
  destruct a as [sa|sa| |sa ma ea], b as [sb|sb| |sb mb eb]; simpl;
    try reflexivity; try (destruct sa; reflexivity); try (destruct sb; reflexivity);
    try (destruct sa, sb; reflexivity).
  destruct sa, sb; simpl; try reflexivity;
    rewrite (Z.compare_antisym ea eb); destruct (ea ?= eb)%Z; simpl; try reflexivity;
    change (Pos.compare_cont Eq ma mb) with (ma ?= mb)%positive;
    change (Pos.compare_cont Eq mb ma) with (mb ?= ma)%positive;
    rewrite (Pos.compare_antisym ma mb); destruct (ma ?= mb)%positive; reflexivity.
Qed.

Lemma ltb_leb_false (x y : double) :
  (x <? y)%float = true -> (y <=? x)%float = false.
Proof.
  rewrite FloatAxioms.ltb_spec, FloatAxioms.leb_spec. unfold SFltb, SFleb.
  rewrite (SFcompare_swap (Prim2SF x) (Prim2SF y)).
  destruct (SFcompare (Prim2SF x) (Prim2SF y)) as [[]|]; simpl; congruence.
Qed.

Lemma ltb_ltb_false (x y : double) :
  (x <? y)%float = true -> (y <? x)%float = false.
Proof.
  rewrite !FloatAxioms.ltb_spec. unfold SFltb.
  rewrite (SFcompare_swap (Prim2SF x) (Prim2SF y)).
  destruct (SFcompare (Prim2SF x) (Prim2SF y)) as [[]|]; simpl; congruence.
Qed.

Lemma ltb_eqb_false (x y : double) :
  (x <? y)%float = true -> (y =? x)%float = false.
Proof.
  rewrite FloatAxioms.ltb_spec, FloatAxioms.eqb_spec. unfold SFltb, SFeqb.
  rewrite (SFcompare_swap (Prim2SF x) (Prim2SF y)).
  destruct (SFcompare (Prim2SF x) (Prim2SF y)) as [[]|]; simpl; congruence.
Qed.

Lemma eqb_ltb_false (x y : double) :
  (x =? y)%float = true -> (x <? y)%float = false.
Proof.
  rewrite FloatAxioms.ltb_spec, FloatAxioms.eqb_spec. unfold SFltb, SFeqb.
  destruct (SFcompare (Prim2SF x) (Prim2SF y)) as [[]|]; simpl; congruence.
Qed.

(** ** Conversion to single precision

    [static_cast<float>] of a double of magnitude below 2 moves it by at
    most 2^-21: the shift to a mantissa of 24 bits loses less than one
    unit of the last place, and so does the shift after a carry. *)

Lemma digits2_pos_le (m : positive) : 2 ^ Zpos (digits2_pos m) <= 2 * Zpos m.
Proof.
  induction m as [m IH|m IH|]; simpl digits2_pos.
  - rewrite Pos2Z.inj_succ, Z.pow_succ_r by lia. lia.
  - rewrite Pos2Z.inj_succ, Z.pow_succ_r by lia. lia.
  - reflexivity.
Qed.

Lemma shr_1_m (mrs : shr_record) :
  0 <= shr_m mrs -> shr_m (shr_1 mrs) = shr_m mrs / 2 /\ 0 <= shr_m (shr_1 mrs).
Proof.
  destruct mrs as [m r s]. intros Hm. cbn [shr_m] in Hm.
  destruct m as [|[p|p|]|p]; cbn [shr_1 shr_m]; try lia.
  - split; [reflexivity|lia].
  - split; [|lia]. apply Z.div_unique with (r := 1); lia.
  - split; [|lia]. apply Z.div_unique with (r := 0); lia.
  - split; [reflexivity|lia].
Qed.

Lemma pow2_double (p : positive) : 2 ^ Zpos p * 2 ^ Zpos p = 2 ^ Zpos p~0.
Proof. rewrite <- Z.pow_add_r by lia. f_equal. lia. Qed.

Lemma iter_shr_1_m (p : positive) : forall mrs : shr_record,
  0 <= shr_m mrs ->
  shr_m (SpecFloat.iter_pos shr_1 p mrs) = shr_m mrs / 2 ^ Zpos p /\
  0 <= shr_m (SpecFloat.iter_pos shr_1 p mrs).
Proof.
  induction p as [p IH|p IH|]; intros mrs Hm; cbn [SpecFloat.iter_pos].
  - destruct (shr_1_m mrs Hm) as [E1 P1].
    destruct (IH _ P1) as [E2 P2]. destruct (IH _ P2) as [E3 P3].
    split; [|exact P3]. rewrite E3, E2, E1.
    assert (0 < 2 ^ Zpos p) by (apply Z.pow_pos_nonneg; lia).
    rewrite !Z.div_div by lia. f_equal.
    rewrite <- ?Z.mul_assoc, pow2_double.
    change (Zpos p~1) with (Z.succ (Zpos p~0)). rewrite Z.pow_succ_r by lia. reflexivity.
  - destruct (IH _ Hm) as [E2 P2]. destruct (IH _ P2) as [E3 P3].
    split; [|exact P3]. rewrite E3, E2.
    assert (0 < 2 ^ Zpos p) by (apply Z.pow_pos_nonneg; lia).
    rewrite !Z.div_div by lia. f_equal. apply pow2_double.
  - change (2 ^ 1) with 2. apply shr_1_m. exact Hm.
Qed.

(** A right shift keeps the mantissa non-negative, divides it by the
    power of two of the shift, and adds the shift to the exponent; a shift
    that is not positive changes nothing. *)
Lemma shr_spec (m e n : Z) (l : location) :
  0 <= m ->
  (n <= 0 /\ shr (shr_record_of_loc m l) e n = (shr_record_of_loc m l, e)) \/
  (0 < n /\ exists mrs, shr (shr_record_of_loc m l) e n = (mrs, e + n) /\
                        shr_m mrs = m / 2 ^ n /\ 0 <= shr_m mrs).
Proof.
  intros Hm. destruct n as [|p|p]; cbn [shr].
  - left. split; [lia|reflexivity].
  - right. split; [lia|]. eexists. split; [reflexivity|].
    assert (Hr : shr_m (shr_record_of_loc m l) = m) by (destruct l as [|[]]; reflexivity).
    rewrite <- Hr at 2. apply iter_shr_1_m. rewrite Hr. exact Hm.
  - left. split; [lia|reflexivity].
Qed.

Lemma round_nearest_even_range (m : Z) (l : location) :
  m <= round_nearest_even m l <= m + 1.
Proof.
  destruct l as [|[]]; cbn [round_nearest_even]; try lia.
  destruct (Z.even m); lia.
Qed.

(** Powers of two as units of 2^-1074. *)
Lemma unit_pos (e : Z) : -1074 <= e -> 0 < 2 ^ (e + 1074).
Proof. intros. apply Z.pow_pos_nonneg; lia. Qed.

Lemma unit_shift (e n : Z) :
  -1074 <= e -> 0 <= n -> 2 ^ (e + n + 1074) = 2 ^ n * 2 ^ (e + 1074).
Proof.
  intros. rewrite <- Z.pow_add_r by lia. f_equal. lia.
Qed.

Lemma unit_le (e1 e2 : Z) : -1074 <= e1 -> e1 <= e2 -> 2 ^ (e1 + 1074) <= 2 ^ (e2 + 1074).
Proof. intros. apply Z.pow_le_mono_r; lia. Qed.

(** The number of digits of a mantissa whose value is below [2 ^ b]. *)
Lemma digits_below (m : positive) (e b : Z) :
  -1074 <= e -> 0 <= b + 1074 ->
  Zpos m * 2 ^ (e + 1074) < 2 ^ (b + 1074) ->
  Zpos (digits2_pos m) + e <= b.
Proof.
  intros He Hb H. pose proof (digits2_pos_le m) as Hd.
  pose proof (unit_pos e He) as Hq.
  assert (Hlt : 2 ^ (Zpos (digits2_pos m) + (e + 1074)) < 2 ^ (b + 1 + 1074)).
  { rewrite Z.pow_add_r by lia.
    replace (b + 1 + 1074) with (Z.succ (b + 1074)) by lia.
    rewrite Z.pow_succ_r by lia. nia. }
  apply Z.pow_lt_mono_r_iff in Hlt; lia.
Qed.

(** Dropping the low [n] bits loses less than one unit of the new
    exponent. *)
Lemma truncation (a e n : Z) :
  0 <= a -> -1074 <= e -> 0 < n ->
  0 <= a * 2 ^ (e + 1074) - (a / 2 ^ n) * 2 ^ (e + n + 1074) < 2 ^ (e + n + 1074).
Proof.
  intros Ha He Hn. rewrite unit_shift by lia.
  pose proof (unit_pos e He) as Hq.
  assert (Hp : 0 < 2 ^ n) by (apply Z.pow_pos_nonneg; lia).
  pose proof (Z.div_mod a (2 ^ n) ltac:(lia)) as Hdm.
  pose proof (Z.mod_pos_bound a (2 ^ n) Hp) as Hr.
  set (q := 2 ^ (e + 1074)) in *. set (p := 2 ^ n) in *.
  set (d := a / p) in *. set (r := a mod p) in *. nia.
Qed.

Lemma fexp32 (t : Z) : fexp 24 128 t = Z.max (t - 24) (-149).
Proof. reflexivity. Qed.

(** First step of the rounding to binary32: the shift to 24 bits and the
    rounding of the mantissa.  The value moves by at most 2^-23. *)
Lemma round_first (mz : positive) (ez : Z) (mrs' : shr_record) (e' : Z) :
  -1074 <= ez ->
  Zpos mz * 2 ^ (ez + 1074) < 2 ^ 1075 ->
  shr_fexp 24 128 (Zpos mz) ez loc_Exact = (mrs', e') ->
  let m2 := round_nearest_even (shr_m mrs') (loc_of_shr_record mrs') in
  0 <= m2 /\ ez <= e' /\ e' <= 0 /\
  Z.abs (m2 * 2 ^ (e' + 1074) - Zpos mz * 2 ^ (ez + 1074)) <= 2 ^ 1051.
Proof.
  intros He Hlt Hshr m2. subst m2.
  pose proof (unit_pos ez He) as Hq.
  assert (Hez : ez <= 0).
  { assert (2 ^ (ez + 1074) < 2 ^ 1075) by nia.
    apply Z.pow_lt_mono_r_iff in H; lia. }
  pose proof (digits_below mz ez 1 He ltac:(lia) Hlt) as Hd.
  unfold shr_fexp in Hshr. cbn [Zdigits2] in Hshr. rewrite fexp32 in Hshr.
  set (n := Z.max (Zpos (digits2_pos mz) + ez - 24) (-149) - ez) in *.
  destruct (shr_spec (Zpos mz) ez n loc_Exact ltac:(lia))
    as [[Hn E]|(Hn & mrs & E & Hm & Hpos)]; rewrite E in Hshr; injection Hshr as <- <-.
  - cbn [shr_record_of_loc loc_of_shr_record shr_m round_nearest_even].
    rewrite Z.sub_diag. cbn [Z.abs]. lia.
  - pose proof (round_nearest_even_range (shr_m mrs) (loc_of_shr_record mrs)) as Hr.
    set (m2 := round_nearest_even (shr_m mrs) (loc_of_shr_record mrs)) in *.
    pose proof (truncation (Zpos mz) ez n ltac:(lia) He Hn) as Ht.
    rewrite <- Hm in Ht.
    assert (He' : ez + n <= -23) by lia.
    assert (Hu : 2 ^ (ez + n + 1074) <= 2 ^ 1051).
    { apply Z.pow_le_mono_r; lia. }
    pose proof (unit_pos (ez + n) ltac:(lia)) as Hq'.
    set (q' := 2 ^ (ez + n + 1074)) in *. set (X := Zpos mz * 2 ^ (ez + 1074)) in *.
    set (T := 2 ^ 1051) in *.
    split; [lia|]. split; [lia|]. split; [lia|].
    apply Z.abs_le. nia.
Qed.

(** Second step: the shift that brings a mantissa of 25 bits back to 24.
    The value moves by less than 2^-22. *)
Lemma round_second (m2 e' : Z) (mrs'' : shr_record) (e'' : Z) :
  0 <= m2 -> -1074 <= e' -> e' <= 0 ->
  m2 * 2 ^ (e' + 1074) < 2 ^ 1076 ->
  shr_fexp 24 128 m2 e' loc_Exact = (mrs'', e'') ->
  0 <= shr_m mrs'' /\ e' <= e'' /\ e'' <= 0 /\
  Z.abs (shr_m mrs'' * 2 ^ (e'' + 1074) - m2 * 2 ^ (e' + 1074)) <= 2 ^ 1052.
Proof.
  intros Hm2 He He0 Hlt Hshr.
  pose proof (unit_pos e' He) as Hq.
  unfold shr_fexp in Hshr. rewrite fexp32 in Hshr.
  set (n := Z.max (Zdigits2 m2 + e' - 24) (-149) - e') in *.
  destruct (shr_spec m2 e' n loc_Exact Hm2)
    as [[Hn E]|(Hn & mrs & E & Hm & Hpos)]; rewrite E in Hshr; injection Hshr as <- <-.
  - cbn [shr_record_of_loc shr_m]. rewrite Z.sub_diag. cbn [Z.abs]. lia.
  - assert (Hd : Zdigits2 m2 + e' <= 2).
    { destruct m2 as [|p|p]; cbn [Zdigits2]; [lia| |lia].
      apply digits_below; [lia|lia|exact Hlt]. }
    pose proof (truncation m2 e' n Hm2 He Hn) as Ht.
    rewrite <- Hm in Ht.
    assert (Hu : 2 ^ (e' + n + 1074) <= 2 ^ 1052).
    { apply Z.pow_le_mono_r; lia. }
    split; [lia|]. split; [lia|]. split; [lia|].
    apply Z.abs_le. lia.
Qed.

(** The conversion of a value below 2 to binary32 yields a finite value
    that differs from it by at most 2^-21. *)
Lemma binary_round_aux_error (s : bool) (mz : positive) (ez : Z) :
  -1074 <= ez ->
  Zpos mz * 2 ^ (ez + 1074) < 2 ^ 1075 ->
  exists F,
    exact_value (binary_round_aux 24 128 s (Zpos mz) ez loc_Exact) = Some (cond_Zopp s F) /\
    0 <= F /\ Z.abs (F - Zpos mz * 2 ^ (ez + 1074)) <= 2 ^ 1053.
Proof.
  intros He Hlt. unfold binary_round_aux.
  destruct (shr_fexp 24 128 (Zpos mz) ez loc_Exact) as [mrs' e'] eqn:E1.
  destruct (round_first mz ez mrs' e' He Hlt E1) as (Hm2 & He1 & He0 & Herr1).
  set (m2 := round_nearest_even (shr_m mrs') (loc_of_shr_record mrs')) in *.
  assert (Hlt2 : m2 * 2 ^ (e' + 1074) < 2 ^ 1076).
  { apply Z.abs_le in Herr1.
    assert (2 ^ 1051 < 2 ^ 1075) by (apply Z.pow_lt_mono_r; lia).
    assert (2 ^ 1076 = 2 * 2 ^ 1075) by (change 1076 with (Z.succ 1075); apply Z.pow_succ_r; lia).
    lia. }
  destruct (shr_fexp 24 128 m2 e' loc_Exact) as [mrs'' e''] eqn:E2.
  destruct (round_second m2 e' mrs'' e'' Hm2 ltac:(lia) He0 Hlt2 E2)
    as (Hm3 & He2 & He3 & Herr2).
  assert (Hsum : 2 ^ 1051 + 2 ^ 1052 <= 2 ^ 1053).
  { change 1053 with (Z.succ 1052). change 1052 with (Z.succ 1051) at 1 2.
    rewrite !Z.pow_succ_r by lia. assert (0 < 2 ^ 1051) by (apply Z.pow_pos_nonneg; lia).
    lia. }
  apply Z.abs_le in Herr1. apply Z.abs_le in Herr2.
  destruct (shr_m mrs'') as [|m3|m3] eqn:E3.
  - exists 0. cbn [exact_value]. split; [destruct s; reflexivity|]. split; [lia|].
    apply Z.abs_le. lia.
  - assert (Hfin : (e'' <=? 128 - 24) = true) by (apply Z.leb_le; lia).
    rewrite Hfin. exists (Zpos m3 * 2 ^ (e'' + 1074)). cbn [exact_value].
    assert (Hk : (-1074 <=? e'') = true) by (apply Z.leb_le; lia).
    rewrite Hk. split; [reflexivity|].
    split; [pose proof (unit_pos e'' ltac:(lia)); lia|].
    apply Z.abs_le. lia.
  - lia.
Qed.

Lemma shl_align_value (m : positive) (e e' : Z) :
  -1074 <= e -> -1074 <= e' ->
  -1074 <= snd (shl_align m e e') /\
  Zpos (fst (shl_align m e e')) * 2 ^ (snd (shl_align m e e') + 1074)
  = Zpos m * 2 ^ (e + 1074).
Proof.
  intros He He'. unfold shl_align.
  destruct (e' - e) as [|d|d] eqn:Hd; cbn [fst snd]; try (split; [lia|reflexivity]).
  split; [lia|].
  assert (Hm : Zpos (Pos.iter xO m d) = Zpos m * 2 ^ Zpos d).
  { rewrite <- Z.shiftl_mul_pow2 by lia. cbn [Z.shiftl].
    apply Pos.iter_swap_gen. intros a. reflexivity. }
  rewrite Hm, <- Z.mul_assoc, <- Z.pow_add_r by lia. do 2 f_equal. lia.
Qed.

(** [static_cast<float>] of a double below 2 in magnitude: a finite
    binary32 value within 2^-21 of it. *)
Lemma static_cast_float_error (d : float) (X : Z) :
  exact_value (Prim2SF d) = Some X -> Z.abs X < 2 ^ 1075 ->
  exists F, exact_value (static_cast_float d) = Some F /\ Z.abs (F - X) <= 2 ^ 1053.
Proof.
  unfold static_cast_float. intros HX Hlt.
  destruct (Prim2SF d) as [s|s| |s m e]; try discriminate.
  - exists 0. injection HX as <-. split; [reflexivity|]. cbn. lia.
  - cbn [exact_value] in HX. destruct (-1074 <=? e) eqn:He; [|discriminate].
    apply Z.leb_le in He. injection HX as <-.
    unfold binary_round.
    pose proof (shl_align_value m e (fexp 24 128 (Zpos (digits2_pos m) + e)) He
                  ltac:(rewrite fexp32; lia)) as [Hz Hv].
    destruct (shl_align m e _) as [mz ez]. cbn [fst snd] in Hz, Hv.
    pose proof (unit_pos e He) as Hq.
    assert (Hlt' : Zpos mz * 2 ^ (ez + 1074) < 2 ^ 1075).
    { rewrite Hv. destruct s; cbn [cond_Zopp] in Hlt; lia. }
    destruct (binary_round_aux_error s mz ez Hz Hlt') as (F & HF & HF0 & Herr).
    exists (cond_Zopp s F). split; [exact HF|]. rewrite Hv in Herr.
    destruct s; cbn [cond_Zopp] in *; lia.
Qed.

Lemma square_lt (x B : Z) : 0 <= B -> x * x < B * B -> Z.abs x < B.
Proof. intros HB H. apply Z.abs_lt. nia. Qed.

Lemma product_bound (A d M D : Z) :
  Z.abs A <= M -> Z.abs d <= D -> - (M * D) <= A * d <= M * D.
Proof.
  intros HA Hd. apply Z.abs_le. rewrite Z.abs_mul.
  apply Z.mul_le_mono_nonneg; auto using Z.abs_nonneg.
Qed.

(** Moving each coordinate of a vector of length about 1 by at most
    2^-21 moves the square of its length by less than 6e-6. *)
Lemma unit_algebra (D X Y Z0 FX FY FZ : Z) :
  0 < D ->
  999999 * 999999 * (2097152 * 2097152 * (D * D))
  <= 1000000 * 1000000 * (X * X + Y * Y + Z0 * Z0) ->
  1000000 * 1000000 * (X * X + Y * Y + Z0 * Z0)
  <= 1000001 * 1000001 * (2097152 * 2097152 * (D * D)) ->
  Z.abs X <= 2 * 2097152 * D -> Z.abs Y <= 2 * 2097152 * D ->
  Z.abs Z0 <= 2 * 2097152 * D ->
  Z.abs (FX - X) <= D -> Z.abs (FY - Y) <= D -> Z.abs (FZ - Z0) <= D ->
  99999 * 99999 * (2097152 * 2097152 * (D * D))
  <= 100000 * 100000 * (FX * FX + FY * FY + FZ * FZ)
  <= 100001 * 100001 * (2097152 * 2097152 * (D * D)).
Proof.
  intros HD Hlo Hhi BX BY BZ DX DY DZ.
  pose proof (product_bound X (FX - X) _ _ BX DX) as PX.
  pose proof (product_bound Y (FY - Y) _ _ BY DY) as PY.
  pose proof (product_bound Z0 (FZ - Z0) _ _ BZ DZ) as PZ.
  pose proof (product_bound (FX - X) (FX - X) _ _ DX DX) as QX.
  pose proof (product_bound (FY - Y) (FY - Y) _ _ DY DY) as QY.
  pose proof (product_bound (FZ - Z0) (FZ - Z0) _ _ DZ DZ) as QZ.
  replace (FX * FX) with (X * X + 2 * (X * (FX - X)) + (FX - X) * (FX - X)) by ring.
  replace (FY * FY) with (Y * Y + 2 * (Y * (FY - Y)) + (FY - Y) * (FY - Y)) by ring.
  replace (FZ * FZ) with (Z0 * Z0 + 2 * (Z0 * (FZ - Z0)) + (FZ - Z0) * (FZ - Z0)) by ring.
  replace (2 * 2097152 * D * D) with (4194304 * (D * D)) in * by ring.
  assert (HQ : 0 < D * D) by nia.
  generalize dependent (D * D). intros Q.
  generalize (X * X) (Y * Y) (Z0 * Z0) (X * (FX - X)) (Y * (FY - Y)) (Z0 * (FZ - Z0))
             ((FX - X) * (FX - X)) ((FY - Y) * (FY - Y)) ((FZ - Z0) * (FZ - Z0)).
  intros. lia.
Qed.

(** A double vector of length 1 within 1e-6 is stored in single precision
    with length 1 within 1e-5. *)
Lemma unit_within_cast (x y z : float) :
  unit_within 1000000 (Prim2SF x) (Prim2SF y) (Prim2SF z) = true ->
  unit_within 100000 (static_cast_float x) (static_cast_float y) (static_cast_float z)
  = true.
Proof.
  unfold unit_within.
  destruct (exact_value (Prim2SF x)) as [X|] eqn:EX; [|discriminate].
  destruct (exact_value (Prim2SF y)) as [Y|] eqn:EY; [|discriminate].
  destruct (exact_value (Prim2SF z)) as [Z0|] eqn:EZ; [|discriminate].
  cbv zeta. intros H. apply andb_true_iff in H as [Hlo Hhi].
  apply Z.leb_le in Hlo, Hhi.
  assert (HS : 2 ^ 1074 = 2097152 * 2 ^ 1053).
  { change 1074 with (21 + 1053). rewrite Z.pow_add_r by lia. reflexivity. }
  assert (HT : 2 ^ 1075 = 2 * (2097152 * 2 ^ 1053)).
  { change 1075 with (Z.succ 1074). rewrite Z.pow_succ_r, HS by lia. reflexivity. }
  assert (HD : 0 < 2 ^ 1053) by (apply Z.pow_pos_nonneg; lia).
  rewrite HS in Hlo, Hhi.
  generalize dependent (2 ^ 1053). intros D Hlo Hhi HS HT HD.
  change (1000000 - 1) with 999999 in Hlo. change (1000000 + 1) with 1000001 in Hhi.
  rewrite !Z.pow_2_r in Hlo, Hhi.
  replace (2097152 * D * (2097152 * D)) with (2097152 * 2097152 * (D * D)) in Hlo, Hhi
    by ring.
  assert (Hall : X * X + Y * Y + Z0 * Z0 < (2 * (2097152 * D)) * (2 * (2097152 * D))).
  { replace (2 * (2097152 * D) * (2 * (2097152 * D)))
      with (4 * (2097152 * 2097152 * (D * D))) by ring.
    assert (0 < D * D) by nia. generalize dependent (D * D).
    generalize (X * X + Y * Y + Z0 * Z0). intros. lia. }
  pose proof (Z.square_nonneg X) as NX. pose proof (Z.square_nonneg Y) as NY.
  pose proof (Z.square_nonneg Z0) as NZ.
  assert (BX : Z.abs X < 2 * (2097152 * D)) by (apply square_lt; lia).
  assert (BY : Z.abs Y < 2 * (2097152 * D)) by (apply square_lt; lia).
  assert (BZ : Z.abs Z0 < 2 * (2097152 * D)) by (apply square_lt; lia).
  destruct (static_cast_float_error x X EX ltac:(rewrite HT; exact BX)) as (FX & -> & DX).
  destruct (static_cast_float_error y Y EY ltac:(rewrite HT; exact BY)) as (FY & -> & DY).
  destruct (static_cast_float_error z Z0 EZ ltac:(rewrite HT; exact BZ)) as (FZ & -> & DZ).
  rewrite HS. change (100000 - 1) with 99999. change (100000 + 1) with 100001.
  rewrite !Z.pow_2_r.
  replace (2097152 * D * (2097152 * D)) with (2097152 * 2097152 * (D * D)) by ring.
  destruct (unit_algebra D X Y Z0 FX FY FZ HD Hlo Hhi) as [Lo Hi]; try lia.
Qed.

(** ** C++ int *)

Lemma to_int_id (z : Z) : -2147483648 <= z <= INT_MAX -> to_int z = z.
Proof.
  unfold to_int, INT_MAX. intros H.
  rewrite Z.mod_small by lia. lia.
Qed.

Lemma to_int_range (z : Z) : -2147483648 <= to_int z <= INT_MAX.
Proof.
  unfold to_int, INT_MAX.
  pose proof (Z.mod_pos_bound (z + 2147483648) 4294967296 ltac:(lia)). lia.
Qed.

(** ** Running the state monad *)


Ltac run :=
  unfold bind, M_bind, ret, lift, inline, kernel, try_catch, read_Shape,
    write_Shape, toShape, fromShape in *; simpl in *.

Section Facade_Properties.
Context {K : Kernel}.

Lemma new_allocated (o : object) (w : world) :
  exists r w', new o w = (Val r, w') /\ allocated w w' r o.
Proof.
  unfold new. eexists _, _. split; [reflexivity|].
  pose proof (is_fresh ({[0%N]} ∪ dom (heap w))) as Hf.
  unfold allocated, nullptr; simpl. repeat split.
  - intros E. apply Hf. rewrite E. set_solver.
  - apply not_elem_of_dom. set_solver.
Qed.

Opaque new.

Lemma allocated_preserves (w w' : world) (r : N) (o : object) (a : N) (x : object) :
  allocated w w' r o -> heap w !! a = Some x -> heap w' !! a = Some x.
Proof.
  intros (_ & Hfree & Hheap & _) Ha. rewrite Hheap.
  rewrite lookup_insert_ne; [exact Ha|]. intros ->. congruence.
Qed.

Lemma N_eqb_nullptr (h : N) : h <> nullptr -> (h =? 0)%N = false.
Proof. intros H. apply N.eqb_neq. exact H. Qed.

(** *** Validity check *)

Lemma OCCT_Shape_IsValid_heap (shape : OCCT_Shape) (w : world) :
  heap (snd (OCCT_Shape_IsValid shape w)) = heap w.
Proof.
  unfold OCCT_Shape_IsValid. destruct (shape =? 0)%N; run; [reflexivity|].
  destruct (heap w !! shape) as [[]|]; simpl; try reflexivity.
  destruct (IsNull s); simpl; [reflexivity|].
  destruct (BRepCheck_Analyzer_IsValid s); reflexivity.
Qed.

Lemma OCCT_Shape_IsValid_depends_on_heap (shape : OCCT_Shape) (w1 w2 : world) :
  heap w1 = heap w2 ->
  fst (OCCT_Shape_IsValid shape w1) = fst (OCCT_Shape_IsValid shape w2).
Proof.
  intros E. unfold OCCT_Shape_IsValid. destruct (shape =? 0)%N; run; [reflexivity|].
  rewrite E. destruct (heap w2 !! shape) as [[]|]; simpl; try reflexivity.
  destruct (IsNull s); simpl; [reflexivity|].
  destruct (BRepCheck_Analyzer_IsValid s); reflexivity.
Qed.

(** C8.  For every handle, null included, two successive calls of
    [OCCT_Shape_IsValid] on an unmodified handle have the same outcome:
    the first call leaves the heap as it found it, and the second call,
    run in the state the first one left, returns the same boolean. *)
Theorem OCCT_Shape_IsValid_twice (shape : OCCT_Shape) (w : world) :
  heap (snd (OCCT_Shape_IsValid shape w)) = heap w /\
  fst (OCCT_Shape_IsValid shape (snd (OCCT_Shape_IsValid shape w)))
  = fst (OCCT_Shape_IsValid shape w).
Proof.
  split.
  - apply OCCT_Shape_IsValid_heap.
  - apply OCCT_Shape_IsValid_depends_on_heap, OCCT_Shape_IsValid_heap.
Qed.

(** *** Boolean operations *)



(** *** Primitive shapes *)

Lemma build_and_wrap_accepts (maker : MakeShape) (s : TopoDS_Shape) (w : world) :
  kernel_accepts maker s ->
  exists r w', build_and_wrap maker w = (Val r, w') /\ allocated w w' r (Obj_Shape s).
Proof.
  intros (maker' & HB & HD & HS). unfold build_and_wrap. run.
  rewrite HB. simpl. rewrite HD. simpl. rewrite HS. simpl.
  destruct (new_allocated (Obj_Shape s) w) as (r & w' & Hn & Ha).
  rewrite Hn. exists r, w'. split; [reflexivity|exact Ha].
Qed.

Lemma build_and_wrap_calls (maker : MakeShape) (w : world) :
  calls (snd (build_and_wrap maker w)) = calls w.
Proof.
  unfold build_and_wrap. run.
  destruct (Build maker) as [maker'|]; simpl; [|reflexivity].
  destruct (IsDone maker'); simpl; [|reflexivity].
  destruct (Shape maker') as [s|]; simpl; [|reflexivity].
  destruct (new_allocated (Obj_Shape s) w) as (r & w' & Hn & Ha).
  rewrite Hn. simpl. apply Ha.
Qed.

(** A handle just allocated for a valid solid passes the wrapper's own
    checks. *)
Lemma allocated_valid_solid (w w' : world) (r : N) (s : TopoDS_Shape) :
  allocated w w' r (Obj_Shape s) -> valid_solid s ->
  fst (OCCT_Shape_IsValid r w') = Val true /\
  fst (OCCT_Shape_Type r w') = Val (static_cast_int TopAbs_SOLID).
Proof.
  intros (Hr & _ & Hheap & _) (HN & HT & HV).
  unfold OCCT_Shape_IsValid, OCCT_Shape_Type.
  rewrite (N_eqb_nullptr _ Hr). run.
  rewrite Hheap, lookup_insert_eq. simpl. rewrite HN. simpl.
  rewrite HV, HT. simpl. split; reflexivity.
Qed.

(** C6.  [OCCT_Primitive_Torus] returns the null handle, without touching
    the heap or the kernel, when a radius is non-positive or when the minor
    radius is not below the major one.  For every other pair (both positive,
    minor below major) that the kernel accepts, it returns a fresh non-null
    handle to the shape the kernel built, after exactly one request to the
    kernel; when the kernel's torus is a valid solid, the wrapper's own
    validity check on the handle succeeds and the shape is of solid type. *)
Theorem OCCT_Primitive_Torus_spec (major_radius minor_radius : double) (w : world) :
  (((major_radius <=? 0)%float = true \/ (minor_radius <=? 0)%float = true \/
    (major_radius <=? minor_radius)%float = true) ->
   OCCT_Primitive_Torus major_radius minor_radius w = (Val nullptr, w))
  /\
  ((0 <? major_radius)%float = true -> (0 <? minor_radius)%float = true ->
   (minor_radius <? major_radius)%float = true ->
   forall maker s,
     BRepPrimAPI_MakeTorus major_radius minor_radius = KOk maker ->
     kernel_accepts maker s ->
     exists r w',
       OCCT_Primitive_Torus major_radius minor_radius w = (Val r, w') /\
       r <> nullptr /\ heap w !! r = None /\
       heap w' = <[r := Obj_Shape s]> (heap w) /\
       calls w' = calls w ++ [Call_MakeTorus major_radius minor_radius] /\
       (valid_solid s ->
        fst (OCCT_Shape_IsValid r w') = Val true /\
        fst (OCCT_Shape_Type r w') = Val (static_cast_int TopAbs_SOLID))).
Proof.
  split.
  - intros H. unfold OCCT_Primitive_Torus.
    destruct (major_radius <=? 0)%float; simpl; [reflexivity|].
    destruct (minor_radius <=? 0)%float; simpl; [reflexivity|].
    destruct (major_radius <=? minor_radius)%float; simpl; [reflexivity|].
    destruct H as [H|[H|H]]; discriminate.
  - intros H1 H2 H3 maker s HK HA. unfold OCCT_Primitive_Torus.
    rewrite (ltb_leb_false _ _ H1), (ltb_leb_false _ _ H2), (ltb_leb_false _ _ H3).
    run. rewrite HK. simpl.
    destruct (build_and_wrap_accepts maker s
                (mk_world (heap w) (calls w ++ [Call_MakeTorus major_radius minor_radius]))
                HA) as (r & w' & Hb & Hal).
    rewrite Hb. exists r, w'. split; [reflexivity|].
    pose proof Hal as (Hr & Hfree & Hheap & Hcalls). simpl in *.
    repeat split; auto.
    + eapply allocated_valid_solid; eauto.
    + eapply allocated_valid_solid; eauto.
Qed.

(** C10.  [OCCT_Primitive_Cone] returns the null handle before any request
    to the kernel exactly when a radius is negative, the height is not
    positive, or both radii are zero; otherwise it asks the kernel for the
    cone.  In particular a cone with exactly one zero radius and a positive
    height is delegated to the kernel. *)
Theorem OCCT_Primitive_Cone_validation (radius1 radius2 height : double) (w : world) :
  (cone_rejected radius1 radius2 height = true <->
   OCCT_Primitive_Cone radius1 radius2 height w = (Val nullptr, w))
  /\
  (cone_rejected radius1 radius2 height = false <->
   calls (snd (OCCT_Primitive_Cone radius1 radius2 height w))
   = calls w ++ [Call_MakeCone radius1 radius2 height])
  /\
  (((radius1 =? 0)%float = true /\ (0 <? radius2)%float = true \/
    (0 <? radius1)%float = true /\ (radius2 =? 0)%float = true) ->
   (0 <? height)%float = true ->
   cone_rejected radius1 radius2 height = false).
Proof.
  assert (Hrej : cone_rejected radius1 radius2 height = true ->
                 OCCT_Primitive_Cone radius1 radius2 height w = (Val nullptr, w)).
  { unfold cone_rejected, OCCT_Primitive_Cone.
    destruct ((radius1 <? 0)%float || (radius2 <? 0)%float || (height <=? 0)%float);
      simpl; [reflexivity|].
    intros ->. reflexivity. }
  assert (Hdel : cone_rejected radius1 radius2 height = false ->
                 calls (snd (OCCT_Primitive_Cone radius1 radius2 height w))
                 = calls w ++ [Call_MakeCone radius1 radius2 height]).
  { unfold cone_rejected, OCCT_Primitive_Cone.
    destruct ((radius1 <? 0)%float || (radius2 <? 0)%float || (height <=? 0)%float);
      simpl; [discriminate|].
    intros ->. run.
    destruct (BRepPrimAPI_MakeCone radius1 radius2 height) as [maker|e]; simpl;
      [|reflexivity].
    pose proof (build_and_wrap_calls maker
                  (mk_world (heap w) (calls w ++ [Call_MakeCone radius1 radius2 height])))
      as Hc.
    destruct (build_and_wrap maker _) as [[r|e|] w']; simpl in *; exact Hc. }
  assert (Hne : forall l (c : kcall), l <> l ++ [c]).
  { intros l c E. apply (f_equal (@length _)) in E.
    rewrite length_app in E. simpl in E. lia. }
  split; [|split].
  - split; [exact Hrej|].
    intros E. destruct (cone_rejected radius1 radius2 height) eqn:R; [reflexivity|].
    specialize (Hdel eq_refl). rewrite E in Hdel. simpl in Hdel.
    exfalso. eapply Hne. exact Hdel.
  - split; [exact Hdel|].
    intros E. destruct (cone_rejected radius1 radius2 height) eqn:R; [|reflexivity].
    rewrite (Hrej eq_refl) in E. simpl in E.
    exfalso. eapply Hne. exact E.
  - intros Hone Hh. unfold cone_rejected.
    rewrite (ltb_leb_false _ _ Hh).
    destruct Hone as [[Hz Hp]|[Hp Hz]].
    + rewrite (eqb_ltb_false _ _ Hz), (ltb_ltb_false _ _ Hp), (ltb_eqb_false _ _ Hp).
      simpl. apply andb_false_r.
    + rewrite (eqb_ltb_false _ _ Hz), (ltb_ltb_false _ _ Hp), (ltb_eqb_false _ _ Hp).
      reflexivity.
Qed.

(** *** Shape kind *)

Lemma OCCT_Shape_Type_spec (shape : OCCT_Shape) (w : world) (v : TopoDS_Shape) :
  (shape = nullptr -> OCCT_Shape_Type shape w = (Val (-1), w)) /\
  (shape <> nullptr -> heap w !! shape = Some (Obj_Shape v) ->
   OCCT_Shape_Type shape w
   = (Val (if IsNull v then -1 else static_cast_int (ShapeType v)), w)).
Proof.
  unfold OCCT_Shape_Type. split.
  - intros ->. reflexivity.
  - intros Hn Hv. rewrite (N_eqb_nullptr _ Hn). run. rewrite Hv. simpl.
    destruct (IsNull v); reflexivity.
Qed.

(** *** Points, vectors, directions *)

(** C2, as amended.  [OCCT_Pnt_Create] and [OCCT_Vec_Create] return, for
    every triple, a fresh non-null handle to the value made of the three
    coordinates, and no exception leaves them.  [OCCT_Dir_Create] does so
    for every triple from which the kernel's [gp_Dir] constructor builds a
    direction. *)
Theorem gp_Create_spec (x y z : double) (w : world) :
  (exists r w', OCCT_Pnt_Create x y z w = (Val r, w') /\
                allocated w w' r (Obj_Pnt (mk_gp_Pnt x y z))) /\
  (exists r w', OCCT_Vec_Create x y z w = (Val r, w') /\
                allocated w w' r (Obj_Vec (mk_gp_Vec x y z))) /\
  (forall d, gp_Dir_ctor x y z = KOk d ->
   exists r w', OCCT_Dir_Create x y z w = (Val r, w') /\
                allocated w w' r (Obj_Dir d)).
Proof.
  split; [|split].
  - unfold OCCT_Pnt_Create. apply new_allocated.
  - unfold OCCT_Vec_Create. apply new_allocated.
  - intros d Hd. unfold OCCT_Dir_Create. run. rewrite Hd. simpl.
    apply new_allocated.
Qed.

(** *** Wires *)

Lemma coords3D_lookup (pts : list gp_Pnt) (i : nat) (p : gp_Pnt) :
  pts !! i = Some p ->
  coords3D pts !! (3 * i)%nat = Some (Pnt_X p) /\
  coords3D pts !! (3 * i + 1)%nat = Some (Pnt_Y p) /\
  coords3D pts !! (3 * i + 2)%nat = Some (Pnt_Z p).
Proof.
  revert i. induction pts as [|a pts IH]; intros i H; [discriminate|].
  destruct i as [|i].
  - injection H as ->. repeat split; reflexivity.
  - simpl in H. destruct (IH i H) as (Hx & Hy & Hz).
    replace (3 * S i)%nat with (S (S (S (3 * i)))) by lia.
    replace (S (S (S (3 * i))) + 1)%nat with (S (S (S (3 * i + 1)))) by lia.
    replace (S (S (S (3 * i))) + 2)%nat with (S (S (S (3 * i + 2)))) by lia.
    repeat split; assumption.
Qed.

Lemma coords2D_lookup (pts : list (double * double)) (i : nat) (p : double * double) :
  pts !! i = Some p ->
  coords2D pts !! (2 * i)%nat = Some (fst p) /\
  coords2D pts !! (2 * i + 1)%nat = Some (snd p).
Proof.
  revert i. induction pts as [|a pts IH]; intros i H; [discriminate|].
  destruct i as [|i].
  - injection H as ->. split; reflexivity.
  - simpl in H. destruct (IH i H) as (Hx & Hy).
    replace (2 * S i)%nat with (S (S (2 * i))) by lia.
    replace (S (S (2 * i)) + 1)%nat with (S (S (2 * i + 1))) by lia.
    split; assumption.
Qed.

Lemma at_index_nat {A} (l : list A) (i : nat) (a : A) :
  l !! i = Some a -> at_index l (Z.of_nat i) = Val a.
Proof.
  intros H. unfold at_index.
  destruct (Z.ltb_spec (Z.of_nat i) 0) as [Hlt|_]; [lia|].
  rewrite Nat2Z.id, H. reflexivity.
Qed.

Lemma point3D_spec (pts : list gp_Pnt) (i : nat) (p : gp_Pnt) (w : world) :
  3 * Z.of_nat (length pts) <= INT_MAX ->
  pts !! i = Some p ->
  point3D (coords3D pts) (Z.of_nat i) w = (Val p, w).
Proof.
  intros Hmax H. pose proof (lookup_lt_Some _ _ _ H) as Hlt.
  destruct (coords3D_lookup pts i p H) as (Hx & Hy & Hz).
  unfold point3D, read_double, int_add, int_mul. unfold INT_MAX in Hmax.
  rewrite (to_int_id (Z.of_nat i * 3)) by (unfold INT_MAX; lia).
  rewrite (to_int_id (Z.of_nat i * 3 + 1)) by (unfold INT_MAX; lia).
  rewrite (to_int_id (Z.of_nat i * 3 + 2)) by (unfold INT_MAX; lia).
  replace (Z.of_nat i * 3) with (Z.of_nat (3 * i)) by lia.
  replace (Z.of_nat (3 * i) + 1) with (Z.of_nat (3 * i + 1)) by lia.
  replace (Z.of_nat (3 * i) + 2) with (Z.of_nat (3 * i + 2)) by lia.
  rewrite (at_index_nat _ _ _ Hx), (at_index_nat _ _ _ Hy), (at_index_nat _ _ _ Hz).
  destruct p. reflexivity.
Qed.

Lemma point2D_spec (pts : list (double * double)) (i : nat) (p : gp_Pnt) (w : world) :
  2 * Z.of_nat (length pts) <= INT_MAX ->
  map on_XY pts !! i = Some p ->
  point2D (coords2D pts) (Z.of_nat i) w = (Val p, w).
Proof.
  intros Hmax H. rewrite list_lookup_fmap in H.
  destruct (pts !! i) as [q|] eqn:Hq; [|discriminate]. injection H as <-.
  pose proof (lookup_lt_Some _ _ _ Hq) as Hlt.
  destruct (coords2D_lookup pts i q Hq) as (Hx & Hy).
  unfold point2D, read_double, int_add, int_mul. unfold INT_MAX in Hmax.
  rewrite (to_int_id (Z.of_nat i * 2)) by (unfold INT_MAX; lia).
  rewrite (to_int_id (Z.of_nat i * 2 + 1)) by (unfold INT_MAX; lia).
  replace (Z.of_nat i * 2) with (Z.of_nat (2 * i)) by lia.
  replace (Z.of_nat (2 * i) + 1) with (Z.of_nat (2 * i + 1)) by lia.
  rewrite (at_index_nat _ _ _ Hx), (at_index_nat _ _ _ Hy).
  reflexivity.
Qed.

Lemma wire_loop_unfold (point : Z -> M gp_Pnt) (num_points : Z) (closed : bool)
    (fuel : nat) (i : Z) (wireBuilder : MakeWire) :
  wire_loop point num_points closed (S fuel) i wireBuilder =
  if negb (i <? num_points) then ret wireBuilder else
    let next := int_rem (int_add i 1) num_points in
    if (i =? int_sub num_points 1) && negb closed then ret wireBuilder else
    p1 <- point i;;
    p2 <- point next;;
    if (Distance p1 p2 <? tol_1e7)%float
    then wire_loop point num_points closed fuel (int_add i 1) wireBuilder else
    edgeBuilder <- kernel (Call_MakeEdge p1 p2) (BRepBuilderAPI_MakeEdge p1 p2);;
    if negb (IsDone edgeBuilder)
    then wire_loop point num_points closed fuel (int_add i 1) wireBuilder else
    edge <- inline (Shape edgeBuilder);;
    wireBuilder' <- kernel (Call_Add edge) (Add wireBuilder edge);;
    wire_loop point num_points closed fuel (int_add i 1) wireBuilder'.
Proof. reflexivity. Qed.

Lemma wire_loop_exit (point : Z -> M gp_Pnt) (num_points : Z) (closed : bool)
    (fuel : nat) (wireBuilder : MakeWire) :
  wire_loop point num_points closed fuel num_points wireBuilder = ret wireBuilder.
Proof. destruct fuel; simpl; rewrite Z.ltb_irrefl; reflexivity. Qed.

(** One turn of the loop on a pair, whatever follows. *)
Lemma loop_turn (p1 p2 : gp_Pnt) (k : MakeWire -> M MakeWire) (segs : list (gp_Pnt * gp_Pnt))
    (wireBuilder : MakeWire) (w : world) :
  (forall wb w',
     k wb w' = add_segments (List.filter (fun seg => negb (degenerate seg)) segs) wb w') ->
  (if (Distance p1 p2 <? tol_1e7)%float then k wireBuilder else
   edgeBuilder <- kernel (Call_MakeEdge p1 p2) (BRepBuilderAPI_MakeEdge p1 p2);;
   if negb (IsDone edgeBuilder) then k wireBuilder else
   edge <- inline (Shape edgeBuilder);;
   wireBuilder' <- kernel (Call_Add edge) (Add wireBuilder edge);;
   k wireBuilder') w
  = add_segments (List.filter (fun seg => negb (degenerate seg)) ((p1, p2) :: segs))
      wireBuilder w.
Proof.
  intros Hk. cbn [List.filter]. unfold degenerate at 1. cbn [fst snd].
  destruct (Distance p1 p2 <? tol_1e7)%float; cbn [negb]; [apply Hk|].
  cbn [add_segments fst snd]. run.
  destruct (BRepBuilderAPI_MakeEdge p1 p2) as [eb|e]; simpl; [|reflexivity].
  destruct (IsDone eb); simpl; [|apply Hk].
  destruct (Shape eb) as [edge|e]; simpl; [|reflexivity].
  destruct (Add wireBuilder edge) as [wb'|e]; simpl; [|reflexivity].
  apply Hk.
Qed.

Lemma wire_loop_spec (point : Z -> M gp_Pnt) (pts : list gp_Pnt) (closed : bool) :
  (forall j p w, pts !! j = Some p -> point (Z.of_nat j) w = (Val p, w)) ->
  Z.of_nat (length pts) <= INT_MAX ->
  forall (fuel i : nat) (wireBuilder : MakeWire) (w : world),
    (i + S fuel = length pts)%nat ->
    wire_loop point (Z.of_nat (length pts)) closed (S fuel) (Z.of_nat i) wireBuilder w
    = add_segments
        (List.filter (fun seg => negb (degenerate seg))
           (zip (drop i pts) (drop (S i) pts) ++ closing pts closed))
        wireBuilder w.
Proof.
  intros Hpoint Hmax. induction fuel as [|fuel IH]; intros i wb w Hi.
  - (* the last point *)
    rewrite wire_loop_unfold.
    destruct (Z.ltb_spec (Z.of_nat i) (Z.of_nat (length pts))) as [_|?]; [|lia].
    cbn [negb]. cbv zeta.
    unfold int_sub, int_add. unfold INT_MAX in Hmax.
    rewrite (to_int_id (Z.of_nat (length pts) - 1)) by (unfold INT_MAX; lia).
    rewrite (to_int_id (Z.of_nat i + 1)) by (unfold INT_MAX; lia).
    replace (Z.of_nat i + 1) with (Z.of_nat (length pts)) by lia.
    destruct (Z.eqb_spec (Z.of_nat i) (Z.of_nat (length pts) - 1)) as [_|?]; [|lia].
    rewrite (drop_ge pts (S i)) by lia. rewrite zip_with_nil_r. cbn [app].
    unfold closing. destruct closed; cbn [negb andb]; [|reflexivity].
    unfold int_rem. rewrite Z.rem_same by lia. change (to_int 0) with 0.
    destruct (lookup_lt_is_Some_2 pts i ltac:(lia)) as [l Hl].
    destruct (lookup_lt_is_Some_2 pts 0 ltac:(lia)) as [f Hf].
    assert (Hlast : last pts = Some l).
    { rewrite last_lookup. replace (pred (length pts)) with i by lia. exact Hl. }
    assert (Hhead : head pts = Some f).
    { rewrite head_lookup. exact Hf. }
    rewrite Hlast, Hhead.
    pose proof (Hpoint 0%nat f w Hf) as Hp0. change (Z.of_nat 0) with 0 in Hp0.
    unfold bind at 1 2, M_bind.
    rewrite (Hpoint i l w Hl). cbv beta iota. rewrite Hp0. cbv beta iota.
    apply loop_turn. intros wb' w'. rewrite wire_loop_exit. reflexivity.
  - (* an inner point *)
    rewrite wire_loop_unfold.
    destruct (Z.ltb_spec (Z.of_nat i) (Z.of_nat (length pts))) as [_|?]; [|lia].
    cbn [negb]. cbv zeta.
    unfold int_sub, int_add. unfold INT_MAX in Hmax.
    rewrite (to_int_id (Z.of_nat (length pts) - 1)) by (unfold INT_MAX; lia).
    rewrite (to_int_id (Z.of_nat i + 1)) by (unfold INT_MAX; lia).
    destruct (Z.eqb_spec (Z.of_nat i) (Z.of_nat (length pts) - 1)) as [?|_]; [lia|].
    cbn [andb].
    unfold int_rem. rewrite Z.rem_small by lia.
    rewrite (to_int_id (Z.of_nat i + 1)) by (unfold INT_MAX; lia).
    replace (Z.of_nat i + 1) with (Z.of_nat (S i)) by lia.
    destruct (lookup_lt_is_Some_2 pts i ltac:(lia)) as [p1 H1].
    destruct (lookup_lt_is_Some_2 pts (S i) ltac:(lia)) as [p2 H2].
    assert (Hz : zip (drop i pts) (drop (S i) pts)
                 = (p1, p2) :: zip (drop (S i) pts) (drop (S (S i)) pts)).
    { rewrite (drop_S pts p1 i H1). rewrite (drop_S pts p2 (S i) H2). reflexivity. }
    rewrite Hz. rewrite <- app_comm_cons.
    unfold bind at 1 2, M_bind.
    rewrite (Hpoint i p1 w H1). cbv beta iota.
    rewrite (Hpoint (S i) p2 w H2). cbv beta iota.
    apply loop_turn. intros wb' w'. apply IH. lia.
Qed.

Lemma segments_drop (pts : list gp_Pnt) (closed : bool) :
  zip (drop 0 pts) (drop 1 pts) ++ closing pts closed = segments pts closed.
Proof. unfold segments. rewrite drop_0. destruct pts; reflexivity. Qed.

Lemma wire_from_points (point : Z -> M gp_Pnt) (pts : list gp_Pnt) (closed : bool)
    (w : world) :
  (forall j p w, pts !! j = Some p -> point (Z.of_nat j) w = (Val p, w)) ->
  Z.of_nat (length pts) <= INT_MAX ->
  (2 <= length pts)%nat ->
  try_catch
    (wireBuilder <- wire_loop point (Z.of_nat (length pts)) closed
                      (Z.to_nat (Z.of_nat (length pts))) 0 BRepBuilderAPI_MakeWire;;
     wire_finish wireBuilder)
    (fun _ => ret nullptr) w
  = wire_of_segments (kept_segments pts closed) w.
Proof.
  intros Hpoint Hmax Hlen. unfold wire_of_segments, kept_segments.
  rewrite Nat2Z.id.
  assert (En : exists n, length pts = S n) by (exists (pred (length pts)); lia).
  destruct En as [n En].
  pose proof (wire_loop_spec point pts closed Hpoint Hmax n 0%nat
                BRepBuilderAPI_MakeWire w ltac:(lia)) as HL.
  rewrite <- En in HL. change (Z.of_nat 0) with 0 in HL.
  rewrite segments_drop in HL.
  unfold try_catch, bind, M_bind. rewrite HL. reflexivity.
Qed.

Lemma add_segments_defined (segs : list (gp_Pnt * gp_Pnt)) (wireBuilder : MakeWire)
    (w : world) :
  fst (add_segments segs wireBuilder w) <> Undefined.
Proof.
  revert wireBuilder w. induction segs as [|[p1 p2] segs IH]; intros wb w; simpl.
  - discriminate.
  - run.
    destruct (BRepBuilderAPI_MakeEdge p1 p2) as [eb|e]; simpl; [|discriminate].
    destruct (IsDone eb); simpl; [|apply IH].
    destruct (Shape eb) as [edge|e]; simpl; [|discriminate].
    destruct (Add wb edge) as [wb'|e]; simpl; [|discriminate].
    apply IH.
Qed.

Lemma wire_of_segments_returns (segs : list (gp_Pnt * gp_Pnt)) (w : world) :
  exists r w',
    wire_of_segments segs w = (Val r, w') /\
    (r <> nullptr <->
     exists wireBuilder w1 s,
       add_segments segs BRepBuilderAPI_MakeWire w = (Val wireBuilder, w1) /\
       Wire_IsDone wireBuilder = true /\ Wire wireBuilder = KOk s /\
       allocated w1 w' r (Obj_Shape s)).
Proof.
  unfold wire_of_segments, wire_finish. run.
  pose proof (add_segments_defined segs BRepBuilderAPI_MakeWire w) as Hdef.
  destruct (add_segments segs BRepBuilderAPI_MakeWire w) as [[wb|e|] w1]; simpl in *.
  3:{ contradiction. }
  2:{ eexists _, _. split; [reflexivity|]. split; [congruence|].
      intros (? & ? & ? & ? & _). discriminate. }
  destruct (Wire_IsDone wb) eqn:HD; simpl.
  2:{ eexists _, _. split; [reflexivity|]. split; [congruence|].
      intros (? & ? & ? & E & D & _). injection E as <- <-. congruence. }
  destruct (Wire wb) as [s|e] eqn:HW; simpl.
  2:{ eexists _, _. split; [reflexivity|]. split; [congruence|].
      intros (? & ? & ? & E & _ & W & _). injection E as <- <-. congruence. }
  destruct (new_allocated (Obj_Shape s) w1) as (r & w' & Hn & Ha).
  rewrite Hn. exists r, w'. split; [reflexivity|]. split.
  - intros _. exists wb, w1, s. repeat split; auto; apply Ha.
  - intros _. apply Ha.
Qed.

(** C4, as amended.  For a point array with at least two points, the 2D
    and the 3D function behave as [wire_of_segments] on the pairs of
    consecutive points that are not closer than 1e-7: a pair closer than
    that causes no kernel request and no failure, and the kernel is asked,
    in order, for one edge per remaining pair.  With [closed = false] the
    pairs are the consecutive ones only, so no edge joins the last point to
    the first.  The call always returns; it returns null when no pair
    remains (an empty builder not being done), and it returns a non-null
    handle exactly when the kernel raised no exception and its wire builder
    reports done after the last edge, the handle then being fresh and
    holding the builder's wire. *)
Theorem OCCT_Wire_FromPoints_spec (pts2 : list (double * double)) (pts : list gp_Pnt)
    (closed : bool) (w : world) :
  (2 <= length pts2)%nat -> 2 * Z.of_nat (length pts2) <= INT_MAX ->
  (2 <= length pts)%nat -> 3 * Z.of_nat (length pts) <= INT_MAX ->
  OCCT_Wire_FromPoints2D (Some (coords2D pts2)) (Z.of_nat (length pts2)) closed w
  = wire_of_segments (kept_segments (map on_XY pts2) closed) w
  /\
  OCCT_Wire_FromPoints3D (Some (coords3D pts)) (Z.of_nat (length pts)) closed w
  = wire_of_segments (kept_segments pts closed) w
  /\
  segments pts false = zip pts (tail pts)
  /\
  (Wire_IsDone BRepBuilderAPI_MakeWire = false ->
   wire_of_segments [] w = (Val nullptr, w))
  /\
  (forall segs,
   exists r w',
     wire_of_segments segs w = (Val r, w') /\
     (r <> nullptr <->
      exists wireBuilder w1 s,
        add_segments segs BRepBuilderAPI_MakeWire w = (Val wireBuilder, w1) /\
        Wire_IsDone wireBuilder = true /\ Wire wireBuilder = KOk s /\
        allocated w1 w' r (Obj_Shape s))).
Proof.
  intros L2 M2 L3 M3. unfold INT_MAX in *. repeat split.
  - unfold OCCT_Wire_FromPoints2D.
    destruct (Z.ltb_spec (Z.of_nat (length pts2)) 2) as [?|_]; [lia|].
    rewrite <- (length_map on_XY pts2 : length (map on_XY pts2) = length pts2).
    apply wire_from_points.
    + intros j p w0 Hj. apply point2D_spec; [unfold INT_MAX; lia|exact Hj].
    + rewrite length_map. unfold INT_MAX. lia.
    + rewrite length_map. exact L2.
  - unfold OCCT_Wire_FromPoints3D.
    destruct (Z.ltb_spec (Z.of_nat (length pts)) 2) as [?|_]; [lia|].
    apply wire_from_points.
    + intros j p w0 Hj. apply point3D_spec; [unfold INT_MAX; lia|exact Hj].
    + unfold INT_MAX. lia.
    + exact L3.
  - unfold segments, closing. apply app_nil_r.
  - intros HD. unfold wire_of_segments, wire_finish. run. rewrite HD. reflexivity.
  - intros segs. apply wire_of_segments_returns.
Qed.

(** *** Tessellation *)

(** The paths through [OCCT_Tessellate] for a live, non-empty shape. *)
Lemma OCCT_Tessellate_run (shape : OCCT_Shape) (params : OCCT_TessellationParams)
    (w : world) (v : TopoDS_Shape) :
  shape <> nullptr -> heap w !! shape = Some (Obj_Shape v) -> IsNull v = false ->
  OCCT_Tessellate shape params w =
  let w1 := mk_world (heap w) (calls w ++ [Call_IncrementalMesh v params]) in
  match run_mesher v params with
  | KRaise _ => (Val nullptr, w1)
  | KOk (done, v') =>
    let w2 := mk_world (<[shape := Obj_Shape v']> (heap w))
                       (calls w ++ [Call_IncrementalMesh v params]) in
    if done then
      match walk_faces (TopExp_Faces v') with
      | Val b =>
        if is_empty (buf_vertices b) || is_empty (buf_triangles b)
        then (Val nullptr, w2)
        else new (Obj_Mesh (make_mesh b)) w2
      | Throw _ => (Val nullptr, w2)
      | Undefined => (Undefined, w2)
      end
    else (Val nullptr, w2)
  end.
Proof.
  intros Hn Hv Hnull. unfold OCCT_Tessellate, run_mesher.
  rewrite (N_eqb_nullptr _ Hn). run. rewrite Hv. simpl. rewrite Hnull. simpl.
  destruct (BRepMesh_IncrementalMesh v (linear_deflection params) (relative params)
              (angular_deflection params)) as [[done v']|e]; simpl; [|reflexivity].
  destruct done; simpl; [|reflexivity].
  destruct (walk_faces (TopExp_Faces v')) as [b|e|]; simpl; try reflexivity.
  destruct (is_empty (buf_vertices b) || is_empty (buf_triangles b)); simpl;
    [reflexivity|].
  destruct (new_allocated (Obj_Mesh (make_mesh b))
              (mk_world (<[shape := Obj_Shape v']> (heap w))
                        (calls w ++ [Call_IncrementalMesh v params])))
    as (r & w' & Hnew & _).
  rewrite Hnew. reflexivity.
Qed.

Lemma is_empty_nil {A} (l : list A) : is_empty l = true <-> l = [].
Proof. destruct l; simpl; split; congruence. Qed.

Lemma OCCT_Tessellate_null_iff (shape : OCCT_Shape) (params : OCCT_TessellationParams)
    (w w' : world) (r : N) :
  OCCT_Tessellate shape params w = (Val r, w') ->
  (r = nullptr <-> null_cause w shape params) /\
  (r <> nullptr ->
   exists v v' b,
     shape <> nullptr /\
     heap w !! shape = Some (Obj_Shape v) /\ IsNull v = false /\
     run_mesher v params = KOk (true, v') /\
     walk_faces (TopExp_Faces v') = Val b /\
     buf_vertices b <> [] /\ buf_triangles b <> [] /\
     allocated (mk_world (<[shape := Obj_Shape v']> (heap w))
                         (calls w ++ [Call_IncrementalMesh v params]))
               w' r (Obj_Mesh (make_mesh b))).
Proof.
  intros Hrun.
  destruct (N.eq_dec shape nullptr) as [->|Hn].
  { unfold OCCT_Tessellate in Hrun. simpl in Hrun. injection Hrun as <- <-.
    split; [split; [intros _; apply null_handle; reflexivity|reflexivity]|congruence]. }
  destruct (heap w !! shape) as [o|] eqn:Hv.
  2:{ unfold OCCT_Tessellate in Hrun. rewrite (N_eqb_nullptr _ Hn) in Hrun. run.
      rewrite Hv in Hrun. discriminate. }
  destruct o as [v| | | |].
  2-5: unfold OCCT_Tessellate in Hrun; rewrite (N_eqb_nullptr _ Hn) in Hrun; run;
       rewrite Hv in Hrun; discriminate.
  destruct (IsNull v) eqn:Hnull.
  { unfold OCCT_Tessellate in Hrun. rewrite (N_eqb_nullptr _ Hn) in Hrun. run.
    rewrite Hv in Hrun. simpl in Hrun. rewrite Hnull in Hrun. simpl in Hrun.
    injection Hrun as <- <-.
    split; [split; [intros _; eapply empty_shape; eauto|reflexivity]|congruence]. }
  rewrite (OCCT_Tessellate_run shape params w v Hn Hv Hnull) in Hrun. cbv zeta in Hrun.
  assert (Hinv : forall cause : null_cause w shape params,
            match run_mesher v params with
            | KRaise _ => True
            | KOk (done, v') =>
              done = false \/
              match walk_faces (TopExp_Faces v') with
              | Val b => buf_vertices b = [] \/ buf_triangles b = []
              | _ => True
              end
            end).
  { intros [E|v0 E0 E|v0 e E0 E|v0 v' E0 E|v0 v' e E0 E E1|v0 v' b E0 E E1 E2].
    - contradiction.
    - rewrite Hv in E0. injection E0 as <-. congruence.
    - rewrite Hv in E0. injection E0 as <-. rewrite E. exact I.
    - rewrite Hv in E0. injection E0 as <-. rewrite E. left. reflexivity.
    - rewrite Hv in E0. injection E0 as <-. rewrite E. right. rewrite E1. exact I.
    - rewrite Hv in E0. injection E0 as <-. rewrite E. right. rewrite E1. exact E2. }
  destruct (run_mesher v params) as [[done v']|e] eqn:Hm.
  2:{ injection Hrun as <- <-.
      split; [split; [intros _; eapply mesher_raises; eauto|reflexivity]|congruence]. }
  destruct done.
  2:{ injection Hrun as <- <-.
      split; [split; [intros _; eapply mesher_not_done; eauto|reflexivity]|congruence]. }
  destruct (walk_faces (TopExp_Faces v')) as [b|e|] eqn:Hw.
  3:{ discriminate. }
  2:{ injection Hrun as <- <-.
      split; [split; [intros _; eapply walk_raises; eauto|reflexivity]|congruence]. }
  destruct (is_empty (buf_vertices b)) eqn:Ev.
  { simpl in Hrun. injection Hrun as <- <-.
    split; [split; [intros _|reflexivity]|congruence].
    eapply nothing_walked; eauto. left. apply is_empty_nil. exact Ev. }
  destruct (is_empty (buf_triangles b)) eqn:Et.
  { simpl in Hrun. injection Hrun as <- <-.
    split; [split; [intros _|reflexivity]|congruence].
    eapply nothing_walked; eauto. right. apply is_empty_nil. exact Et. }
  simpl in Hrun.
  destruct (new_allocated (Obj_Mesh (make_mesh b))
              (mk_world (<[shape := Obj_Shape v']> (heap w))
                        (calls w ++ [Call_IncrementalMesh v params])))
    as (r0 & w0 & Hnew & Hal).
  rewrite Hnew in Hrun. injection Hrun as <- <-.
  assert (Hr : r0 <> nullptr) by apply Hal.
  split.
  - split; [congruence|]. intros cause. specialize (Hinv cause).
    destruct Hinv as [?|[E|E]]; [discriminate| |].
    + apply is_empty_nil in E. congruence.
    + apply is_empty_nil in E. congruence.
  - intros _. exists v, v', b. repeat split; auto.
    + intros E. apply is_empty_nil in E. congruence.
    + intros E. apply is_empty_nil in E. congruence.
    + apply Hal.
    + apply Hal.
    + apply Hal.
Qed.

Lemma at_index_Val {A} (l : list A) (c : Z) (a : A) :
  at_index l c = Val a ->
  0 <= c < Z.of_nat (length l) /\ l !! Z.to_nat c = Some a.
Proof.
  unfold at_index. destruct (Z.ltb_spec c 0) as [?|Hc]; [discriminate|].
  destruct (l !! Z.to_nat c) as [x|] eqn:E; [|discriminate].
  intros [= ->]. split; [|reflexivity].
  apply lookup_lt_Some in E. lia.
Qed.

Lemma add_at_spec (nodeNormals nn' : list gp_Vec) (c : Z) (v : gp_Vec) :
  add_at nodeNormals c v = Val nn' ->
  length nn' = length nodeNormals /\
  forall i : nat,
    nn' !! i
    = (fun x => fold_left Added
                  (map (fun _ => v) (List.filter (fun c => c =? Z.of_nat i) [c])) x)
      <$> nodeNormals !! i.
Proof.
  unfold add_at. destruct (at_index nodeNormals c) as [n| |] eqn:E; simpl; try discriminate.
  intros [= <-]. apply at_index_Val in E as [Hc Hn].
  split; [apply length_insert|].
  intros i. cbn [List.filter].
  destruct (Z.eqb_spec c (Z.of_nat i)) as [->|Hne].
  - rewrite Nat2Z.id in *. rewrite list_lookup_insert_eq by (apply lookup_lt_Some in Hn; lia).
    rewrite Hn. reflexivity.
  - rewrite list_lookup_insert_ne by lia.
    destruct (nodeNormals !! i); reflexivity.
Qed.

Lemma accumulate_triangle_spec (nodes : list gp_Pnt) (nn nn' : list gp_Vec)
    (t : Z * Z * Z) :
  accumulate_triangle nodes nn t = Val nn' ->
  length nn' = length nn /\
  Forall (fun c => 0 <= c < Z.of_nat (length nodes)) (corners t) /\
  forall i : nat,
    nn' !! i
    = (fun x => fold_left Added
                  (map (fun _ => facet_normal nodes t)
                       (List.filter (fun c => c =? Z.of_nat i) (corners t))) x)
      <$> nn !! i.
Proof.
  destruct t as [[a b] c]. unfold accumulate_triangle, facet_normal, corners. cbv zeta.
  set (c1 := int_sub (to_int a) 1). set (c2 := int_sub (to_int b) 1).
  set (c3 := int_sub (to_int c) 1).
  unfold bind, result_bind.
  destruct (at_index nodes c1) as [p1| |] eqn:E1; try discriminate.
  destruct (at_index nodes c2) as [p2| |] eqn:E2; try discriminate.
  destruct (at_index nodes c3) as [p3| |] eqn:E3; try discriminate.
  apply at_index_Val in E1 as [R1 L1]. apply at_index_Val in E2 as [R2 L2].
  apply at_index_Val in E3 as [R3 L3].
  rewrite !nth_lookup, L1, L2, L3. cbn [default from_option id].
  set (fn := Crossed (gp_Vec_of_points p1 p2) (gp_Vec_of_points p1 p3)).
  destruct (add_at nn c1 fn) as [nn1| |] eqn:A1; try discriminate.
  destruct (add_at nn1 c2 fn) as [nn2| |] eqn:A2; try discriminate.
  intros A3.
  apply add_at_spec in A1 as [Len1 S1]. apply add_at_spec in A2 as [Len2 S2].
  apply add_at_spec in A3 as [Len3 S3].
  split; [congruence|]. split.
  - repeat constructor; lia.
  - intros i. rewrite S3, S2, S1. cbn [List.filter].
    destruct (nn !! i) as [x|]; [|reflexivity]. simpl.
    destruct (c1 =? Z.of_nat i), (c2 =? Z.of_nat i), (c3 =? Z.of_nat i); reflexivity.
Qed.

Lemma accumulate_spec (nodes : list gp_Pnt) (tris : list (Z * Z * Z))
    (nn nn' : list gp_Vec) :
  foldM (accumulate_triangle nodes) tris nn = Val nn' ->
  length nn' = length nn /\
  Forall (fun c => 0 <= c < Z.of_nat (length nodes)) (flat_map corners tris) /\
  forall i : nat,
    nn' !! i = (fun x => fold_left Added (incident nodes tris i) x) <$> nn !! i.
Proof.
  revert nn. induction tris as [|t tris IH]; intros nn; simpl.
  - intros [= <-]. repeat split; [constructor|].
    intros i. destruct (nn !! i); reflexivity.
  - destruct (accumulate_triangle nodes nn t) as [nn1| |] eqn:E; simpl; try discriminate.
    intros Hrest. apply accumulate_triangle_spec in E as (Len1 & C1 & S1).
    apply IH in Hrest as (Len2 & C2 & S2).
    split; [congruence|]. split.
    + apply Forall_app. split; assumption.
    + intros i. rewrite S2, S1. unfold incident. cbn [flat_map].
      destruct (nn !! i) as [x|]; [|reflexivity]. simpl.
      rewrite fold_left_app. reflexivity.
Qed.

Lemma normalize_nodes_spec (nn ns : list gp_Vec) :
  mapM_result normalize_node nn = Val ns -> Forall2 emitted_normal nn ns.
Proof.
  revert ns. induction nn as [|n nn IH]; intros ns; simpl.
  - intros [= <-]. constructor.
  - destruct (normalize_node n) as [n'| |] eqn:E; simpl; try discriminate.
    destruct (mapM_result normalize_node nn) as [ns'| |]; simpl; try discriminate.
    intros [= <-]. constructor; [|apply IH; reflexivity].
    unfold normalize_node in E. unfold emitted_normal.
    destruct (tol_1e7 <? Magnitude n)%float.
    + destruct (Normalized n); simpl in E; congruence.
    + congruence.
Qed.

Lemma tessellate_face_spec (acc b : buffers) (face : TopoDS_Shape) :
  tessellate_face acc face = Val b ->
  match face_mesh face with
  | None => b = acc
  | Some fm =>
    exists ns,
      face_normals fm ns /\ corners_in_range fm /\
      b = mk_buffers
            (buf_vertices acc ++ flat_map push_Pnt (fst fm))
            (buf_normals acc ++ flat_map push_Vec ns)
            (buf_triangles acc
             ++ flat_map (emit_triangle (to_int (Z.of_nat (length (buf_vertices acc)) / 3)))
                  (snd fm))
  end.
Proof.
  unfold tessellate_face, face_mesh.
  destruct (BRep_Tool_Triangulation face) as [[tri|] transform]; [|congruence].
  cbv zeta. unfold bind, result_bind.
  set (nodes := map (fun p => Transformed p transform) (Nodes tri)).
  destruct (foldM (accumulate_triangle nodes) (Triangles tri) _) as [nn| |] eqn:Hacc;
    try discriminate.
  destruct (mapM_result normalize_node nn) as [ns| |] eqn:Hnorm; try discriminate.
  intros [= <-]. exists ns. cbn [fst snd].
  apply accumulate_spec in Hacc as (Hlen & Hcorners & Hsum).
  apply normalize_nodes_spec in Hnorm.
  split; [|split; [exact Hcorners|reflexivity]].
  unfold face_normals. cbn [fst snd].
  assert (Hn : Z.to_nat (NbNodes tri) = length nodes).
  { unfold NbNodes, nodes. rewrite Nat2Z.id, length_map. reflexivity. }
  rewrite Hn in Hlen, Hsum. rewrite length_replicate in Hlen.
  replace (map (vertex_sum nodes (Triangles tri)) (seq 0 (length nodes))) with nn;
    [exact Hnorm|].
  apply list_eq. intros i. rewrite Hsum, list_lookup_fmap.
  destruct (Nat.lt_ge_cases i (length nodes)) as [Hi|Hi].
  - rewrite lookup_replicate_2 by exact Hi. rewrite lookup_seq_lt by exact Hi.
    reflexivity.
  - rewrite (lookup_ge_None_2 (replicate _ _)) by (rewrite length_replicate; lia).
    rewrite (lookup_ge_None_2 (seq 0 _)) by (rewrite length_seq; lia).
    reflexivity.
Qed.

(** The whole walk: the buffers grow face by face. *)
Lemma walk_spec (faces : list TopoDS_Shape) (acc b : buffers) :
  foldM tessellate_face faces acc = Val b ->
  exists nss,
    Forall2 face_normals (face_meshes faces) nss /\
    Forall corners_in_range (face_meshes faces) /\
    buf_vertices b
    = buf_vertices acc ++ flat_map push_Pnt (concat (map fst (face_meshes faces))) /\
    buf_normals b = buf_normals acc ++ flat_map push_Vec (concat nss) /\
    buf_triangles b
    = buf_triangles acc
      ++ emitted_triangles (length (buf_vertices acc)) (face_meshes faces).
Proof.
  revert acc. induction faces as [|face faces IH]; intros acc; simpl.
  - intros [= <-]. exists []. repeat split; try constructor; simpl;
      rewrite ?app_nil_r; reflexivity.
  - unfold bind, result_bind.
    destruct (tessellate_face acc face) as [acc'| |] eqn:Hface; try discriminate.
    intros Hrest. apply tessellate_face_spec in Hface.
    apply IH in Hrest as (nss & HN & HC & HV & HNo & HT).
    unfold face_meshes in *. cbn [omap].
    destruct (face_mesh face) as [[nodes tris]|].
    + destruct Hface as (ns & Hns & Hcr & ->). cbn [fst snd] in *.
      exists (ns :: nss). cbn [mbind option_bind map concat fst snd emitted_triangles].
      split; [constructor; assumption|].
      split; [constructor; assumption|].
      rewrite HV, HNo, HT. cbn [buf_vertices buf_normals buf_triangles].
      rewrite !flat_map_app, <- !app_assoc.
      repeat split.
      rewrite length_app.
      replace (length (flat_map push_Pnt nodes)) with (3 * length nodes)%nat; [reflexivity|].
      clear. induction nodes as [|p nodes IH]; simpl; [reflexivity|]. lia.
    + subst acc'. exists nss. cbn [mbind option_bind]. repeat split; assumption.
Qed.

(** The [int] arithmetic of an emitted index does not wrap when the
    vertex count fits an [int]. *)
Lemma emitted_index (a offset L : Z) :
  0 <= int_sub (to_int a) 1 < L -> 0 <= offset -> offset + L <= INT_MAX ->
  int_sub (int_add offset (to_int a)) 1 = offset + int_sub (to_int a) 1.
Proof.
  intros Hc Ho HL. pose proof (to_int_range a) as Hr.
  set (n := to_int a) in *. unfold INT_MAX in *.
  destruct (Z.eq_dec n (-2147483648)) as [E|E].
  - rewrite E in Hc. change (int_sub (-2147483648) 1) with 2147483647 in Hc. lia.
  - unfold int_sub, int_add in *.
    rewrite (to_int_id (n - 1)) in * by (unfold INT_MAX; lia).
    rewrite (to_int_id (offset + n)) by (unfold INT_MAX; lia).
    rewrite (to_int_id (offset + n - 1)) by (unfold INT_MAX; lia).
    lia.
Qed.

Lemma emit_triangle_offset (t : Z * Z * Z) (offset L : Z) :
  Forall (fun c => 0 <= c < L) (corners t) -> 0 <= offset -> offset + L <= INT_MAX ->
  emit_triangle offset t = map (fun c => offset + c) (corners t).
Proof.
  destruct t as [[a b] c]. unfold emit_triangle, corners. cbv zeta.
  intros H Ho HL. inversion_clear H as [|? ? Ha H1]. inversion_clear H1 as [|? ? Hb H2].
  inversion_clear H2 as [|? ? Hc _]. cbn [map].
  rewrite (emitted_index a offset L), (emitted_index b offset L),
    (emitted_index c offset L) by assumption.
  reflexivity.
Qed.

Lemma emitted_triangles_offset (fms : list (list gp_Pnt * list (Z * Z * Z))) (k : nat) :
  Forall corners_in_range fms ->
  Z.of_nat k + Z.of_nat (length (concat (map fst fms))) <= INT_MAX ->
  emitted_triangles (3 * k) fms = offset_triangles (Z.of_nat k) fms /\
  Forall (fun t => Z.of_nat k <= t
                   < Z.of_nat k + Z.of_nat (length (concat (map fst fms))))
         (offset_triangles (Z.of_nat k) fms).
Proof.
  revert k. induction fms as [|[nodes tris] fms IH]; intros k HC Hmax.
  - split; [reflexivity|constructor].
  - inversion_clear HC as [|? ? Hc HC']. unfold corners_in_range in Hc.
    cbn [fst snd] in Hc. cbn [map concat fst] in Hmax. rewrite length_app in Hmax.
    cbn [emitted_triangles offset_triangles map concat fst].
    replace (3 * k + 3 * length nodes)%nat with (3 * (k + length nodes))%nat by lia.
    destruct (IH (k + length nodes)%nat HC' ltac:(lia)) as [IHe IHr].
    replace (Z.of_nat (k + length nodes)) with (Z.of_nat k + Z.of_nat (length nodes))
      in IHe, IHr by lia.
    rewrite IHe.
    replace (Z.of_nat (3 * k) / 3) with (Z.of_nat k)
      by (rewrite Nat2Z.inj_mul, Z.mul_comm, Z.div_mul; lia).
    rewrite (to_int_id (Z.of_nat k)) by (unfold INT_MAX in *; lia).
    assert (Hblock : flat_map (emit_triangle (Z.of_nat k)) tris
                     = map (fun c => Z.of_nat k + c) (flat_map corners tris)
                     /\ Forall (fun t => Z.of_nat k <= t
                                         < Z.of_nat k + Z.of_nat (length nodes))
                               (map (fun c => Z.of_nat k + c) (flat_map corners tris))).
    { clear - Hc Hmax. induction tris as [|t tris IHt]; [split; [reflexivity|constructor]|].
      cbn [flat_map] in *. apply Forall_app in Hc as [Ht Hc].
      destruct (IHt Hc) as [E R]. rewrite E. rewrite map_app.
      rewrite (emit_triangle_offset t (Z.of_nat k) (Z.of_nat (length nodes)))
        by (try assumption; lia).
      split; [reflexivity|].
      apply Forall_app. split; [|exact R].
      apply Forall_map. eapply Forall_impl; [exact Ht|]. simpl. intros; lia. }
    destruct Hblock as [-> Hrange]. split; [reflexivity|].
    rewrite length_app.
    apply Forall_app. split.
    + eapply Forall_impl; [exact Hrange|]. simpl. intros; lia.
    + eapply Forall_impl; [exact IHr|]. simpl. intros; lia.
Qed.

Lemma length_push_Pnt (nodes : list gp_Pnt) :
  length (flat_map push_Pnt nodes) = (3 * length nodes)%nat.
Proof. induction nodes as [|p nodes IH]; simpl; [reflexivity|lia]. Qed.

Lemma length_emitted_triangles (fms : list (list gp_Pnt * list (Z * Z * Z))) (n : nat) :
  exists k, length (emitted_triangles n fms) = (3 * k)%nat.
Proof.
  revert n. induction fms as [|[nodes tris] fms IH]; intros n; [exists 0%nat; reflexivity|].
  cbn [emitted_triangles]. destruct (IH (n + 3 * length nodes)%nat) as [k Hk].
  exists (length tris + k)%nat. rewrite length_app, Hk.
  assert (length (flat_map (emit_triangle (to_int (Z.of_nat n / 3))) tris)
          = (3 * length tris)%nat) as ->; [|lia].
  clear. induction tris as [|[[a b] c] tris IHt]; simpl; [reflexivity|].
  simpl in IHt. lia.
Qed.

(** What a successful call leaves behind: the meshed shape at the input
    handle, and at the fresh result handle the mesh of the walk. *)
Lemma OCCT_Tessellate_mesh (shape : OCCT_Shape) (params : OCCT_TessellationParams)
    (w w' : world) (r : N) (m : OCCT_Mesh) :
  OCCT_Tessellate shape params w = (Val r, w') ->
  r <> nullptr ->
  heap w' !! r = Some (Obj_Mesh m) ->
  exists v' b,
    heap w !! r = None /\
    heap w' !! shape = Some (Obj_Shape v') /\
    walk_faces (TopExp_Faces v') = Val b /\
    buf_vertices b <> [] /\ buf_triangles b <> [] /\
    m = make_mesh b.
Proof.
  intros Hrun Hr Hm.
  destruct (OCCT_Tessellate_null_iff shape params w w' r Hrun) as [_ Hnn].
  destruct (Hnn Hr) as (v & v' & b & Hs & Hv & _ & _ & Hwalk & Hbv & Hbt & Hal).
  destruct Hal as (_ & Hfree & Hheap & _). simpl in Hfree, Hheap.
  assert (Hrs : r <> shape).
  { intros ->. rewrite lookup_insert_eq in Hfree. discriminate. }
  exists v', b. rewrite Hheap in Hm |- *.
  rewrite lookup_insert_eq in Hm. injection Hm as <-.
  rewrite lookup_insert_ne, lookup_insert_eq by exact Hrs.
  rewrite lookup_insert_ne in Hfree by congruence.
  repeat split; assumption.
Qed.

(** C5.  In a mesh returned by [OCCT_Tessellate] whose vertex count fits
    an [int], the triangle array is, face by face, the 0-based corners of
    the face's triangles shifted by the number of vertices of the faces
    before it; the vertex count is the number of nodes of all triangulated
    faces, and every entry of the triangle array lies in [0, num_vertices). *)
Theorem OCCT_Tessellate_indices (shape : OCCT_Shape) (params : OCCT_TessellationParams)
    (w w' : world) (r : N) (m : OCCT_Mesh) :
  OCCT_Tessellate shape params w = (Val r, w') ->
  r <> nullptr ->
  heap w' !! r = Some (Obj_Mesh m) ->
  Z.of_nat (length (vertices m)) / 3 <= INT_MAX ->
  exists v',
    heap w' !! shape = Some (Obj_Shape v') /\
    triangles m = offset_triangles 0 (face_meshes (TopExp_Faces v')) /\
    num_vertices m
    = Z.of_nat (length (concat (map fst (face_meshes (TopExp_Faces v'))))) /\
    Forall (fun t => 0 <= t < num_vertices m) (triangles m).
Proof.
  intros Hrun Hr Hm Hfit.
  destruct (OCCT_Tessellate_mesh shape params w w' r m Hrun Hr Hm)
    as (v' & b & _ & Hshape & Hwalk & _ & _ & ->).
  exists v'. split; [exact Hshape|].
  apply walk_spec in Hwalk as (nss & _ & HC & HV & _ & HT). simpl in HV, HT.
  set (fms := face_meshes (TopExp_Faces v')) in *.
  unfold make_mesh in *. cbn [vertices triangles num_vertices] in *.
  rewrite HV, length_push_Pnt in *.
  assert (Hdiv : Z.of_nat (3 * length (concat (map fst fms))) / 3
                 = Z.of_nat (length (concat (map fst fms))))
    by (rewrite Nat2Z.inj_mul, Z.mul_comm, Z.div_mul; lia).
  rewrite Hdiv in *.
  destruct (emitted_triangles_offset fms 0 HC ltac:(simpl; lia)) as [He Hrange].
  change (3 * 0)%nat with 0%nat in He. change (Z.of_nat 0) with 0 in He, Hrange.
  rewrite HT, He.
  rewrite to_int_id by (pose proof (Nat2Z.is_nonneg (length (concat (map fst fms)))); lia).
  repeat split. exact Hrange.
Qed.

Lemma emitted_normal_unit (sum n : gp_Vec) : emitted_normal sum n -> emitted_unit sum n.
Proof.
  unfold emitted_normal, emitted_unit. intros H n' Hbig Hn' Hunit.
  rewrite Hbig in H. rewrite H in Hn'. injection Hn' as <-.
  unfold unit_stored, push_Vec, unit_double in *. apply unit_within_cast. exact Hunit.
Qed.

Lemma face_normals_unit (fm : list gp_Pnt * list (Z * Z * Z)) (ns : list gp_Vec) :
  face_normals fm ns -> face_unit_normals fm ns.
Proof.
  unfold face_normals, face_unit_normals. intros H.
  eapply Forall2_impl; [exact H|]. intros sum n. apply emitted_normal_unit.
Qed.

(** C3, as amended.  In a mesh returned by [OCCT_Tessellate] the vertex
    array holds the nodes of the triangulated faces, face after face, and
    the normal array holds one normal per node, in the same order.  The
    normal of a node comes from the sum of the facet normals of the
    triangles of its face adjacent to it.  When the magnitude of the sum
    exceeds 1e-7, it is the kernel's normalization of that sum, and what
    is stored of it has magnitude 1 within 1e-5 whenever the
    normalization has length 1 within 1e-6 in double precision.  Otherwise
    it is the sum itself, left as it is. *)
Theorem OCCT_Tessellate_normals (shape : OCCT_Shape) (params : OCCT_TessellationParams)
    (w w' : world) (r : N) (m : OCCT_Mesh) :
  OCCT_Tessellate shape params w = (Val r, w') ->
  r <> nullptr ->
  heap w' !! r = Some (Obj_Mesh m) ->
  exists v' nss,
    heap w' !! shape = Some (Obj_Shape v') /\
    Forall2 face_normals (face_meshes (TopExp_Faces v')) nss /\
    Forall2 face_unit_normals (face_meshes (TopExp_Faces v')) nss /\
    vertices m = flat_map push_Pnt (concat (map fst (face_meshes (TopExp_Faces v')))) /\
    normals m = flat_map push_Vec (concat nss).
Proof.
  intros Hrun Hr Hm.
  destruct (OCCT_Tessellate_mesh shape params w w' r m Hrun Hr Hm)
    as (v' & b & _ & Hshape & Hwalk & _ & _ & ->).
  apply walk_spec in Hwalk as (nss & HN & _ & HV & HNo & _).
  exists v', nss. repeat split; try assumption.
  eapply Forall2_impl; [exact HN|]. intros fm ns. apply face_normals_unit.
Qed.

(** C7, as amended.  When [OCCT_Tessellate] returns, it returns null
    exactly when the handle is null, the shape is empty, the kernel's
    mesher raises or reports that it is not done, the walk over the faces
    raises, or the walk produces no vertex or no triangle.  A non-null
    result is a fresh handle to a mesh whose vertex and triangle arrays are
    not empty and hold whole triples; its two counts are at least 1 when
    they fit an [int]. *)
Theorem OCCT_Tessellate_null_exactly (shape : OCCT_Shape)
    (params : OCCT_TessellationParams) (w w' : world) (r : N) :
  OCCT_Tessellate shape params w = (Val r, w') ->
  (r = nullptr <-> null_cause w shape params) /\
  (r <> nullptr ->
   exists m,
     heap w !! r = None /\ heap w' !! r = Some (Obj_Mesh m) /\
     vertices m <> [] /\ triangles m <> [] /\
     (exists nv nt, Z.of_nat (length (vertices m)) = 3 * nv /\
                    Z.of_nat (length (triangles m)) = 3 * nt /\
                    (nv <= INT_MAX -> num_vertices m = nv /\ 1 <= num_vertices m) /\
                    (nt <= INT_MAX -> num_triangles m = nt /\ 1 <= num_triangles m))).
Proof.
  intros Hrun.
  destruct (OCCT_Tessellate_null_iff shape params w w' r Hrun) as [Hiff Hnn].
  split; [exact Hiff|]. intros Hr.
  destruct (Hnn Hr) as (v & v' & b & _ & _ & _ & _ & Hwalk & Hbv & Hbt & Hal).
  pose proof Hal as (_ & Hfree & Hheap & _). simpl in Hfree, Hheap.
  exists (make_mesh b).
  assert (Hfree' : heap w !! r = None).
  { destruct (N.eq_dec r shape) as [->|Hne].
    - rewrite lookup_insert_eq in Hfree. discriminate.
    - rewrite lookup_insert_ne in Hfree by congruence. exact Hfree. }
  split; [exact Hfree'|]. split; [rewrite Hheap; apply lookup_insert_eq|].
  unfold make_mesh. cbn [vertices triangles num_vertices num_triangles].
  split; [exact Hbv|]. split; [exact Hbt|].
  apply walk_spec in Hwalk as (nss & _ & _ & HV & _ & HT). simpl in HV, HT.
  destruct (length_emitted_triangles (face_meshes (TopExp_Faces v')) 0) as [kt Hkt].
  set (nodes := concat (map fst (face_meshes (TopExp_Faces v')))) in *.
  exists (Z.of_nat (length nodes)), (Z.of_nat kt).
  assert (Lv : length (buf_vertices b) = (3 * length nodes)%nat)
    by (rewrite HV; apply length_push_Pnt).
  assert (Lt : length (buf_triangles b) = (3 * kt)%nat) by (rewrite HT; exact Hkt).
  assert (Pv : (1 <= length nodes)%nat).
  { destruct (length nodes); [|lia]. destruct (buf_vertices b); [congruence|discriminate]. }
  assert (Pt : (1 <= kt)%nat).
  { destruct kt; [|lia]. destruct (buf_triangles b); [congruence|discriminate]. }
  rewrite Lv, Lt.
  replace (Z.of_nat (3 * length nodes) / 3) with (Z.of_nat (length nodes))
    by (rewrite Nat2Z.inj_mul, Z.mul_comm, Z.div_mul; lia).
  replace (Z.of_nat (3 * kt) / 3) with (Z.of_nat kt)
    by (rewrite Nat2Z.inj_mul, Z.mul_comm, Z.div_mul; lia).
  repeat split; try lia.
  - rewrite to_int_id by lia. reflexivity.
  - rewrite to_int_id by lia. lia.
  - rewrite to_int_id by lia. reflexivity.
  - rewrite to_int_id by lia. lia.
Qed.

End Facade_Properties.

(** ** The wrapper on the reference kernel *)

(** C1.  A box, a cylinder and a sphere built by the wrapper are solids,
    and [OCCT_Shape_Type] returns 2 for each of them, the kernel's number
    for [TopAbs_SOLID]; the numbering documented in the header gives 5. *)
Theorem OCCT_Shape_Type_of_box :
  fst ((box <- OCCT_Primitive_Box 1 1 1;; OCCT_Shape_Type box) world0) = Val 2 /\
  fst ((cyl <- OCCT_Primitive_Cylinder 1 2;; OCCT_Shape_Type cyl) world0) = Val 2 /\
  fst ((sph <- OCCT_Primitive_Sphere 1;; OCCT_Shape_Type sph) world0) = Val 2 /\
  static_cast_int TopAbs_SOLID = 2 /\
  documented_kind TopAbs_SOLID = Some 5.
Proof. repeat split; vm_compute; reflexivity. Qed.

(** C2, counterexample.  On the zero triple the [gp_Dir] constructor
    raises, [OCCT_Dir_Create] has no handler, and the exception leaves the
    function: no handle is returned. *)
Lemma OCCT_Dir_Create_zero_raises :
  OCCT_Dir_Create 0 0 0 world0 = (Throw Standard_ConstructionError, world0) /\
  ~ (exists r w', OCCT_Dir_Create 0 0 0 world0 = (Val r, w') /\ r <> nullptr).
Proof.
  assert (E : OCCT_Dir_Create 0 0 0 world0 = (Throw Standard_ConstructionError, world0))
    by (vm_compute; reflexivity).
  split; [exact E|].
  intros (r & w' & H & _). rewrite E in H. discriminate.
Qed.

Lemma gp_Create_spec_witness :
  exists d, gp_Dir_ctor 0 3 4 = KOk d /\
  exists r w', OCCT_Dir_Create 0 3 4 world0 = (Val r, w') /\
               allocated world0 w' r (Obj_Dir d).
Proof.
  eexists. split; [vm_compute; reflexivity|].
  apply (gp_Create_spec 0 3 4 world0). vm_compute; reflexivity.
Defined.



Lemma OCCT_Primitive_Torus_spec_witness :
  OCCT_Primitive_Torus 1 2 world0 = (Val nullptr, world0) /\
  exists r w',
    OCCT_Primitive_Torus 2 1 world0 = (Val r, w') /\
    r <> nullptr /\ heap world0 !! r = None /\
    heap w' = <[r := Obj_Shape Ref.round_shape]> (heap world0) /\
    calls w' = calls world0 ++ [Call_MakeTorus 2 1] /\
    (valid_solid Ref.round_shape ->
     fst (OCCT_Shape_IsValid r w') = Val true /\
     fst (OCCT_Shape_Type r w') = Val (static_cast_int TopAbs_SOLID)).
Proof.
  split.
  - apply (OCCT_Primitive_Torus_spec 1 2 world0). right. right. reflexivity.
  - eapply (OCCT_Primitive_Torus_spec 2 1 world0); try reflexivity.
    eexists. repeat split; reflexivity.
Defined.

Lemma OCCT_Primitive_Cone_validation_witness :
  cone_rejected 0 1 1 = false /\
  calls (snd (OCCT_Primitive_Cone 0 1 1 world0)) = [Call_MakeCone 0 1 1].
Proof.
  assert (R : cone_rejected 0 1 1 = false).
  { apply (OCCT_Primitive_Cone_validation 0 1 1 world0).
    - left. split; reflexivity.
    - reflexivity. }
  split; [exact R|].
  apply (OCCT_Primitive_Cone_validation 0 1 1 world0). exact R.
Defined.

(** C4, counterexample.  In [gap_polyline] two pairs are closer than 1e-7
    and are skipped; two pairs remain, but the edge of the second one starts
    2^-23 away from the end of the first, the wire builder cannot join it
    and reports not done: the call returns null although non-degenerate
    edges remain. *)
Lemma OCCT_Wire_FromPoints2D_gap :
  length (kept_segments (map on_XY gap_polyline) false) = 2%nat /\
  fst (OCCT_Wire_FromPoints2D (Some (coords2D gap_polyline)) 5 false world0)
  = Val nullptr.
Proof. split; vm_compute; reflexivity. Qed.

Lemma OCCT_Wire_FromPoints_spec_witness :
  OCCT_Wire_FromPoints2D (Some (coords2D repeat_polyline)) 4 true world0
  = wire_of_segments (kept_segments (map on_XY repeat_polyline) true) world0
  /\ length (kept_segments (map on_XY repeat_polyline) true) = 3%nat
  /\ fst (OCCT_Wire_FromPoints2D (Some (coords2D repeat_polyline)) 4 true world0) = Val 1%N.
Proof.
  split; [|split; vm_compute; reflexivity].
  apply (OCCT_Wire_FromPoints_spec repeat_polyline (map on_XY repeat_polyline) true world0).
  - simpl. lia.
  - simpl. unfold INT_MAX. lia.
  - simpl. lia.
  - simpl. unfold INT_MAX. lia.
Defined.

(** In the mesh of the thin box the first node of the first face has an
    accumulated sum of magnitude 2^-27, below 1e-7; the normal stored for
    it is that sum, (0, 0, -2^-27): its third component is not zero, and
    its magnitude is far from 1, computed in double precision or
    exactly. *)
Lemma thin_box_normal_is_raw_sum :
  exists (r : N) (m : OCCT_Mesh) (v' : TopoDS_Shape) fm fms x y z rest,
    fst thin_box_tessellated = Val r /\ r <> nullptr /\
    heap (snd thin_box_tessellated) !! r = Some (Obj_Mesh m) /\
    heap (snd thin_box_tessellated) !! 1%N = Some (Obj_Shape v') /\
    face_meshes (TopExp_Faces v') = fm :: fms /\
    (Magnitude (vertex_sum (fst fm) (snd fm) 0) <? tol_1e7)%float = true /\
    normals m = x :: y :: z :: rest /\
    float32_is_zero z = false /\
    (magnitude32 x y z <? 0.5)%float = true /\
    unit_within 100000 x y z = false.
Proof.
  do 9 eexists.
  split; [vm_compute; reflexivity|].
  split; [discriminate|].
  split; [vm_compute; reflexivity|].
  split; [vm_compute; reflexivity|].
  split; [vm_compute; reflexivity|].
  split; [vm_compute; reflexivity|].
  split; [vm_compute; reflexivity|].
  split; [vm_compute; reflexivity|].
  split; vm_compute; reflexivity.
Qed.

(** In the mesh of the huge box the first node of the first face has an
    accumulated sum whose third coordinate is about -2^601: its magnitude,
    the square root of a sum of squares, overflows to infinity, which
    exceeds 1e-7, and the kernel's normalization divides by it.  The
    normal stored is the zero vector, for a sum that is anything but
    zero, and its magnitude is not 1. *)
Lemma huge_box_normal_is_zero :
  exists (r : N) (m : OCCT_Mesh) (v' : TopoDS_Shape) fm fms n x y z rest,
    fst huge_box_tessellated = Val r /\ r <> nullptr /\
    heap (snd huge_box_tessellated) !! r = Some (Obj_Mesh m) /\
    heap (snd huge_box_tessellated) !! 1%N = Some (Obj_Shape v') /\
    face_meshes (TopExp_Faces v') = fm :: fms /\
    (Vec_Z (vertex_sum (fst fm) (snd fm) 0) <? -0x1p600)%float = true /\
    (tol_1e7 <? Magnitude (vertex_sum (fst fm) (snd fm) 0))%float = true /\
    Normalized (vertex_sum (fst fm) (snd fm) 0) = KOk n /\
    unit_double n = false /\
    normals m = x :: y :: z :: rest /\
    float32_is_zero x && float32_is_zero y && float32_is_zero z = true /\
    unit_within 100000 x y z = false.
Proof.
  do 10 eexists.
  split; [vm_compute; reflexivity|].
  split; [discriminate|].
  split; [vm_compute; reflexivity|].
  split; [vm_compute; reflexivity|].
  split; [vm_compute; reflexivity|].
  split; [vm_compute; reflexivity|].
  split; [vm_compute; reflexivity|].
  split; [vm_compute; reflexivity|].
  split; [vm_compute; reflexivity|].
  split; [vm_compute; reflexivity|].
  split; vm_compute; reflexivity.
Qed.

(** C3, counterexample.  Two meshes returned by [OCCT_Tessellate] on the
    reference kernel.  In the first, a node whose accumulated sum has a
    magnitude below 1e-7 gets this sum as its normal, not the zero vector.
    In the second, a node whose accumulated sum has a magnitude above
    1e-7 gets a normal that is not of magnitude 1: the zero vector. *)
Lemma stored_normals_not_as_claimed :
  (exists (r : N) (m : OCCT_Mesh) (v' : TopoDS_Shape) fm fms x y z rest,
     fst thin_box_tessellated = Val r /\ r <> nullptr /\
     heap (snd thin_box_tessellated) !! r = Some (Obj_Mesh m) /\
     heap (snd thin_box_tessellated) !! 1%N = Some (Obj_Shape v') /\
     face_meshes (TopExp_Faces v') = fm :: fms /\
     (Magnitude (vertex_sum (fst fm) (snd fm) 0) <? tol_1e7)%float = true /\
     normals m = x :: y :: z :: rest /\
     float32_is_zero z = false /\
     (magnitude32 x y z <? 0.5)%float = true /\
     unit_within 100000 x y z = false) /\
  (exists (r : N) (m : OCCT_Mesh) (v' : TopoDS_Shape) fm fms n x y z rest,
     fst huge_box_tessellated = Val r /\ r <> nullptr /\
     heap (snd huge_box_tessellated) !! r = Some (Obj_Mesh m) /\
     heap (snd huge_box_tessellated) !! 1%N = Some (Obj_Shape v') /\
     face_meshes (TopExp_Faces v') = fm :: fms /\
     (Vec_Z (vertex_sum (fst fm) (snd fm) 0) <? -0x1p600)%float = true /\
     (tol_1e7 <? Magnitude (vertex_sum (fst fm) (snd fm) 0))%float = true /\
     Normalized (vertex_sum (fst fm) (snd fm) 0) = KOk n /\
     unit_double n = false /\
     normals m = x :: y :: z :: rest /\
     float32_is_zero x && float32_is_zero y && float32_is_zero z = true /\
     unit_within 100000 x y z = false).
Proof.
  split; [exact thin_box_normal_is_raw_sum|exact huge_box_normal_is_zero].
Qed.

Lemma OCCT_Tessellate_normals_witness :
  exists (m : OCCT_Mesh),
    heap (snd cube_tessellated) !! 2%N = Some (Obj_Mesh m) /\
    all_unit_stored (normals m) = true /\
    exists v' nss,
      heap (snd cube_tessellated) !! 1%N = Some (Obj_Shape v') /\
      Forall2 face_normals (face_meshes (TopExp_Faces v')) nss /\
      Forall2 face_unit_normals (face_meshes (TopExp_Faces v')) nss /\
      vertices m = flat_map push_Pnt (concat (map fst (face_meshes (TopExp_Faces v')))) /\
      normals m = flat_map push_Vec (concat nss).
Proof.
  eexists. split; [vm_compute; reflexivity|].
  split; [vm_compute; reflexivity|].
  eapply (OCCT_Tessellate_normals 1%N coarse_params world_cube (snd cube_tessellated) 2%N).
  - vm_compute; reflexivity.
  - discriminate.
  - vm_compute; reflexivity.
Defined.

Lemma OCCT_Tessellate_indices_witness :
  exists (m : OCCT_Mesh),
    heap (snd cube_tessellated) !! 2%N = Some (Obj_Mesh m) /\
    num_vertices m = 24 /\
    exists v',
      heap (snd cube_tessellated) !! 1%N = Some (Obj_Shape v') /\
      triangles m = offset_triangles 0 (face_meshes (TopExp_Faces v')) /\
      num_vertices m
      = Z.of_nat (length (concat (map fst (face_meshes (TopExp_Faces v'))))) /\
      Forall (fun t => 0 <= t < num_vertices m) (triangles m).
Proof.
  eexists. split; [vm_compute; reflexivity|]. split; [reflexivity|].
  eapply (OCCT_Tessellate_indices 1%N coarse_params world_cube (snd cube_tessellated) 2%N).
  - vm_compute; reflexivity.
  - discriminate.
  - vm_compute; reflexivity.
  - vm_compute; discriminate.
Defined.

(** C7, counterexample.  The cube at the address 1 has been tessellated
    once, so its faces carry triangulations.  Asked again with a linear
    deflection of zero, the mesher raises and the call returns null,
    although the handle is not null, the shape is not empty, and the walk
    over its faces yields vertices and triangles. *)
Lemma OCCT_Tessellate_refused_deflection :
  fst (OCCT_Tessellate 1%N zero_deflection (snd cube_tessellated)) = Val nullptr /\
  ~ claimed_null_cause (snd cube_tessellated) 1%N.
Proof.
  split; [vm_compute; reflexivity|].
  intros [H|(v & Hv & [H|(b & Hb & H)])].
  - discriminate H.
  - vm_compute in Hv. injection Hv as <-. vm_compute in H. discriminate H.
  - vm_compute in Hv. injection Hv as <-. vm_compute in Hb. injection Hb as <-.
    destruct H as [H|H]; vm_compute in H; discriminate H.
Qed.

Lemma OCCT_Tessellate_null_exactly_witness :
  (2%N = nullptr <-> null_cause world_cube 1%N coarse_params) /\
  (2%N <> nullptr ->
   exists m,
     heap world_cube !! 2%N = None /\
     heap (snd cube_tessellated) !! 2%N = Some (Obj_Mesh m) /\
     vertices m <> [] /\ triangles m <> [] /\
     (exists nv nt, Z.of_nat (length (vertices m)) = 3 * nv /\
                    Z.of_nat (length (triangles m)) = 3 * nt /\
                    (nv <= INT_MAX -> num_vertices m = nv /\ 1 <= num_vertices m) /\
                    (nt <= INT_MAX -> num_triangles m = nt /\ 1 <= num_triangles m))).
Proof.
  apply (OCCT_Tessellate_null_exactly 1%N coarse_params world_cube (snd cube_tessellated)).
  vm_compute; reflexivity.
Defined.

(** ** Further properties of the wrapper *)

(** One step through a wrapper function: a test, a kernel outcome, a read
    of the heap, an allocation. *)
Ltac path_step :=
  match goal with
  | |- context [new ?o ?w] =>
      let r := fresh "r" in let w' := fresh "w'" in
      let Hn := fresh "Hnew" in let Ha := fresh "Hal" in
      destruct (new_allocated o w) as (r & w' & Hn & Ha); rewrite Hn
  | |- context [match heap ?w !! ?a with _ => _ end] =>
      let E := fresh "Hread" in destruct (heap w !! a) as [[]|] eqn:E
  | |- context [of_kres ?x] =>
      let E := fresh "Hk" in destruct x eqn:E
  | |- context [if ?b then _ else _] =>
      let E := fresh "Hif" in destruct b eqn:E
  end; simpl.

Ltac paths := run; repeat path_step.

Opaque new.

Section More_Properties.
Context {K : Kernel} {KX : KernelExt K}.

Lemma allocated_null_or_fresh (w0 w w' : world) (r : N) (s : TopoDS_Shape) :
  heap w = heap w0 -> allocated w w' r (Obj_Shape s) -> null_or_fresh w0 w' r.
Proof.
  intros E (Hr & Hfree & Hheap & _). right. rewrite <- E.
  split; [exact Hr|]. split; [exact Hfree|]. exists s. exact Hheap.
Qed.

Ltac finish_factory :=
  eexists _, _; split; [reflexivity|];
  first [ left; split; reflexivity
        | eapply allocated_null_or_fresh; [|eassumption]; reflexivity ].

(** X1.  The six factories of primitives that read nothing from the heap
    always return, whatever the kernel does: either null, the heap being
    as it was, or a fresh non-null handle, the heap being extended by
    exactly one shape. *)
Theorem primitives_all_or_nothing (a b c d e f : double) (w : world) :
  Forall (fun m : M OCCT_Shape => exists r w', m w = (Val r, w') /\ null_or_fresh w w' r)
    [OCCT_Primitive_Box a b c;
     OCCT_Primitive_Box_TwoCorners a b c d e f;
     OCCT_Primitive_Cylinder a b;
     OCCT_Primitive_Sphere a;
     OCCT_Primitive_Cone a b c;
     OCCT_Primitive_Torus a b].
Proof.
  repeat constructor.
  all: unfold OCCT_Primitive_Box, OCCT_Primitive_Box_TwoCorners,
         OCCT_Primitive_Cylinder, OCCT_Primitive_Sphere, OCCT_Primitive_Cone,
         OCCT_Primitive_Torus, build_and_wrap, algorithm.
  all: paths; finish_factory.
Qed.

Lemma read_double_heap (points : list double) (j : Z) (w : world) :
  snd (read_double points j w) = w.
Proof. reflexivity. Qed.

Lemma point2D_world (points : list double) (j : Z) (w : world) :
  snd (point2D points j w) = w.
Proof.
  unfold point2D, read_double. run.
  destruct (at_index points (int_mul j 2)); simpl; try reflexivity.
  destruct (at_index points (int_add (int_mul j 2) 1)); reflexivity.
Qed.

Lemma point3D_world (points : list double) (j : Z) (w : world) :
  snd (point3D points j w) = w.
Proof.
  unfold point3D, read_double. run.
  destruct (at_index points (int_mul j 3)); simpl; try reflexivity.
  destruct (at_index points (int_add (int_mul j 3) 1)); simpl; try reflexivity.
  destruct (at_index points (int_add (int_mul j 3) 2)); reflexivity.
Qed.

(** The loop over the points leaves the heap alone and asks for at most
    one edge per turn. *)
Lemma wire_loop_effect (point : Z -> M gp_Pnt) (num_points : Z) (closed : bool) :
  (forall j w, snd (point j w) = w) ->
  forall (fuel : nat) (i : Z) (wireBuilder : MakeWire) (w : world),
    heap (snd (wire_loop point num_points closed fuel i wireBuilder w)) = heap w /\
    exists l,
      calls (snd (wire_loop point num_points closed fuel i wireBuilder w)) = calls w ++ l /\
      (edge_requests l <= fuel)%nat.
Proof.
  intros Hp. induction fuel as [|fuel IH]; intros i wb w.
  - simpl. destruct (negb (i <? num_points)); simpl;
      (split; [reflexivity|exists []; rewrite app_nil_r; split;
       [reflexivity|unfold edge_requests; simpl; lia]]).
  - set (P := fun x : result MakeWire * world =>
                heap (snd x) = heap w /\
                exists l, calls (snd x) = calls w ++ l /\ (edge_requests l <= S fuel)%nat).
    change (P (wire_loop point num_points closed (S fuel) i wb w)).
    assert (Hstay : forall (r : result MakeWire), P (r, w)).
    { intros r. split; [reflexivity|]. exists []. simpl. rewrite app_nil_r.
      split; [reflexivity|unfold edge_requests; simpl; lia]. }
    assert (Hnext : forall j wb', P (wire_loop point num_points closed fuel j wb' w)).
    { intros j wb'. destruct (IH j wb' w) as (H1 & l & H2 & H3).
      split; [exact H1|]. exists l. split; [exact H2|lia]. }
    rewrite wire_loop_unfold. unfold ret.
    destruct (negb (i <? num_points)); [apply (Hstay (Val wb))|]. cbv zeta.
    destruct ((i =? int_sub num_points 1) && negb closed); [apply (Hstay (Val wb))|].
    unfold bind at 1, M_bind.
    pose proof (Hp i w) as E1. destruct (point i w) as [r1 w1]. simpl in E1. subst w1.
    destruct r1 as [p1|e|]; cbv beta iota;
      [|apply (Hstay (Throw e))|apply (Hstay Undefined)].
    unfold bind at 1, M_bind.
    pose proof (Hp (int_rem (int_add i 1) num_points) w) as E2.
    destruct (point (int_rem (int_add i 1) num_points) w) as [r2 w2]. simpl in E2. subst w2.
    destruct r2 as [p2|e|]; cbv beta iota;
      [|apply (Hstay (Throw e))|apply (Hstay Undefined)].
    destruct (Distance p1 p2 <? tol_1e7)%float; [apply Hnext|].
    set (w1 := mk_world (heap w) (calls w ++ [Call_MakeEdge p1 p2])).
    assert (Hlog : forall (r : result MakeWire) l0 (w' : world),
              heap w' = heap w -> calls w' = calls w ++ Call_MakeEdge p1 p2 :: l0 ->
              edge_requests l0 = 0%nat -> P (r, w')).
    { intros r l0 w' Hh Hc Hl0. split; [exact Hh|]. exists (Call_MakeEdge p1 p2 :: l0).
      split; [exact Hc|]. unfold edge_requests in *. simpl. lia. }
    assert (Hnext1 : forall j wb' (w' : world) l0,
              heap w' = heap w -> calls w' = calls w ++ Call_MakeEdge p1 p2 :: l0 ->
              edge_requests l0 = 0%nat ->
              P (wire_loop point num_points closed fuel j wb' w')).
    { intros j wb' w' l0 Hh Hc Hl0. destruct (IH j wb' w') as (H1 & l & H2 & H3).
      split; [congruence|]. exists (Call_MakeEdge p1 p2 :: l0 ++ l).
      split; [rewrite H2, Hc, <- app_assoc; reflexivity|].
      unfold edge_requests in *. simpl. rewrite List.filter_app, length_app. lia. }
    unfold bind, M_bind, kernel, inline, lift. fold w1.
    destruct (BRepBuilderAPI_MakeEdge p1 p2) as [eb|e]; simpl;
      [|apply (Hlog _ [] w1); reflexivity].
    destruct (IsDone eb); simpl.
    2:{ apply (Hnext1 _ _ w1 []); reflexivity. }
    destruct (Shape eb) as [edge|e]; simpl; [|apply (Hlog _ [] w1); reflexivity].
    destruct (Add wb edge) as [wb'|e]; simpl.
    + apply (Hnext1 _ _ _ [Call_Add edge]); try reflexivity.
      simpl. rewrite <- app_assoc. reflexivity.
    + apply (Hlog _ [Call_Add edge]); try reflexivity.
      simpl. rewrite <- app_assoc. reflexivity.
Qed.

Ltac finish_outcome :=
  first [ exact I
        | left; split; reflexivity
        | eapply allocated_null_or_fresh; [|eassumption]; reflexivity ].

Lemma wire_function_effect (point : Z -> M gp_Pnt) (num_points : Z) (closed : bool)
    (w : world) :
  (forall j w, snd (point j w) = w) ->
  let m := try_catch
             (wireBuilder <- wire_loop point num_points closed (Z.to_nat num_points) 0
                               BRepBuilderAPI_MakeWire;;
              wire_finish wireBuilder)
             (fun _ => ret nullptr) in
  factory_outcome m w /\
  exists l, calls (snd (m w)) = calls w ++ l /\ (edge_requests l <= Z.to_nat num_points)%nat.
Proof.
  intros Hp m. subst m. unfold factory_outcome, try_catch, bind, M_bind.
  destruct (wire_loop_effect point num_points closed Hp (Z.to_nat num_points) 0
              BRepBuilderAPI_MakeWire w) as (Hh & l & Hc & Hl).
  destruct (wire_loop point num_points closed (Z.to_nat num_points) 0
              BRepBuilderAPI_MakeWire w) as [[wb|e|] w1]; simpl in Hh, Hc.
  - unfold wire_finish. run.
    destruct (Wire_IsDone wb); simpl.
    2:{ split; [left; split; [reflexivity|exact Hh]|exists l; split; assumption]. }
    destruct (Wire wb) as [s|e]; simpl.
    2:{ split; [left; split; [reflexivity|exact Hh]|exists l; split; assumption]. }
    destruct (new_allocated (Obj_Shape s) w1) as (r & w' & Hn & Ha). rewrite Hn. simpl.
    split; [eapply allocated_null_or_fresh; eassumption|].
    exists l. split; [|exact Hl]. destruct Ha as (_ & _ & _ & ->). exact Hc.
  - unfold ret. simpl.
    split; [left; split; [reflexivity|exact Hh]|exists l; split; assumption].
  - split; [exact I|exists l; split; assumption].
Qed.

Lemma nothing_lost_refl (h : gmap N object) : nothing_lost h h.
Proof.
  intros a o H. exists o. split; [exact H|]. destruct o; simpl; eauto.
Qed.

Lemma survives_trans (o1 o2 o3 : object) :
  survives o1 o2 -> survives o2 o3 -> survives o1 o3.
Proof.
  destruct o1; simpl; try (intros ->; simpl; auto).
  intros [v ->]. simpl. auto.
Qed.

Lemma nothing_lost_trans (h1 h2 h3 : gmap N object) :
  nothing_lost h1 h2 -> nothing_lost h2 h3 -> nothing_lost h1 h3.
Proof.
  intros H12 H23 a o Ha. destruct (H12 a o Ha) as (o2 & H2 & S2).
  destruct (H23 a o2 H2) as (o3 & H3 & S3). exists o3. split; [exact H3|].
  eapply survives_trans; eassumption.
Qed.

(** The kernel leaving something else in a shape releases nothing. *)
Lemma nothing_lost_touch (h : gmap N object) (a : N) (v v' : TopoDS_Shape) :
  h !! a = Some (Obj_Shape v) ->
  nothing_lost h (<[a := Obj_Shape v']> h) /\
  (forall b, h !! b = None -> <[a := Obj_Shape v']> h !! b = None).
Proof.
  intros Ha. split.
  - intros b o Hb. destruct (N.eq_dec a b) as [<-|Hne].
    + exists (Obj_Shape v'). rewrite lookup_insert_eq. split; [reflexivity|].
      rewrite Ha in Hb. injection Hb as <-. simpl. eauto.
    + exists o. rewrite lookup_insert_ne by exact Hne. split; [exact Hb|].
      destruct o; simpl; eauto.
  - intros b Hb. rewrite lookup_insert_ne by congruence. exact Hb.
Qed.

(** An allocation releases nothing. *)
Lemma nothing_lost_alloc (h : gmap N object) (r : N) (o : object) :
  h !! r = None ->
  nothing_lost h (<[r := o]> h) /\ nothing_new_but r h (<[r := o]> h).
Proof.
  intros Hr. split.
  - intros b o' Hb. exists o'. rewrite lookup_insert_ne by congruence.
    split; [exact Hb|]. destruct o'; simpl; eauto.
  - intros b Hb Hne. rewrite lookup_insert_ne by congruence. exact Hb.
Qed.

Lemma careful_null (w w' : world) :
  heap w' = heap w ->
  nothing_lost (heap w) (heap w') /\ nothing_new_but nullptr (heap w) (heap w') /\
  (nullptr = nullptr \/
   (heap w !! nullptr = None /\ exists s, heap w' !! nullptr = Some (Obj_Shape s))).
Proof.
  intros ->. split; [apply nothing_lost_refl|]. split; [|left; reflexivity].
  intros a Ha _. exact Ha.
Qed.

Lemma careful_allocated (w0 w w' : world) (r : N) (s : TopoDS_Shape) :
  heap w = heap w0 -> allocated w w' r (Obj_Shape s) ->
  nothing_lost (heap w0) (heap w') /\ nothing_new_but r (heap w0) (heap w') /\
  (r = nullptr \/
   (heap w0 !! r = None /\ exists s, heap w' !! r = Some (Obj_Shape s))).
Proof.
  intros E (Hr & Hfree & Hheap & _). rewrite <- E, Hheap.
  destruct (nothing_lost_alloc (heap w) r (Obj_Shape s) Hfree) as [HL HN].
  split; [exact HL|]. split; [exact HN|]. right. split; [exact Hfree|].
  exists s. apply lookup_insert_eq.
Qed.

Ltac finish_careful :=
  first [ exact I
        | apply careful_null; reflexivity
        | eapply careful_allocated; [|eassumption]; reflexivity ].

Lemma boolean_body_careful
    (call : TopoDS_Shape -> TopoDS_Shape -> kcall)
    (algo : TopoDS_Shape -> TopoDS_Shape
            -> kres MakeShape * (TopoDS_Shape * TopoDS_Shape))
    (shape1 shape2 : OCCT_Shape) (w : world) :
  careful_outcome (boolean_body call algo shape1 shape2) w.
Proof.
  unfold careful_outcome, boolean_body, kernel_by_reference.
  destruct ((shape1 =? 0)%N || (shape2 =? 0)%N); [apply careful_null; reflexivity|].
  run. destruct (heap w !! shape1) as [[v1| | | |]|] eqn:H1; simpl; try exact I.
  destruct (IsNull v1); simpl; [apply careful_null; reflexivity|].
  destruct (heap w !! shape2) as [[v2| | | |]|] eqn:H2; simpl; try exact I.
  destruct (IsNull v2); simpl; [apply careful_null; reflexivity|].
  destruct (algo v1 v2) as [outcome [v1' v2']]. simpl.
  set (h1 := <[shape1 := Obj_Shape v1']> (heap w)).
  set (h2 := <[shape2 := Obj_Shape v2']> h1).
  destruct (nothing_lost_touch (heap w) shape1 v1 v1' H1) as [L1 F1]. fold h1 in L1, F1.
  assert (H2' : exists v, h1 !! shape2 = Some (Obj_Shape v)).
  { destruct (L1 shape2 _ H2) as (o' & Ho' & [v ->]). exists v. exact Ho'. }
  destruct H2' as [v2'' H2'].
  destruct (nothing_lost_touch h1 shape2 v2'' v2' H2') as [L2 F2]. fold h2 in L2, F2.
  assert (L : nothing_lost (heap w) h2) by (eapply nothing_lost_trans; eassumption).
  assert (F : forall b, heap w !! b = None -> h2 !! b = None) by auto.
  assert (Hnull : nothing_lost (heap w) h2 /\ nothing_new_but nullptr (heap w) h2 /\
                  (nullptr = nullptr \/
                   (heap w !! nullptr = None /\
                    exists s, h2 !! nullptr = Some (Obj_Shape s)))).
  { split; [exact L|]. split; [|left; reflexivity]. intros b Hb _. auto. }
  destruct outcome as [op|e]; simpl; [|exact Hnull].
  destruct (IsDone op); simpl; [|exact Hnull].
  destruct (Shape op) as [s|e]; simpl; [|exact Hnull].
  destruct (new_allocated (Obj_Shape s)
              (mk_world h2 (calls w ++ [call v1 v2]))) as (r & w' & Hn & Ha).
  rewrite Hn. destruct Ha as (Hr & Hfree & Hheap & _). simpl in Hfree, Hheap.
  destruct (nothing_lost_alloc h2 r (Obj_Shape s) Hfree) as [LA NA].
  rewrite Hheap. split; [eapply nothing_lost_trans; eassumption|]. split.
  - intros b Hb Hne. apply NA; auto.
  - right. split.
    + destruct (heap w !! r) as [o|] eqn:Hwr; [|reflexivity].
      destruct (L r o Hwr) as (o' & Ho' & _). congruence.
    + exists s. apply lookup_insert_eq.
Qed.

(** X2.  No factory lets an exception out, whatever the kernel does and
    whatever the handles are.  The two placed primitives that read a point
    or a direction, and the two wire functions, end when they return in
    one of two ways: null with the heap as it was, or a fresh non-null
    handle with the heap extended by exactly one shape.  The two
    extrusions and the three Boolean operations hand shapes of the heap to
    the kernel; when they return, nothing has been released, every object
    that is not a shape is as it was, every shape handle still holds a
    shape, and at most one address has come into use: the non-null
    result, which holds a shape. *)
Theorem factories_all_or_nothing (h1 h2 : N) (x y z : double)
    (points : option (list double)) (num_points : Z) (closed : bool) (w : world) :
  Forall (fun m : M OCCT_Shape => factory_outcome m w)
    [OCCT_Primitive_Cylinder_Axis h1 h2 x y;
     OCCT_Primitive_Sphere_Center h1 x;
     OCCT_Wire_FromPoints2D points num_points closed;
     OCCT_Wire_FromPoints3D points num_points closed] /\
  Forall (fun m : M OCCT_Shape => careful_outcome m w)
    [OCCT_Extrude_Wire h1 x y z;
     OCCT_Extrude_Face h1 x y z;
     OCCT_Boolean_Union h1 h2;
     OCCT_Boolean_Difference h1 h2;
     OCCT_Boolean_Intersection h1 h2].
Proof.
  split; repeat constructor.
  1-2: unfold factory_outcome, OCCT_Primitive_Cylinder_Axis,
         OCCT_Primitive_Sphere_Center, algorithm, read_Pnt, read_Dir;
       paths; finish_outcome.
  - unfold OCCT_Wire_FromPoints2D. destruct points as [points|];
      [|unfold factory_outcome; simpl; left; split; reflexivity].
    destruct (num_points <? 2); [unfold factory_outcome; simpl; left; split; reflexivity|].
    apply (wire_function_effect (point2D points) num_points closed w).
    intros j w0. apply point2D_world.
  - unfold OCCT_Wire_FromPoints3D. destruct points as [points|];
      [|unfold factory_outcome; simpl; left; split; reflexivity].
    destruct (num_points <? 2); [unfold factory_outcome; simpl; left; split; reflexivity|].
    apply (wire_function_effect (point3D points) num_points closed w).
    intros j w0. apply point3D_world.
  - unfold careful_outcome, OCCT_Extrude_Wire, ShapeType_of, algorithm.
    paths; finish_careful.
  - unfold careful_outcome, OCCT_Extrude_Face, algorithm. paths; finish_careful.
  - apply boolean_body_careful.
  - apply boolean_body_careful.
  - apply boolean_body_careful.
Qed.

(** X3.  Whatever the array, the count and the kernel, a wire function
    asks the kernel for at most [num_points] edges. *)
Theorem wire_edge_requests_bounded (points : option (list double)) (num_points : Z)
    (closed : bool) (w : world) :
  Forall (fun m : M OCCT_Wire =>
            exists l, calls (snd (m w)) = calls w ++ l /\
                      (edge_requests l <= Z.to_nat num_points)%nat)
    [OCCT_Wire_FromPoints2D points num_points closed;
     OCCT_Wire_FromPoints3D points num_points closed].
Proof.
  assert (Hnone : exists l : list kcall,
            calls w = calls w ++ l /\ (edge_requests l <= Z.to_nat num_points)%nat).
  { exists []. rewrite app_nil_r. split; [reflexivity|unfold edge_requests; simpl; lia]. }
  repeat constructor.
  - unfold OCCT_Wire_FromPoints2D. destruct points as [points|]; [|exact Hnone].
    destruct (num_points <? 2); [exact Hnone|].
    apply (wire_function_effect (point2D points) num_points closed w).
    intros j w0. apply point2D_world.
  - unfold OCCT_Wire_FromPoints3D. destruct points as [points|]; [|exact Hnone].
    destruct (num_points <? 2); [exact Hnone|].
    apply (wire_function_effect (point3D points) num_points closed w).
    intros j w0. apply point3D_world.
Qed.

(** Releasing what was just allocated gives the heap back. *)
Lemma delete_allocated (is_kind : object -> bool) (w w' : world) (r : N) (o : object) :
  allocated w w' r o -> is_kind o = true ->
  delete_as is_kind r w' = (Val tt, mk_world (heap w) (calls w')).
Proof.
  intros (_ & Hfree & Hheap & _) Hk. unfold delete_as.
  rewrite Hheap, lookup_insert_eq, Hk, delete_insert_id by exact Hfree. reflexivity.
Qed.

Lemma delete_null_or_fresh (w0 w' : world) (r : N) :
  null_or_fresh w0 w' r ->
  exists w'', OCCT_Shape_Delete r w' = (Val tt, w'') /\ heap w'' = heap w0.
Proof.
  unfold OCCT_Shape_Delete, toShape. intros [[-> E]|(Hr & Hfree & s & Hheap)].
  - simpl. exists w'. split; [reflexivity|exact E].
  - rewrite (N_eqb_nullptr _ Hr). unfold delete_as.
    rewrite Hheap, lookup_insert_eq. simpl. eexists. split; [reflexivity|]. simpl.
    apply delete_insert_id. exact Hfree.
Qed.

(** X4.  Creating and releasing at once leaves the heap as it was: a
    point or a vector created and deleted, and a primitive built by any of
    the six factories and deleted, whether the factory returned a shape or
    null; the two calls always return. *)
Theorem create_then_delete (a b c d e f : double) (w : world) :
  (exists w', (p <- OCCT_Pnt_Create a b c;; OCCT_Pnt_Delete p) w = (Val tt, w') /\
              heap w' = heap w) /\
  (exists w', (v <- OCCT_Vec_Create a b c;; OCCT_Vec_Delete v) w = (Val tt, w') /\
              heap w' = heap w) /\
  Forall (fun m : M OCCT_Shape =>
            exists w', (s <- m;; OCCT_Shape_Delete s) w = (Val tt, w') /\ heap w' = heap w)
    [OCCT_Primitive_Box a b c;
     OCCT_Primitive_Box_TwoCorners a b c d e f;
     OCCT_Primitive_Cylinder a b;
     OCCT_Primitive_Sphere a;
     OCCT_Primitive_Cone a b c;
     OCCT_Primitive_Torus a b].
Proof.
  split; [|split].
  - unfold OCCT_Pnt_Create, OCCT_Pnt_Delete, bind, M_bind.
    destruct (new_allocated (Obj_Pnt (mk_gp_Pnt a b c)) w) as (r & w' & Hn & Ha).
    rewrite Hn. rewrite (N_eqb_nullptr r) by apply Ha.
    rewrite (delete_allocated is_Pnt w w' r _ Ha eq_refl).
    eexists. split; reflexivity.
  - unfold OCCT_Vec_Create, OCCT_Vec_Delete, bind, M_bind.
    destruct (new_allocated (Obj_Vec (mk_gp_Vec a b c)) w) as (r & w' & Hn & Ha).
    rewrite Hn. rewrite (N_eqb_nullptr r) by apply Ha.
    rewrite (delete_allocated is_Vec w w' r _ Ha eq_refl).
    eexists. split; reflexivity.
  - assert (Hthen : forall m : M OCCT_Shape,
              (exists r w', m w = (Val r, w') /\ null_or_fresh w w' r) ->
              exists w', (s <- m;; OCCT_Shape_Delete s) w = (Val tt, w') /\ heap w' = heap w).
    { intros m (r & w' & Hm & Hout). unfold bind, M_bind. rewrite Hm.
      apply delete_null_or_fresh. exact Hout. }
    repeat constructor; apply Hthen.
    all: unfold OCCT_Primitive_Box, OCCT_Primitive_Box_TwoCorners,
           OCCT_Primitive_Cylinder, OCCT_Primitive_Sphere, OCCT_Primitive_Cone,
           OCCT_Primitive_Torus, build_and_wrap, algorithm.
    all: paths; finish_factory.
Qed.

(** The heap after a tessellation: as it was, or with what the mesher left
    in the shape, and then possibly one mesh more. *)
Lemma OCCT_Tessellate_heap (shape : OCCT_Shape) (params : OCCT_TessellationParams)
    (w : world) :
  match OCCT_Tessellate shape params w with
  | (Val r, w') =>
      (r = nullptr /\ heap w' = heap w) \/
      exists v v',
        heap w !! shape = Some (Obj_Shape v) /\
        ((r = nullptr /\ heap w' = <[shape := Obj_Shape v']> (heap w)) \/
         (r <> nullptr /\ <[shape := Obj_Shape v']> (heap w) !! r = None /\
          exists m, heap w' = <[r := Obj_Mesh m]> (<[shape := Obj_Shape v']> (heap w))))
  | (Throw _, _) => False
  | (Undefined, _) => True
  end.
Proof.
  unfold OCCT_Tessellate.
  destruct (shape =? 0)%N eqn:Hz; simpl.
  { left. split; reflexivity. }
  run. destruct (heap w !! shape) as [[v| | | |]|] eqn:Hv; simpl; try exact I.
  destruct (IsNull v); simpl.
  { left. split; reflexivity. }
  destruct (BRepMesh_IncrementalMesh v (linear_deflection params) (relative params)
              (angular_deflection params)) as [[done v']|e]; simpl.
  2:{ left. split; reflexivity. }
  assert (Hnull : (nullptr = nullptr /\
                   <[shape := Obj_Shape v']> (heap w) = heap w) \/
                  exists v0 v'0,
                    Some (Obj_Shape v) = Some (Obj_Shape v0) /\
                    ((nullptr = nullptr /\
                      <[shape := Obj_Shape v']> (heap w)
                      = <[shape := Obj_Shape v'0]> (heap w)) \/
                     (nullptr <> nullptr /\
                      <[shape := Obj_Shape v'0]> (heap w) !! nullptr = None /\
                      exists m, <[shape := Obj_Shape v']> (heap w)
                                = <[nullptr := Obj_Mesh m]>
                                    (<[shape := Obj_Shape v'0]> (heap w))))).
  { right. exists v, v'. split; [reflexivity|]. left. split; reflexivity. }
  destruct done; simpl; [|exact Hnull].
  destruct (walk_faces (TopExp_Faces v')) as [b|e|]; simpl;
    [|exact Hnull|exact I].
  destruct (is_empty (buf_vertices b) || is_empty (buf_triangles b)); simpl;
    [exact Hnull|].
  destruct (new_allocated (Obj_Mesh (make_mesh b))
              (mk_world (<[shape := Obj_Shape v']> (heap w))
                        (calls w ++ [Call_IncrementalMesh v params])))
    as (r & w' & Hn & Ha).
  rewrite Hn. destruct Ha as (Hr & Hfree & Hheap & _). simpl in Hfree, Hheap.
  right. exists v, v'. split; [reflexivity|]. right.
  split; [exact Hr|]. split; [exact Hfree|]. exists (make_mesh b). exact Hheap.
Qed.

(** X5.  [OCCT_Tessellate] lets no exception out.  When it returns,
    nothing has been released: every object that is not a shape is still
    in the heap, unchanged, and every handle to a shape still holds a
    shape (the mesher stores triangulations in the shape it is given and
    in the data this shape shares with others).  The result is null or a
    handle, free before the call, to a mesh, and no other address has
    come into use. *)
Theorem OCCT_Tessellate_frame (shape : OCCT_Shape) (params : OCCT_TessellationParams)
    (w : world) :
  match OCCT_Tessellate shape params w with
  | (Val r, w') =>
      nothing_lost (heap w) (heap w') /\
      nothing_new_but r (heap w) (heap w') /\
      (r = nullptr \/
       r <> shape /\ heap w !! r = None /\ exists m, heap w' !! r = Some (Obj_Mesh m))
  | (Throw _, _) => False
  | (Undefined, _) => True
  end.
Proof.
  pose proof (OCCT_Tessellate_heap shape params w) as H.
  destruct (OCCT_Tessellate shape params w) as [[r|e|] w']; [|exact H|exact I].
  destruct H as [[-> E]|(v & v' & Hv & [[-> E]|(Hr & Hfree & m & E)])]; rewrite E.
  - split; [apply nothing_lost_refl|]. split; [intros a Ha _; exact Ha|left; reflexivity].
  - destruct (nothing_lost_touch (heap w) shape v v' Hv) as [L F].
    split; [exact L|]. split; [intros a Ha _; auto|left; reflexivity].
  - destruct (nothing_lost_touch (heap w) shape v v' Hv) as [L F].
    destruct (nothing_lost_alloc _ r (Obj_Mesh m) Hfree) as [LA NA].
    assert (Hrs : r <> shape).
    { intros ->. rewrite lookup_insert_eq in Hfree. discriminate. }
    split; [eapply nothing_lost_trans; eassumption|]. split.
    + intros a Ha Hne. apply NA; auto.
    + right. split; [exact Hrs|]. split.
      * rewrite lookup_insert_ne in Hfree by congruence. exact Hfree.
      * exists m. apply lookup_insert_eq.
Qed.

(** X6.  A mesh obtained from [OCCT_Tessellate] and released at once by
    [OCCT_Mesh_Delete] leaves nothing behind: the two calls let no
    exception out and, when they return, no address is in use that was
    not in use before, nothing has been released, every object that is
    not a shape is as it was, and every shape handle still holds a
    shape. *)
Theorem tessellate_then_delete (shape : OCCT_Shape) (params : OCCT_TessellationParams)
    (w : world) :
  match (mesh <- OCCT_Tessellate shape params;; OCCT_Mesh_Delete mesh) w with
  | (Val _, w') =>
      nothing_lost (heap w) (heap w') /\
      (forall a, heap w !! a = None -> heap w' !! a = None)
  | (Throw _, _) => False
  | (Undefined, _) => True
  end.
Proof.
  unfold bind at 1, M_bind.
  pose proof (OCCT_Tessellate_heap shape params w) as H.
  destruct (OCCT_Tessellate shape params w) as [[r|e|] w']; [|exact H|exact I].
  unfold OCCT_Mesh_Delete, delete_as.
  destruct H as [[-> E]|(v & v' & Hv & [[-> E]|(Hr & Hfree & m & E)])].
  - simpl. rewrite E. split; [apply nothing_lost_refl|auto].
  - simpl. rewrite E. apply (nothing_lost_touch (heap w) shape v v' Hv).
  - rewrite (N_eqb_nullptr _ Hr), E, lookup_insert_eq. simpl.
    rewrite delete_insert_id by exact Hfree.
    apply (nothing_lost_touch (heap w) shape v v' Hv).
Qed.

(** *** Validation of dimensions *)

Lemma SFcompare_refl (a : spec_float) :
  a <> S754_nan -> SFcompare a a = Some Eq.
Proof.
  destruct a as [s|s| |s m e]; simpl; try congruence; intros _.
  - destruct s; reflexivity.
  - rewrite Z.compare_refl.
    change (Pos.compare_cont Eq m m) with (m ?= m)%positive.
    rewrite Pos.compare_refl. destruct s; reflexivity.
Qed.

Lemma is_nan_Prim2SF (x : double) : is_nan x = true -> Prim2SF x = S754_nan.
Proof.
  unfold is_nan. rewrite FloatAxioms.eqb_spec. unfold SFeqb. intros H.
  destruct (Prim2SF x) as [s|s| |s m e] eqn:E; try reflexivity;
    rewrite SFcompare_refl in H by discriminate; discriminate.
Qed.

(** Every comparison with a NaN is false. *)
Lemma nan_compares_false (x y : double) :
  is_nan x = true ->
  (x <=? y)%float = false /\ (y <=? x)%float = false /\
  (x <? y)%float = false /\ (x =? y)%float = false.
Proof.
  intros H. apply is_nan_Prim2SF in H.
  rewrite !FloatAxioms.leb_spec, FloatAxioms.ltb_spec, FloatAxioms.eqb_spec.
  unfold SFleb, SFltb, SFeqb. rewrite H. simpl.
  destruct (Prim2SF y); repeat split; reflexivity.
Qed.

Lemma positive_or_nan_passes (x : double) :
  positive_or_nan x ->
  (x <=? 0)%float = false /\ (x <? 0)%float = false /\ (x =? 0)%float = false.
Proof.
  intros [H|H].
  - repeat split; [apply ltb_leb_false|apply ltb_ltb_false|apply ltb_eqb_false]; exact H.
  - destruct (nan_compares_false x 0 H) as (A & _ & B & C). auto.
Qed.

(** X7.  [OCCT_Primitive_Box], [OCCT_Primitive_Cylinder] and
    [OCCT_Primitive_Sphere] return null without any request to the kernel
    exactly when one of their dimensions compares [<= 0]; otherwise the
    kernel is asked once, with the dimensions as given. *)
Theorem primitive_dimensions_checked (a b c : double) (w : world) :
  (((a <=? 0)%float || (b <=? 0)%float || (c <=? 0)%float = true <->
    OCCT_Primitive_Box a b c w = (Val nullptr, w)) /\
   ((a <=? 0)%float || (b <=? 0)%float || (c <=? 0)%float = false <->
    calls (snd (OCCT_Primitive_Box a b c w)) = calls w ++ [Call_MakeBox a b c]))
  /\
  (((a <=? 0)%float || (b <=? 0)%float = true <->
    OCCT_Primitive_Cylinder a b w = (Val nullptr, w)) /\
   ((a <=? 0)%float || (b <=? 0)%float = false <->
    calls (snd (OCCT_Primitive_Cylinder a b w)) = calls w ++ [Call_MakeCylinder a b]))
  /\
  (((a <=? 0)%float = true <->
    OCCT_Primitive_Sphere a w = (Val nullptr, w)) /\
   ((a <=? 0)%float = false <->
    calls (snd (OCCT_Primitive_Sphere a w)) = calls w ++ [Call_MakeSphere a])).
Proof.
  assert (Hne : forall l (k : kcall), l <> l ++ [k]).
  { intros l k E. apply (f_equal (@length _)) in E.
    rewrite length_app in E. simpl in E. lia. }
  assert (Hgen : forall (guard : bool) (k : kcall) (ctor : kres MakeShape),
    let m : M OCCT_Shape :=
      if guard then ret nullptr
      else try_catch (maker <- kernel k ctor;; build_and_wrap maker)
                     (fun _ => ret nullptr) in
    (guard = true <-> m w = (Val nullptr, w)) /\
    (guard = false <-> calls (snd (m w)) = calls w ++ [k])).
  { intros guard k ctor m. subst m.
    assert (Hdel : calls (snd (try_catch (maker <- kernel k ctor;; build_and_wrap maker)
                                 (fun _ => ret nullptr) w)) = calls w ++ [k]).
    { run. destruct ctor as [maker|e]; simpl; [|reflexivity].
      pose proof (build_and_wrap_calls maker (mk_world (heap w) (calls w ++ [k]))) as Hc.
      destruct (build_and_wrap maker _) as [[r|e|] w']; simpl in *; exact Hc. }
    destruct guard.
    - split; split; try reflexivity; try discriminate.
      simpl. intros E. exfalso. eapply Hne. exact E.
    - split; split; try discriminate; try reflexivity.
      + intros E. rewrite E in Hdel. simpl in Hdel. exfalso. eapply Hne. exact Hdel.
      + intros _. exact Hdel. }
  split; [|split].
  - apply (Hgen _ (Call_MakeBox a b c) (BRepPrimAPI_MakeBox a b c)).
  - apply (Hgen _ (Call_MakeCylinder a b) (BRepPrimAPI_MakeCylinder a b)).
  - apply (Hgen _ (Call_MakeSphere a) (BRepPrimAPI_MakeSphere a)).
Qed.

(** X8.  A dimension that is not a number passes the validation of every
    primitive: when each argument is positive or NaN (and, for the torus,
    the minor radius is below the major one or one of the two is NaN),
    the kernel is asked for the primitive with the arguments as given. *)
Theorem nan_passes_validation (a b c : double) (w : world) :
  positive_or_nan a -> positive_or_nan b -> positive_or_nan c ->
  calls (snd (OCCT_Primitive_Box a b c w)) = calls w ++ [Call_MakeBox a b c] /\
  calls (snd (OCCT_Primitive_Cylinder a b w)) = calls w ++ [Call_MakeCylinder a b] /\
  calls (snd (OCCT_Primitive_Sphere a w)) = calls w ++ [Call_MakeSphere a] /\
  calls (snd (OCCT_Primitive_Cone a b c w)) = calls w ++ [Call_MakeCone a b c] /\
  ((b <? a)%float = true \/ is_nan a = true \/ is_nan b = true ->
   calls (snd (OCCT_Primitive_Torus a b w)) = calls w ++ [Call_MakeTorus a b]).
Proof.
  intros Ha Hb Hc.
  destruct (positive_or_nan_passes a Ha) as (A1 & A2 & A3).
  destruct (positive_or_nan_passes b Hb) as (B1 & B2 & B3).
  destruct (positive_or_nan_passes c Hc) as (C1 & C2 & C3).
  assert (Hdel : forall (k : kcall) (ctor : kres MakeShape),
            calls (snd (try_catch (maker <- kernel k ctor;; build_and_wrap maker)
                          (fun _ => ret nullptr) w)) = calls w ++ [k]).
  { intros k ctor. run. destruct ctor as [maker|e]; simpl; [|reflexivity].
    pose proof (build_and_wrap_calls maker (mk_world (heap w) (calls w ++ [k]))) as Hc'.
    destruct (build_and_wrap maker _) as [[r|e|] w']; simpl in *; exact Hc'. }
  repeat split.
  - unfold OCCT_Primitive_Box. rewrite A1, B1, C1. apply Hdel.
  - unfold OCCT_Primitive_Cylinder. rewrite A1, B1. apply Hdel.
  - unfold OCCT_Primitive_Sphere. rewrite A1. apply Hdel.
  - unfold OCCT_Primitive_Cone. rewrite A2, B2, C1, A3. apply Hdel.
  - intros Hab. unfold OCCT_Primitive_Torus. rewrite A1, B1.
    assert (E : (a <=? b)%float = false).
    { destruct Hab as [H|[H|H]].
      - apply ltb_leb_false. exact H.
      - apply (nan_compares_false a b H).
      - apply (nan_compares_false b a H). }
    rewrite E. apply Hdel.
Qed.

(** X9.  On a kernel whose builders of placed primitives are not done
    before [Build] is called, [OCCT_Primitive_Box_TwoCorners],
    [OCCT_Primitive_Cylinder_Axis] and [OCCT_Primitive_Sphere_Center],
    which never call [Build], return no shape: whenever they return, the
    result is null and the heap is as it was. *)
Theorem placed_primitives_without_Build (h1 h2 : N) (a b c d e f : double) (w : world) :
  lazy_builders ->
  Forall (fun m : M OCCT_Shape =>
            forall r w', m w = (Val r, w') -> r = nullptr /\ heap w' = heap w)
    [OCCT_Primitive_Box_TwoCorners a b c d e f;
     OCCT_Primitive_Cylinder_Axis h1 h2 a b;
     OCCT_Primitive_Sphere_Center h1 a].
Proof.
  intros (HB & HC & HS).
  assert (Hnull : forall w0 r w', (Val nullptr, w0) = (Val r, w') :> result N * world ->
                    r = nullptr /\ heap w' = heap w0).
  { intros w0 r w' [= <- <-]. split; reflexivity. }
  constructor; [|constructor; [|constructor; [|constructor]]]; intros r w'.
  - unfold OCCT_Primitive_Box_TwoCorners, algorithm. run.
    destruct (BRepPrimAPI_MakeBox_corners _ _) as [maker|e0] eqn:E; simpl.
    + rewrite (HB _ _ _ E). simpl. apply Hnull.
    + apply Hnull.
  - unfold OCCT_Primitive_Cylinder_Axis, algorithm, read_Pnt, read_Dir.
    destruct ((h1 =? 0)%N || (h2 =? 0)%N || (a <=? 0)%float || (b <=? 0)%float);
      [apply Hnull|].
    run. destruct (heap w !! h1) as [[]|]; simpl; try discriminate.
    destruct (heap w !! h2) as [[]|]; simpl; try discriminate.
    destruct (gp_Ax2_ctor _ _) as [ax|e0]; simpl; [|apply Hnull].
    destruct (BRepPrimAPI_MakeCylinder_axis ax a b) as [maker|e0] eqn:E; simpl.
    + rewrite (HC _ _ _ _ E). simpl. apply Hnull.
    + apply Hnull.
  - unfold OCCT_Primitive_Sphere_Center, algorithm, read_Pnt.
    destruct ((h1 =? 0)%N || (a <=? 0)%float); [apply Hnull|].
    run. destruct (heap w !! h1) as [[]|]; simpl; try discriminate.
    destruct (BRepPrimAPI_MakeSphere_center _ a) as [maker|e0] eqn:E; simpl.
    + rewrite (HS _ _ _ E). simpl. apply Hnull.
    + apply Hnull.
Qed.

(** *** Queries *)

(** X10.  [OCCT_Shape_IsValid] has no handler: when the handle holds a
    shape that is not empty and the kernel's checker raises on it, the
    exception leaves the function, after one request to the kernel and
    with the heap as it was. *)
Theorem OCCT_Shape_IsValid_exception_escapes (shape : OCCT_Shape) (w : world)
    (v : TopoDS_Shape) (e : exn) :
  shape <> nullptr -> heap w !! shape = Some (Obj_Shape v) -> IsNull v = false ->
  BRepCheck_Analyzer_IsValid v = KRaise e ->
  OCCT_Shape_IsValid shape w
  = (Throw e, mk_world (heap w) (calls w ++ [Call_Analyzer v])).
Proof.
  intros Hn Hv Hnull He. unfold OCCT_Shape_IsValid.
  rewrite (N_eqb_nullptr _ Hn). run. rewrite Hv. simpl. rewrite Hnull. simpl.
  rewrite He. reflexivity.
Qed.

(** X11.  [OCCT_Shape_IsValid] answers true exactly for a non-null handle
    to a shape that is not empty and that the kernel's checker accepts;
    and it makes no request to the kernel exactly when it reads no such
    shape: the handle is null, the shape is empty, or the handle is
    dangling. *)
Theorem OCCT_Shape_IsValid_true_iff (shape : OCCT_Shape) (w : world) :
  (fst (OCCT_Shape_IsValid shape w) = Val true <->
   exists v, shape <> nullptr /\ heap w !! shape = Some (Obj_Shape v) /\
             IsNull v = false /\ BRepCheck_Analyzer_IsValid v = KOk true) /\
  (calls (snd (OCCT_Shape_IsValid shape w)) = calls w <->
   ~ exists v, shape <> nullptr /\ heap w !! shape = Some (Obj_Shape v) /\
               IsNull v = false).
Proof.
  assert (Hne : forall l (k : kcall), l ++ [k] <> l).
  { intros l k E. apply (f_equal (@length _)) in E.
    rewrite length_app in E. simpl in E. lia. }
  unfold OCCT_Shape_IsValid.
  destruct (N.eq_dec shape nullptr) as [->|Hn].
  { simpl. split; split; try discriminate.
    - intros (v & H & _). congruence.
    - intros _ (v & H & _). congruence.
    - reflexivity. }
  rewrite (N_eqb_nullptr _ Hn). run.
  destruct (heap w !! shape) as [[v| | | |]|] eqn:Hv; simpl;
    try (split; split;
         [discriminate
         |intros (? & _ & H & _); discriminate
         |intros _ (? & _ & H & _); discriminate
         |reflexivity]).
  destruct (IsNull v) eqn:Hnull; simpl.
  { split; split; try discriminate; try reflexivity.
    - intros (v0 & _ & [= <-] & H & _). congruence.
    - intros _ (v0 & _ & [= <-] & H). congruence. }
  split.
  - destruct (BRepCheck_Analyzer_IsValid v) as [[|]|e] eqn:Hk; simpl; split;
      try discriminate;
      try (intros (v0 & _ & [= <-] & _ & H); congruence).
    intros _. exists v. auto.
  - assert (Hc : calls (snd (match of_kres (BRepCheck_Analyzer_IsValid v) with
                             | Val a => (Val (if a then true else false),
                                         mk_world (heap w) (calls w ++ [Call_Analyzer v]))
                             | Throw e => (Throw e, mk_world (heap w) (calls w ++ [Call_Analyzer v]))
                             | Undefined => (Undefined, mk_world (heap w) (calls w ++ [Call_Analyzer v]))
                             end)) = calls w ++ [Call_Analyzer v]).
    { destruct (BRepCheck_Analyzer_IsValid v); reflexivity. }
    rewrite Hc. split.
    + intros E. exfalso. eapply Hne. exact E.
    + intros H. exfalso. apply H. exists v. auto.
Qed.

Lemma static_cast_int_range (k : TopAbs_ShapeEnum) : 0 <= static_cast_int k <= 8.
Proof. destruct k; simpl; lia. Qed.

(** X12.  [OCCT_Shape_Type] raises nothing and changes nothing.  It
    returns exactly when the handle is null or holds a shape: -1 for a
    null handle or an empty shape, and otherwise the number of the
    shape's kind in the kernel's enumeration, which lies between 0 and 8.
    It is undefined exactly on a non-null handle that holds no shape. *)
Theorem OCCT_Shape_Type_sentinel (shape : OCCT_Shape) (w : world) :
  match OCCT_Shape_Type shape w with
  | (Val t, w') =>
      w' = w /\
      ((shape = nullptr /\ t = -1) \/
       (shape <> nullptr /\
        exists v, heap w !! shape = Some (Obj_Shape v) /\
                  t = if IsNull v then -1 else static_cast_int (ShapeType v))) /\
      -1 <= t <= 8 /\
      (t = -1 <-> shape = nullptr \/
                  exists v, heap w !! shape = Some (Obj_Shape v) /\ IsNull v = true)
  | (Throw _, _) => False
  | (Undefined, w') =>
      w' = w /\ shape <> nullptr /\ forall v, heap w !! shape <> Some (Obj_Shape v)
  end /\
  (fst (OCCT_Shape_Type shape w) = Undefined <->
   shape <> nullptr /\ forall v, heap w !! shape <> Some (Obj_Shape v)).
Proof.
  unfold OCCT_Shape_Type.
  destruct (N.eq_dec shape nullptr) as [->|Hn].
  { simpl. split.
    - split; [reflexivity|]. split; [left; split; reflexivity|].
      split; [lia|]. split; [intros _; left; reflexivity|reflexivity].
    - split; [discriminate|]. intros [H _]. contradiction. }
  rewrite (N_eqb_nullptr _ Hn). run.
  destruct (heap w !! shape) as [[v| | | |]|] eqn:Hv; simpl;
    try (split; [split; [reflexivity|split; [exact Hn|intros ?; discriminate]]
                |split; [intros _; split; [exact Hn|intros ?; discriminate]|reflexivity]]).
  assert (Hdef : forall r : result Z,
            r <> Undefined ->
            (r = Undefined <->
             shape <> nullptr /\ forall v0, Some (Obj_Shape v) <> Some (Obj_Shape v0))).
  { intros r Hr. split; [contradiction|]. intros [_ H]. exfalso. apply (H v). reflexivity. }
  destruct (IsNull v) eqn:Hnull; simpl.
  - split; [|apply Hdef; discriminate].
    split; [reflexivity|]. split.
    { right. split; [exact Hn|]. exists v. rewrite Hnull. auto. }
    split; [lia|]. split; [intros _; right; exists v; auto|reflexivity].
  - pose proof (static_cast_int_range (ShapeType v)) as Hr.
    split; [|apply Hdef; discriminate].
    split; [reflexivity|]. split.
    { right. split; [exact Hn|]. exists v. rewrite Hnull. auto. }
    split; [lia|]. split; [lia|].
    intros [H|(v0 & [= <-] & H)]; [contradiction|congruence].
Qed.

(** *** Extrusion *)

(** X13.  Extruding a wire is extruding the planar face that the kernel
    builds on it, but for one read.  When a second handle holds that face,
    and the kernel recognizes it as a face, [OCCT_Extrude_Wire] on the
    wire and [OCCT_Extrude_Face] on the face have the same outcome and
    leave the same state whenever the prism builder hands out no shape or
    a shape that is not empty.  When it hands out an empty shape,
    [OCCT_Extrude_Wire], which reads the type of the result, is undefined,
    while [OCCT_Extrude_Face] returns a new handle to the empty shape. *)
Theorem extrude_wire_is_extrude_face (wire face : N) (vx vy vz : double) (w : world)
    (v f : TopoDS_Shape) :
  wire <> nullptr -> heap w !! wire = Some (Obj_Shape v) -> IsNull v = false ->
  planar_face_of v f ->
  face <> nullptr -> heap w !! face = Some (Obj_Shape f) -> IsNull f = false ->
  TopoDS_Face_cast f = KOk f ->
  match prism_of f (mk_gp_Vec vx vy vz) with
  | Some result =>
      if IsNull result
      then fst (OCCT_Extrude_Wire wire vx vy vz w) = Undefined /\
           exists r, fst (OCCT_Extrude_Face face vx vy vz w) = Val r /\ r <> nullptr
      else OCCT_Extrude_Wire wire vx vy vz w = OCCT_Extrude_Face face vx vy vz w
  | None => OCCT_Extrude_Wire wire vx vy vz w = OCCT_Extrude_Face face vx vy vz w
  end.
Proof.
  intros Hw Hv Hvn (topoWire & faceBuilder & Hcast & Hmake & Hdone & Hshape)
         Hf Hfv Hfn Hfc.
  unfold OCCT_Extrude_Wire, OCCT_Extrude_Face, ShapeType_of, algorithm, prism_of.
  rewrite (N_eqb_nullptr _ Hw), (N_eqb_nullptr _ Hf). run.
  rewrite Hv, Hfv. simpl. rewrite Hvn, Hfn. simpl.
  rewrite Hcast, Hfc. simpl. rewrite Hmake. simpl. rewrite Hdone. simpl.
  rewrite Hshape. simpl.
  destruct (BRepPrimAPI_MakePrism f _) as [prismBuilder|e]; simpl; [|reflexivity].
  destruct (IsDone prismBuilder); simpl; [|reflexivity].
  destruct (Shape prismBuilder) as [result|e]; simpl; [|reflexivity].
  destruct (IsNull result); simpl; [|reflexivity].
  split; [reflexivity|].
  destruct (new_allocated (Obj_Shape result) w) as (r & w' & Hn & Hr & _).
  rewrite Hn. exists r. split; [reflexivity|exact Hr].
Qed.

(** *** Wires *)

(** X14.  A 2D wire is the 3D wire of the same points at height zero:
    for every array of 2D points whose 3D form can be indexed by an
    [int], [OCCT_Wire_FromPoints2D] on it and [OCCT_Wire_FromPoints3D] on
    the points lifted to the XY plane have the same outcome, kernel
    requests included. *)
Theorem wire2D_is_wire3D_on_XY (pts : list (double * double)) (closed : bool)
    (w : world) :
  3 * Z.of_nat (length pts) <= INT_MAX ->
  OCCT_Wire_FromPoints2D (Some (coords2D pts)) (Z.of_nat (length pts)) closed w
  = OCCT_Wire_FromPoints3D (Some (coords3D (map on_XY pts))) (Z.of_nat (length pts))
      closed w.
Proof.
  intros Hmax. unfold OCCT_Wire_FromPoints2D, OCCT_Wire_FromPoints3D.
  destruct (Z.ltb_spec (Z.of_nat (length pts)) 2) as [?|Hlen]; [reflexivity|].
  rewrite <- (length_map on_XY pts : length (map on_XY pts) = length pts).
  rewrite !wire_from_points; try reflexivity;
    rewrite ?length_map; unfold INT_MAX in *; try lia.
  - intros j p w0 Hj. apply point3D_spec; [rewrite length_map; unfold INT_MAX; lia|exact Hj].
  - intros j p w0 Hj. apply point2D_spec; [unfold INT_MAX; lia|exact Hj].
Qed.

(** *** Meshes *)

Lemma length_push_Vec (ns : list gp_Vec) :
  length (flat_map push_Vec ns) = (3 * length ns)%nat.
Proof. induction ns as [|n ns IH]; simpl; [reflexivity|lia]. Qed.

Lemma face_normals_length (fms : list (list gp_Pnt * list (Z * Z * Z)))
    (nss : list (list gp_Vec)) :
  Forall2 face_normals fms nss ->
  length (concat nss) = length (concat (map fst fms)).
Proof.
  induction 1 as [|fm ns fms nss Hn _ IH]; [reflexivity|].
  simpl. rewrite !length_app, IH. f_equal.
  unfold face_normals in Hn. apply Forall2_length in Hn.
  rewrite length_map, length_seq in Hn. symmetry. exact Hn.
Qed.

(** X15.  In a mesh returned by [OCCT_Tessellate] the array of normals is
    parallel to the array of vertices: both have the same number of
    entries, three for each node of the triangulated faces. *)
Theorem OCCT_Tessellate_parallel_arrays (shape : OCCT_Shape)
    (params : OCCT_TessellationParams) (w w' : world) (r : N) (m : OCCT_Mesh) :
  OCCT_Tessellate shape params w = (Val r, w') ->
  r <> nullptr ->
  heap w' !! r = Some (Obj_Mesh m) ->
  length (normals m) = length (vertices m) /\
  exists v',
    heap w' !! shape = Some (Obj_Shape v') /\
    length (vertices m)
    = (3 * length (concat (map fst (face_meshes (TopExp_Faces v')))))%nat.
Proof.
  intros Hrun Hr Hm.
  destruct (OCCT_Tessellate_mesh shape params w w' r m Hrun Hr Hm)
    as (v' & b & _ & Hshape & Hwalk & _ & _ & ->).
  apply walk_spec in Hwalk as (nss & HN & _ & HV & HNo & _). simpl in HV, HNo.
  unfold make_mesh. cbn [vertices normals].
  rewrite HV, HNo, length_push_Pnt, length_push_Vec, (face_normals_length _ _ HN).
  split; [reflexivity|]. exists v'. split; [exact Hshape|reflexivity].
Qed.

(** *** Releasing *)

(** X16.  Each of the six releasing functions does nothing on a null
    handle and raises nothing.  On a non-null handle it returns exactly
    when the handle holds an object of its kind: it then removes that
    object and nothing else, and releasing the same handle a second time
    is undefined.  On a non-null handle that holds no object, or an
    object of another kind, it is undefined. *)
Theorem delete_twice_undefined (h : N) (w : world) :
  Forall (fun del : (N -> M unit) * (object -> bool) =>
            fst del nullptr w = (Val tt, w) /\
            match fst del h w with
            | (Val _, w') =>
                (h = nullptr /\ w' = w) \/
                (h <> nullptr /\
                 (exists o, heap w !! h = Some o /\ snd del o = true) /\
                 heap w' = delete h (heap w) /\ calls w' = calls w /\
                 fst (fst del h w') = Undefined)
            | (Throw _, _) => False
            | (Undefined, w') =>
                h <> nullptr /\ w' = w /\
                forall o, heap w !! h = Some o -> snd del o = false
            end)
    [(OCCT_Shape_Delete, is_Shape); (OCCT_Wire_Delete, is_Shape);
     (OCCT_Pnt_Delete, is_Pnt); (OCCT_Vec_Delete, is_Vec);
     (OCCT_Dir_Delete, is_Dir); (OCCT_Mesh_Delete, is_Mesh)].
Proof.
  assert (Hgen : forall is_kind : object -> bool,
    let del := fun p : N => if (p =? 0)%N then ret tt else delete_as is_kind p in
    del nullptr w = (Val tt, w) /\
    match del h w with
    | (Val _, w') =>
        (h = nullptr /\ w' = w) \/
        (h <> nullptr /\
         (exists o, heap w !! h = Some o /\ is_kind o = true) /\
         heap w' = delete h (heap w) /\ calls w' = calls w /\
         fst (del h w') = Undefined)
    | (Throw _, _) => False
    | (Undefined, w') =>
        h <> nullptr /\ w' = w /\ forall o, heap w !! h = Some o -> is_kind o = false
    end).
  { intros is_kind del. subst del. split; [reflexivity|].
    destruct (N.eq_dec h nullptr) as [->|Hn].
    { simpl. left. split; reflexivity. }
    rewrite (N_eqb_nullptr _ Hn). unfold delete_as.
    destruct (heap w !! h) as [o|] eqn:Hv;
      [|split; [exact Hn|split; [reflexivity|intros ?; discriminate]]].
    destruct (is_kind o) eqn:Hk.
    - right. simpl. rewrite lookup_delete_eq. simpl.
      split; [exact Hn|]. split; [exists o; auto|]. repeat split.
    - split; [exact Hn|]. split; [reflexivity|]. intros o' [= <-]. exact Hk. }
  repeat apply Forall_cons_2; try apply Forall_nil_2; cbn [fst snd];
    first [apply (Hgen is_Shape)|apply (Hgen is_Pnt)|apply (Hgen is_Vec)
          |apply (Hgen is_Dir)|apply (Hgen is_Mesh)].
Qed.

(** X17.  A released shape cannot be used: after [OCCT_Shape_Delete] has
    returned on a non-null handle, [OCCT_Shape_IsValid],
    [OCCT_Shape_Type], [OCCT_Tessellate], [OCCT_Extrude_Wire],
    [OCCT_Extrude_Face] and the three Boolean operations are undefined on
    that handle. *)
Theorem use_after_delete (h other : N) (params : OCCT_TessellationParams)
    (vx vy vz : double) (w w' : world) :
  h <> nullptr -> other <> nullptr ->
  OCCT_Shape_Delete h w = (Val tt, w') ->
  fst (OCCT_Shape_IsValid h w') = Undefined /\
  fst (OCCT_Shape_Type h w') = Undefined /\
  fst (OCCT_Tessellate h params w') = Undefined /\
  fst (OCCT_Extrude_Wire h vx vy vz w') = Undefined /\
  fst (OCCT_Extrude_Face h vx vy vz w') = Undefined /\
  Forall (fun op : N -> N -> M OCCT_Shape => fst (op h other w') = Undefined)
    [OCCT_Boolean_Union; OCCT_Boolean_Difference; OCCT_Boolean_Intersection].
Proof.
  intros Hn Ho Hdel.
  assert (Hgone : heap w' !! h = None).
  { unfold OCCT_Shape_Delete, toShape, delete_as in Hdel.
    rewrite (N_eqb_nullptr _ Hn) in Hdel.
    destruct (heap w !! h) as [o|]; [|discriminate].
    destruct (is_Shape o); [|discriminate].
    injection Hdel as <-. simpl. apply lookup_delete_eq. }
  repeat split; [| | | | |repeat constructor];
    unfold OCCT_Shape_IsValid, OCCT_Shape_Type, OCCT_Tessellate, OCCT_Extrude_Wire,
      OCCT_Extrude_Face, OCCT_Boolean_Union, OCCT_Boolean_Difference,
      OCCT_Boolean_Intersection, boolean_body;
    rewrite ?(N_eqb_nullptr _ Hn), ?(N_eqb_nullptr _ Ho); run; rewrite Hgone;
    reflexivity.
Qed.

End More_Properties.

(** X8, witness: a box whose first dimension is not a number. *)
Lemma nan_passes_validation_witness :
  calls (snd (OCCT_Primitive_Box nan 1 1 world0)) = calls world0 ++ [Call_MakeBox nan 1 1] /\
  calls (snd (OCCT_Primitive_Cylinder nan 1 world0))
  = calls world0 ++ [Call_MakeCylinder nan 1] /\
  calls (snd (OCCT_Primitive_Sphere nan world0)) = calls world0 ++ [Call_MakeSphere nan] /\
  calls (snd (OCCT_Primitive_Cone nan 1 1 world0))
  = calls world0 ++ [Call_MakeCone nan 1 1] /\
  ((1 <? nan)%float = true \/ is_nan nan = true \/ is_nan 1 = true ->
   calls (snd (OCCT_Primitive_Torus nan 1 world0)) = calls world0 ++ [Call_MakeTorus nan 1]).
Proof.
  apply (nan_passes_validation nan 1 1 world0).
  - right. reflexivity.
  - left. reflexivity.
  - left. reflexivity.
Defined.

(** X9, witness: on the reference kernel, with a point and a direction in
    the heap, none of the three placed primitives yields a shape. *)
Lemma placed_primitives_without_Build_witness :
  Forall (fun m : M OCCT_Shape =>
            forall r w', m world_axis = (Val r, w') ->
                         r = nullptr /\ heap w' = heap world_axis)
    [OCCT_Primitive_Box_TwoCorners 0 0 0 1 1 1;
     OCCT_Primitive_Cylinder_Axis 1%N 2%N 1 1;
     OCCT_Primitive_Sphere_Center 1%N 1].
Proof.
  apply (placed_primitives_without_Build (KX := RefKernelExt) 1%N 2%N 1 1 0 1 1 1 world_axis).
  repeat split; intros; simpl in *; match goal with H : KOk _ = KOk _ |- _ =>
    injection H as <- end; reflexivity.
Defined.

(** X10, witness: on the kernel whose checker raises on an empty compound,
    the validity query on the empty intersection of two boxes lets the
    exception out. *)
Lemma OCCT_Shape_IsValid_exception_escapes_witness :
  OCCT_Shape_IsValid (K := StrictKernel) 3%N world_strict
  = (Throw Standard_NullObject,
     mk_world (heap world_strict)
       (calls world_strict
        ++ [Call_Analyzer (K := StrictKernel) (Ref.Node TopAbs_COMPOUND [] None [])])).
Proof.
  apply (OCCT_Shape_IsValid_exception_escapes (K := StrictKernel) 3%N world_strict
           (Ref.Node TopAbs_COMPOUND [] None []) Standard_NullObject).
  - discriminate.
  - vm_compute; reflexivity.
  - reflexivity.
  - reflexivity.
Defined.

(** X13, witness: the unit square, as a wire at the address 1 and as a
    face at the address 2, extruded by one along Z. *)
Lemma extrude_wire_is_extrude_face_witness :
  OCCT_Extrude_Wire 1%N 0 0 1 world_square_face
  = OCCT_Extrude_Face 2%N 0 0 1 world_square_face /\
  fst (OCCT_Extrude_Face 2%N 0 0 1 world_square_face) = Val 3%N.
Proof.
  split; [|vm_compute; reflexivity].
  eapply (extrude_wire_is_extrude_face (KX := RefKernelExt) 1%N 2%N 0 0 1
            world_square_face).
  - discriminate.
  - vm_compute; reflexivity.
  - reflexivity.
  - eexists _, _. repeat split; vm_compute; reflexivity.
  - discriminate.
  - vm_compute; reflexivity.
  - reflexivity.
  - reflexivity.
Defined.

(** X14, witness: the unit square. *)
Lemma wire2D_is_wire3D_on_XY_witness :
  OCCT_Wire_FromPoints2D (Some (coords2D square_polyline)) 4 true world0
  = OCCT_Wire_FromPoints3D (Some (coords3D (map on_XY square_polyline))) 4 true world0.
Proof.
  apply (wire2D_is_wire3D_on_XY square_polyline true world0).
  vm_compute; discriminate.
Defined.

(** X15, witness: the mesh of the unit cube, 24 nodes. *)
Lemma OCCT_Tessellate_parallel_arrays_witness :
  exists (m : OCCT_Mesh),
    heap (snd cube_tessellated) !! 2%N = Some (Obj_Mesh m) /\
    length (vertices m) = 72%nat /\
    length (normals m) = length (vertices m) /\
    exists v',
      heap (snd cube_tessellated) !! 1%N = Some (Obj_Shape v') /\
      length (vertices m)
      = (3 * length (concat (map fst (face_meshes (TopExp_Faces v')))))%nat.
Proof.
  eexists. split; [vm_compute; reflexivity|]. split; [reflexivity|].
  eapply (OCCT_Tessellate_parallel_arrays 1%N coarse_params world_cube
            (snd cube_tessellated) 2%N).
  - vm_compute; reflexivity.
  - discriminate.
  - vm_compute; reflexivity.
Defined.

(** X17, witness: the first of two boxes, released. *)
Lemma use_after_delete_witness :
  fst (OCCT_Shape_IsValid 1%N (snd (OCCT_Shape_Delete 1%N world_two_boxes))) = Undefined /\
  fst (OCCT_Boolean_Union 1%N 2%N (snd (OCCT_Shape_Delete 1%N world_two_boxes)))
  = Undefined.
Proof.
  destruct (use_after_delete (KX := RefKernelExt) 1%N 2%N coarse_params 0 0 1
              world_two_boxes (snd (OCCT_Shape_Delete 1%N world_two_boxes)))
    as (H1 & _ & _ & _ & _ & H2).
  - discriminate.
  - discriminate.
  - vm_compute; reflexivity.
  - split; [exact H1|]. inversion H2; assumption.
Defined.
